(** * The pi plugin of politeiad: status derivation, billing status
      changes and the summary cache

    A shallow embedding of
    [politeiad/backendv2/tstorebe/plugins/pi/cmds.go].  Go packages are
    rendered as modules, Go enumerations as inductive types, functions
    returning [(value, error)] as functions into [result], maps as
    [gmap], and the doubly linked list of cache entries as a [list]
    whose head is the front of the Go list.  A command is a function
    of the plugin that returns the plugin it leaves behind and its
    result, or nothing when it panics.  The types, constants and
    helpers that cmds.go uses and that other files declare are either
    modelled from the spec, and say so, or taken as the interfaces
    [Library] and [Backend].

    The module [legacypoliteia] embeds the reading of the legacy git
    repository and two steps of the import of its proposals, of
    [politeiad/cmd/legacypoliteia/git.go] and [convertcmd.go]. *)

From Stdlib Require Import ZArith NArith Ascii String List Bool Lia Sorted.
From Stdlib.Strings Require Import Byte.
From stdpp Require Import base decidable countable gmap strings list.

Local Open Scope string_scope.
Local Open Scope list_scope.

(** A Go [[]byte]. *)
Abbreviation bytes := (list Byte.byte).

#[global] Instance byte_eq_dec : EqDecision Byte.byte := Byte.byte_eq_dec.

(* ================================================================== *)
(** ** Enumerations of the collaborating packages *)
(* ================================================================== *)

Module backend.

(** Modelled from the spec: the declaration of [backend.StateT] (an
    integer type) is not among the sources.  The constructors are
    the constants that cmds.go names; [StateOther] stands for every
    other value of the underlying integer type. *)
Inductive StateT : Type :=
| StateUnvetted
| StateVetted
| StateOther (v : N).

(** Modelled from the spec: the declaration of [backend.StatusT] is
    not among the sources; as for [StateT]. *)
Inductive StatusT : Type :=
| StatusUnreviewed
| StatusPublic
| StatusCensored
| StatusArchived
| StatusOther (v : N).

End backend.

Module ticketvote.

(** Modelled from the spec: the declaration of
    [ticketvote.VoteStatusT] is not among the sources.  The six
    named values are those of the spec's data model; [VoteStatusOther]
    stands for every other value of the underlying integer type. *)
Inductive VoteStatusT : Type :=
| VoteStatusInvalid
| VoteStatusUnauthorized
| VoteStatusAuthorized
| VoteStatusStarted
| VoteStatusRejected
| VoteStatusApproved
| VoteStatusOther (v : N).

(** Modelled from the spec: [ticketvote.VoteMetadata], with the two
    fields the spec's data model gives it. *)
Record VoteMetadata : Type := {
  LinkBy : Z;
  LinkTo : string
}.

(** The reply of the vote summary command; only [Status] is read. *)
Record SummaryReply : Type := {
  Status : VoteStatusT
}.

End ticketvote.

Module pi.

(** Modelled from the spec: the declaration of [pi.BillingStatusT]
    is not among the sources.  [BillingStatusOther] stands for every
    value of the underlying integer type that has no name. *)
Inductive BillingStatusT : Type :=
| BillingStatusInvalid
| BillingStatusActive
| BillingStatusClosed
| BillingStatusCompleted
| BillingStatusOther (v : N).

(** Modelled from the spec: the proposal statuses of [pi.PropStatusT]
    (the declaration is not among the sources). *)
Inductive PropStatusT : Type :=
| PropStatusInvalid
| PropStatusUnvetted
| PropStatusUnvettedAbandoned
| PropStatusUnvettedCensored
| PropStatusUnderReview
| PropStatusAbandoned
| PropStatusCensored
| PropStatusVoteAuthorized
| PropStatusVoteStarted
| PropStatusApproved
| PropStatusRejected
| PropStatusActive
| PropStatusCompleted
| PropStatusClosed.

(** Modelled from the spec: the error codes of [pi.ErrorCodeT] that
    cmds.go names (the declaration is not among the sources);
    [ErrorCodeInvalid] is the zero value of the type. *)
Inductive ErrorCodeT : Type :=
| ErrorCodeInvalid
| ErrorCodeTokenInvalid
| ErrorCodePublicKeyInvalid
| ErrorCodeSignatureInvalid
| ErrorCodeBillingStatusChangeNotAllowed
| ErrorCodeBillingStatusInvalid.

(** Modelled from the spec: the payload of the set billing status
    command, with the fields that cmds.go reads (the declaration is
    not among the sources). *)
Record SetBillingStatus : Type := {
  sbs_Token : string;
  sbs_Status : BillingStatusT;
  sbs_Reason : string;
  sbs_PublicKey : string;
  sbs_Signature : string
}.

(** Modelled from the spec: a billing status change as it is saved
    to the backend, with the fields that cmds.go writes (the
    declaration is not among the sources). *)
Record BillingStatusChange : Type := {
  Token : string;
  Status : BillingStatusT;
  Reason : string;
  PublicKey : string;
  Signature : string;
  Receipt : string;
  Timestamp : Z
}.

Record SetBillingStatusReply : Type := {
  sbsr_Timestamp : Z;
  sbsr_Receipt : string
}.

Record BillingStatusChangesReply : Type := {
  BillingStatusChanges : list BillingStatusChange
}.

Record ProposalSummary : Type := {
  ps_Status : PropStatusT
}.

Record SummaryReply : Type := {
  Summary : ProposalSummary
}.

End pi.

Module util.

(** Modelled from the spec: the status codes of a
    [util.SignatureError] that cmds.go names (the declaration is not
    among the sources); [ErrorStatusOther] stands for every other
    code. *)
Inductive ErrorStatusT : Type :=
| ErrorStatusPublicKeyInvalid
| ErrorStatusSignatureInvalid
| ErrorStatusOther (v : N).

End util.

Module store.

(** Modelled from the spec: a blob of the key-value store, with the
    fields that [billingStatusDecode] reads: the hex digest of the
    data, the base64 data hint and the base64 data. *)
Record BlobEntry : Type := {
  Digest : string;
  DataHint : string;
  Data : string
}.

(** Modelled from the spec: the decoded data hint of a blob. *)
Record DataDescriptor : Type := {
  Type_ : string;
  Descriptor : string
}.

End store.

Import backend ticketvote util.
Export pi.

#[global] Instance StateT_eq_dec : EqDecision StateT.
Proof. solve_decision. Defined.
#[global] Instance StatusT_eq_dec : EqDecision StatusT.
Proof. solve_decision. Defined.
#[global] Instance VoteStatusT_eq_dec : EqDecision VoteStatusT.
Proof. solve_decision. Defined.
#[global] Instance BillingStatusT_eq_dec : EqDecision BillingStatusT.
Proof. solve_decision. Defined.
#[global] Instance PropStatusT_eq_dec : EqDecision PropStatusT.
Proof. solve_decision. Defined.
#[global] Instance ErrorCodeT_eq_dec : EqDecision ErrorCodeT.
Proof. solve_decision. Defined.

(** Billing statuses are keys of the transition table, so they are
    counted: the four named values first, the unnamed ones after. *)
Definition BillingStatusT_to_N (bs : BillingStatusT) : N :=
  match bs with
  | BillingStatusInvalid => 0
  | BillingStatusActive => 1
  | BillingStatusClosed => 2
  | BillingStatusCompleted => 3
  | BillingStatusOther v => 4 + v
  end%N.

Definition BillingStatusT_of_N (n : N) : BillingStatusT :=
  if (n =? 0)%N then BillingStatusInvalid
  else if (n =? 1)%N then BillingStatusActive
  else if (n =? 2)%N then BillingStatusClosed
  else if (n =? 3)%N then BillingStatusCompleted
  else BillingStatusOther (n - 4).

Lemma BillingStatusT_of_to_N (bs : BillingStatusT) :
  BillingStatusT_of_N (BillingStatusT_to_N bs) = bs.
Proof.
  destruct bs as [| | | |v]; try reflexivity.
  unfold BillingStatusT_of_N, BillingStatusT_to_N.
  repeat match goal with
         | |- context [N.eqb ?a ?b] => destruct (N.eqb_spec a b); [lia|]
         end.
  f_equal. lia.
Qed.

#[global] Instance BillingStatusT_countable : Countable BillingStatusT :=
  inj_countable' BillingStatusT_to_N BillingStatusT_of_N BillingStatusT_of_to_N.

(* ================================================================== *)
(** ** Errors *)
(* ================================================================== *)

(** Go [error] values.  A formatted message keeps its format string
    and its arguments apart, so no claim depends on how Go prints a
    value. *)
Inductive error : Type :=
| PluginError (ErrorCode : ErrorCodeT) (ErrorContext : message)
    (* backend.PluginError of plugin pi *)
| Errorf (m : message)
    (* errors.Errorf and fmt.Errorf *)
| ErrRecordNotFound
    (* backend.ErrRecordNotFound *)
| SignatureError (ErrorCode : ErrorStatusT) (ErrorContext : string)
    (* util.SignatureError *)
| ExternalError (pkg : string) (text : string)
    (* an error value made by a collaborator or by a Go library *)
with message : Type :=
| Text (s : string)
| Sprintf (format : string) (args : list fmtArg)
with fmtArg : Type :=
| ArgState (s : StateT)
| ArgStatus (s : StatusT)
| ArgVoteStatus (s : VoteStatusT)
| ArgBillingStatus (s : BillingStatusT)
| ArgBillingStatusName (s : BillingStatusT)
    (* pi.BillingStatuses[s] *)
| ArgBytes (b : bytes)
| ArgString (s : string)
| ArgError (e : error).

(** The result of a Go function that returns [(value, error)]. *)
Inductive result (A : Type) : Type :=
| Ok (a : A)
| Err (e : error).
Arguments Ok {A} a.
Arguments Err {A} e.

Definition bind {A B : Type} (r : result A) (k : A -> result B) : result B :=
  match r with
  | Ok a => k a
  | Err e => Err e
  end.

Notation "'do' x <- r ; k" := (bind r (fun x => k))
  (at level 10, x name, r at level 100, k at level 200,
   format "'[v' 'do'  x  <-  r ; '/' k ']'").

Definition isOk {A : Type} (r : result A) : bool :=
  match r with Ok _ => true | Err _ => false end.

(* ================================================================== *)
(** ** The status deriver (pure part of cmds.go) *)
(* ================================================================== *)

(** Modelled from the spec: [isRFP] is declared in a file of the plugin
    that is not among the sources.  "A proposal is an RFP base
    proposal iff LinkBy != 0"; the vote metadata is optional, and a
    proposal without one is no RFP. *)
Definition isRFP (vm : option VoteMetadata) : bool :=
  match vm with
  | None => false
  | Some v => negb (LinkBy v =? 0)%Z
  end.

(** The table of allowed billing status transitions:
    [billingStatusChanges[currentStatus][newStatus]] exists iff the
    transition is allowed. *)
Definition billingStatusChanges
  : gmap BillingStatusT (gmap BillingStatusT unit) :=
  <[BillingStatusActive :=
      <[BillingStatusClosed := tt]> (<[BillingStatusCompleted := tt]> ∅)]>
  (<[BillingStatusClosed :=
      <[BillingStatusActive := tt]> (<[BillingStatusCompleted := tt]> ∅)]>
  (<[BillingStatusCompleted :=
      <[BillingStatusActive := tt]> (<[BillingStatusClosed := tt]> ∅)]> ∅)).

(** [_, ok := billingStatusChanges[curr][new]]: a missing outer key
    gives the nil map, in which every lookup fails. *)
Definition billingStatusChangeAllowed (curr new : BillingStatusT) : bool :=
  match billingStatusChanges !! curr with
  | None => false
  | Some row =>
      match row !! new with
      | None => false
      | Some _ => true
      end
  end.

Definition proposalBillingStatus
  (vs : VoteStatusT) (bscs : list BillingStatusChange) : BillingStatusT :=
  if decide (vs <> VoteStatusApproved) then BillingStatusInvalid
  else if (length bscs =? 0)%nat then BillingStatusActive
  else
    match bscs !! (length bscs - 1)%nat with
    | Some c => Status c
    | None => BillingStatusInvalid (* the index is in range: not reached *)
    end.

Definition proposalStatusApproved
  (voteMD : option VoteMetadata) (bscs : list BillingStatusChange)
  : result PropStatusT :=
  if isRFP voteMD then Ok PropStatusApproved
  else
    let bs := proposalBillingStatus VoteStatusApproved bscs in
    match bs with
    | BillingStatusClosed => Ok PropStatusClosed
    | BillingStatusCompleted => Ok PropStatusCompleted
    | BillingStatusActive => Ok PropStatusActive
    | _ =>
        Err (Errorf (Sprintf
          "couldn't determine proposal status of an approved propsoal: billingStatus: %v"
          [ArgBillingStatus bs]))
    end.

Definition proposalStatus_unreachable
  (state : StateT) (status : StatusT) (voteStatus : VoteStatusT) : error :=
  Errorf (Sprintf
    "couldn't determine proposal status: proposal state: %v, proposal status %v, vote status: %v"
    [ArgState state; ArgStatus status; ArgVoteStatus voteStatus]).

Definition proposalStatus
  (state : StateT) (status : StatusT) (voteStatus : VoteStatusT)
  (voteMD : option VoteMetadata) (bscs : list BillingStatusChange)
  : result PropStatusT :=
  let unreachable := Err (proposalStatus_unreachable state status voteStatus) in
  match state with
  | StateUnvetted =>
      match status with
      | StatusUnreviewed => Ok PropStatusUnvetted
      | StatusArchived => Ok PropStatusUnvettedAbandoned
      | StatusCensored => Ok PropStatusUnvettedCensored
      | _ => unreachable
      end
  | StateVetted =>
      match status with
      | StatusArchived => Ok PropStatusAbandoned
      | StatusCensored => Ok PropStatusCensored
      | StatusPublic =>
          match voteStatus with
          | VoteStatusUnauthorized => Ok PropStatusUnderReview
          | VoteStatusAuthorized => Ok PropStatusVoteAuthorized
          | VoteStatusStarted => Ok PropStatusVoteStarted
          | VoteStatusRejected => Ok PropStatusRejected
          | VoteStatusApproved => proposalStatusApproved voteMD bscs
          | _ => unreachable
          end
      | _ => unreachable
      end
  | _ => unreachable
  end.


(* ================================================================== *)
(** ** Collaborators *)
(* ================================================================== *)

(** A Go slice of bytes that may be nil: [None] is the nil slice. *)
Definition slice_bytes (b : option bytes) : bytes := default [] b.

(** Modelled from the spec: a record of the backend and a request
    for one, as far as cmds.go reads and writes them (the declarations
    are not among the sources). *)
Record RecordMetadata : Type := {
  State : StateT;
  rm_Status : StatusT
}.

Record File : Type := {
  Name : string;
  Payload : string
}.

Record Record_ : Type := {
  RecordMetadata_ : RecordMetadata;
  Files : list File
}.

Record RecordRequest : Type := {
  rr_Token : option bytes;
  Filenames : list string;
  OmitAllFiles : bool
}.

(** The Go standard library and the helpers of the repository that
    cmds.go calls and that are not among the sources.  They are taken
    as an interface; every theorem holds for each implementation, and
    states as a hypothesis what it needs of one. *)
Class Library : Type := {
  (* encoding/json, at the types cmds.go uses it *)
  json_Unmarshal_SetBillingStatus : bytes -> result SetBillingStatus;
  json_Marshal_SetBillingStatusReply : SetBillingStatusReply -> result bytes;
  json_Marshal_BillingStatusChangesReply :
    BillingStatusChangesReply -> result bytes;
  json_Marshal_SummaryReply : pi.SummaryReply -> result bytes;
  json_Marshal_BillingStatusChange : BillingStatusChange -> result bytes;
  json_Unmarshal_BillingStatusChange : bytes -> result BillingStatusChange;
  json_Marshal_DataDescriptor : store.DataDescriptor -> result bytes;
  json_Unmarshal_DataDescriptor : bytes -> result store.DataDescriptor;
  (* encoding/base64 (StdEncoding) and encoding/hex *)
  base64_EncodeToString : bytes -> string;
  base64_DecodeString : string -> result bytes;
  hex_EncodeToString : bytes -> string;
  hex_DecodeString : string -> result bytes;
  (* strconv.FormatUint(uint64(status), 10) *)
  strconv_FormatUint : BillingStatusT -> string;
  (* package util *)
  util_Digest : bytes -> bytes;
  util_VerifySignature : string -> string -> string -> option error;
  util_TokenRegexp : string;
  (* helpers of package pi declared in other files *)
  tokenDecode : string -> result bytes;
  voteMetadataDecode : list File -> result (option VoteMetadata);
  (* constants: pi.PluginID, store.DataTypeStructure,
     ticketvote.FileNameVoteMetadata, and the capacity of the cache *)
  PluginID : string;
  DataTypeStructure : string;
  FileNameVoteMetadata : string;
  piCacheLimit : Z
}.

(** The backend, the key-value store and the identity of the server,
    which the plugin reaches through interfaces.  [Tstore] is the state
    behind them; only [BlobSave] changes it, and it may fail. *)
Class Backend : Type := {
  Tstore : Type;
  BlobSave : Tstore -> option bytes -> store.BlobEntry -> Tstore * option error;
  BlobsByDataDesc :
    Tstore -> option bytes -> list string -> result (list store.BlobEntry);
  Records : Tstore -> list RecordRequest -> result (gmap string Record_);
  voteSummary : Tstore -> option bytes -> result ticketvote.SummaryReply;
  SignMessage : bytes -> bytes
}.

(* ================================================================== *)
(** ** The blob codec *)
(* ================================================================== *)

Section Codec.
Context {lib : Library}.

Definition pluginID : string := PluginID.

Definition dataDescriptorBillingStatus : string :=
  String.append pluginID "-billingstatus-v1".

(** Modelled from the spec: [store.NewBlobEntry] is not among the
    sources.  "a storage entry whose payload digest is computed over
    the serialized change bytes"; the hint and the data are kept in
    base64 and the digest in hex, which is what [billingStatusDecode]
    reads. *)
Definition NewBlobEntry (dataHint data : bytes) : store.BlobEntry :=
  {| store.Digest := hex_EncodeToString (util_Digest data);
     store.DataHint := base64_EncodeToString dataHint;
     store.Data := base64_EncodeToString data |}.

Definition billingStatusEncode (bsc : BillingStatusChange)
  : result store.BlobEntry :=
  do data <- json_Marshal_BillingStatusChange bsc;
  do hint <- json_Marshal_DataDescriptor
               {| store.Type_ := DataTypeStructure;
                  store.Descriptor := dataDescriptorBillingStatus |};
  Ok (NewBlobEntry hint data).

(** [fmt.Errorf(format, err)] around the error of a library call. *)
Definition wrap {A : Type} (format : string) (r : result A) : result A :=
  match r with
  | Ok a => Ok a
  | Err e => Err (Errorf (Sprintf format [ArgError e]))
  end.

Definition billingStatusDecode (be : store.BlobEntry)
  : result BillingStatusChange :=
  do b <- wrap "decode DataHint: %v" (base64_DecodeString (store.DataHint be));
  do dd <- wrap "unmarshal DataHint: %v" (json_Unmarshal_DataDescriptor b);
  if negb (String.eqb (store.Descriptor dd) dataDescriptorBillingStatus) then
    Err (Errorf (Sprintf "unexpected data descriptor: got %v, want %v"
           [ArgString (store.Descriptor dd);
            ArgString dataDescriptorBillingStatus]))
  else
  do b <- wrap "decode Data: %v" (base64_DecodeString (store.Data be));
  do digest <- wrap "decode digest: %v" (hex_DecodeString (store.Digest be));
  if negb (bool_decide (util_Digest b = digest)) then
    Err (Errorf (Sprintf "data is not coherent; got %x, want %x"
           [ArgBytes (util_Digest b); ArgBytes digest]))
  else
  do bsc <- wrap "unmarshal AuthDetails: %v"
              (json_Unmarshal_BillingStatusChange b);
  Ok bsc.

End Codec.

(* ================================================================== *)
(** ** The memory cache *)
(* ================================================================== *)

(** Modelled from the spec: the data cached for a token, "at most
    one of a cached proposal status and a cached vote status" (the
    struct is declared in a file that is not among the sources).  A
    nil pointer field is [None]. *)
Record cacheData : Type := {
  proposalStatus_ : option PropStatusT;
  voteStatus_ : option VoteStatusT
}.

(** Modelled from the spec: [p.cache], a "mapping from token to cache
    entry plus an insertion-order sequence": the map [data] and the
    list [entries], oldest entry at the front. *)
Record Cache : Type := {
  data : gmap string cacheData;
  entries : list string
}.

Definition emptyCache : Cache := {| data := ∅; entries := [] |}.

Section CacheOps.
Context {lib : Library}.

Definition cacheDataGet (c : Cache) (token : string) : option cacheData :=
  data c !! token.

(** [None] is a run-time panic: [entries.Remove(entries.Front())] on an
    empty list dereferences the nil element. *)
Definition cacheVoteStatusSet
  (c : Cache) (token : string) (status : VoteStatusT) : option Cache :=
  match data c !! token with
  | Some d =>
      Some {| data := <[token := {| proposalStatus_ := proposalStatus_ d;
                                    voteStatus_ := Some status |}]> (data c);
              entries := entries c |}
  | None =>
      let removed :=
        if (Z.of_nat (length (entries c)) =? piCacheLimit)%Z then
          match entries c with
          | [] => None
          | t :: rest => Some {| data := delete t (data c); entries := rest |}
          end
        else Some c in
      match removed with
      | None => None
      | Some c' =>
          Some {| data := <[token := {| proposalStatus_ := None;
                                        voteStatus_ := Some status |}]> (data c');
                  entries := entries c' ++ [token] |}
      end
  end.

Definition cacheProposalStatusSet
  (c : Cache) (token : string) (status : PropStatusT) : option Cache :=
  match data c !! token with
  | Some d =>
      Some {| data := <[token := {| proposalStatus_ := Some status;
                                    voteStatus_ := voteStatus_ d |}]> (data c);
              entries := entries c |}
  | None =>
      let removed :=
        if (Z.of_nat (length (entries c)) =? piCacheLimit)%Z then
          match entries c with
          | [] => None
          | t :: rest => Some {| data := delete t (data c); entries := rest |}
          end
        else Some c in
      match removed with
      | None => None
      | Some c' =>
          Some {| data := <[token := {| proposalStatus_ := Some status;
                                        voteStatus_ := None |}]> (data c');
                  entries := entries c' ++ [token] |}
      end
  end.

(** The operations a client of the cache can issue, and a run of a
    sequence of them. *)
Inductive cacheOp : Type :=
| OpGet (token : string)
| OpVoteStatusSet (token : string) (status : VoteStatusT)
| OpProposalStatusSet (token : string) (status : PropStatusT).

Definition cacheStep (c : Cache) (op : cacheOp) : option Cache :=
  match op with
  | OpGet _ => Some c
  | OpVoteStatusSet token status => cacheVoteStatusSet c token status
  | OpProposalStatusSet token status => cacheProposalStatusSet c token status
  end.

Fixpoint cacheRun (c : Cache) (ops : list cacheOp) : option Cache :=
  match ops with
  | [] => Some c
  | op :: ops' =>
      match cacheStep c op with
      | None => None
      | Some c' => cacheRun c' ops'
      end
  end.

(** The tokens that a sequence of operations sets, in order. *)
Fixpoint setTokens (ops : list cacheOp) : list string :=
  match ops with
  | [] => []
  | OpGet _ :: ops' => setTokens ops'
  | OpVoteStatusSet token _ :: ops' => token :: setTokens ops'
  | OpProposalStatusSet token _ :: ops' => token :: setTokens ops'
  end.

End CacheOps.

(* ================================================================== *)
(** ** The plugin and its commands *)
(* ================================================================== *)

(** Modelled from the spec: the fields of [piPlugin] that the commands
    read or write (the struct is declared in a file that is not among
    the sources).  The backend, the store client and the identity are
    the operations of [Backend] over the state [tstore]. *)
Record piPlugin {bk : Backend} : Type := {
  tstore : Tstore;
  billingStatusChangesMax : Z;
  cache : Cache
}.

(** Conversion to [uint32]. *)
Definition uint32 (z : Z) : Z := (z mod 2 ^ 32)%Z.

Section Commands.
Context {lib : Library} {bk : Backend}.

(** A command step: it reads and writes the plugin, and returns a
    value or an error; [None] is a run-time panic. *)
Definition M (A : Type) : Type := piPlugin -> option (piPlugin * result A).

Definition ret {A : Type} (a : A) : M A := fun p => Some (p, Ok a).
Definition fail {A : Type} (e : error) : M A := fun p => Some (p, Err e).
Definition lift {A : Type} (r : result A) : M A := fun p => Some (p, r).
Definition read {A : Type} (f : piPlugin -> result A) : M A :=
  fun p => Some (p, f p).
Definition bindM {A B : Type} (m : M A) (k : A -> M B) : M B :=
  fun p =>
    match m p with
    | None => None
    | Some (p', Ok a) => k a p'
    | Some (p', Err e) => Some (p', Err e)
    end.

Notation "'exec' x <- m ; k" := (bindM m (fun x => k))
  (at level 10, x name, m at level 100, k at level 200,
   format "'[v' 'exec'  x  <-  m ; '/' k ']'").

Definition tokenMatches (cmdToken : option bytes) (payloadToken : string)
  : result unit :=
  match tokenDecode payloadToken with
  | Err _ => Err (PluginError ErrorCodeTokenInvalid (Text util_TokenRegexp))
  | Ok pt =>
      if negb (bool_decide (slice_bytes cmdToken = pt)) then
        Err (PluginError ErrorCodeTokenInvalid
               (Sprintf "payload token does not match command token: got %x, want %x"
                  [ArgBytes pt; ArgBytes (slice_bytes cmdToken)]))
      else Ok tt
  end.

Definition convertSignatureError (err : error) : error :=
  match err with
  | SignatureError code ctx =>
      PluginError
        match code with
        | ErrorStatusPublicKeyInvalid => ErrorCodePublicKeyInvalid
        | ErrorStatusSignatureInvalid => ErrorCodeSignatureInvalid
        | ErrorStatusOther _ => ErrorCodeInvalid
        end
        (Text ctx)
  | _ => PluginError ErrorCodeInvalid (Text "")
  end.

Definition record (p : piPlugin) (rr : RecordRequest) : result Record_ :=
  match rr_Token rr with
  | None => Err (Errorf (Text "token not provided"))
  | Some token =>
      do reply <- Records (tstore p) [rr];
      match reply !! hex_EncodeToString token with
      | None => Err ErrRecordNotFound
      | Some r => Ok r
      end
  end.

(** [sort.SliceStable] by ascending timestamp: an element goes behind
    the elements that are not later than it. *)
Fixpoint insertByTimestamp
  (c : BillingStatusChange) (l : list BillingStatusChange)
  : list BillingStatusChange :=
  match l with
  | [] => [c]
  | d :: l' =>
      if (Timestamp c <? Timestamp d)%Z then c :: d :: l'
      else d :: insertByTimestamp c l'
  end.

Definition sortByTimestamp (l : list BillingStatusChange)
  : list BillingStatusChange :=
  fold_left (fun acc c => insertByTimestamp c acc) l [].

Fixpoint billingStatusDecodeAll (blobs : list store.BlobEntry)
  : result (list BillingStatusChange) :=
  match blobs with
  | [] => Ok []
  | v :: blobs' =>
      do a <- billingStatusDecode v;
      do rest <- billingStatusDecodeAll blobs';
      Ok (a :: rest)
  end.

(** The method [billingStatusChanges] of the plugin (the transition
    table has the same name in Go). *)
Definition piPlugin_billingStatusChanges
  (p : piPlugin) (token : option bytes) : result (list BillingStatusChange) :=
  do blobs <- BlobsByDataDesc (tstore p) token [dataDescriptorBillingStatus];
  do statusChanges <- billingStatusDecodeAll blobs;
  Ok (sortByTimestamp statusChanges).

(** [billingStatusSave] saves a BillingStatusChange to the backend: the
    only step of a command that writes the store. *)
Definition billingStatusSave
  (token : option bytes) (bsc : BillingStatusChange) : M unit :=
  fun p =>
    match billingStatusEncode bsc with
    | Err e => Some (p, Err e)
    | Ok be =>
        let '(ts, err) := BlobSave (tstore p) token be in
        let p' := {| tstore := ts;
                     billingStatusChangesMax := billingStatusChangesMax p;
                     cache := cache p |} in
        match err with
        | Some e => Some (p', Err e)
        | None => Some (p', Ok tt)
        end
    end.

(** [cmdSetBillingStatus] sets proposal's billing status.  [now] is
    what [time.Now().Unix()] returns in this call. *)
Definition cmdSetBillingStatus
  (now : Z) (token : option bytes) (payload : string) : M string :=
  (* Decode payload *)
  exec sbs <- lift (json_Unmarshal_SetBillingStatus (list_byte_of_string payload));
  (* Verify token *)
  exec _ <- lift (tokenMatches token (sbs_Token sbs));
  (* Verify billing status *)
  exec _ <- match sbs_Status sbs with
            | BillingStatusActive | BillingStatusClosed
            | BillingStatusCompleted => ret tt
            | _ => fail (PluginError ErrorCodeBillingStatusInvalid
                           (Text "invalid billing status"))
            end;
  (* Verify signature *)
  let msg := String.append (sbs_Token sbs)
               (String.append (strconv_FormatUint (sbs_Status sbs))
                  (sbs_Reason sbs)) in
  exec _ <- match util_VerifySignature (sbs_Signature sbs)
                    (sbs_PublicKey sbs) msg with
            | Some err => fail (convertSignatureError err)
            | None => ret tt
            end;
  (* Ensure reason is provided when status is set to closed. *)
  exec _ <- (if bool_decide (sbs_Status sbs = BillingStatusClosed)
                && String.eqb (sbs_Reason sbs) ""
             then fail (PluginError ErrorCodeBillingStatusChangeNotAllowed
                          (Text "must provide a reason when setting billing status to closed"))
             else ret tt);
  (* Ensure proposal's vote ended and it was approved *)
  exec vsr <- read (fun p => voteSummary (tstore p) token);
  exec _ <- (if bool_decide (ticketvote.Status vsr <> VoteStatusApproved)
             then fail (PluginError ErrorCodeBillingStatusChangeNotAllowed
                          (Text "setting billing status is allowed only if proposal vote was approved"))
             else ret tt);
  (* Ensure that this is not an RFP proposal. *)
  exec r <- read (fun p => record p
              {| rr_Token := token;
                 Filenames := [FileNameVoteMetadata];
                 OmitAllFiles := false |});
  exec vm <- lift (voteMetadataDecode (Files r));
  exec _ <- (if isRFP vm
             then fail (PluginError ErrorCodeBillingStatusChangeNotAllowed
                          (Text "rfp proposals do not have a billing status"))
             else ret tt);
  (* Ensure number of billing status changes does not exceed the maximum *)
  exec bscs <- read (fun p => piPlugin_billingStatusChanges p token);
  exec _ <- (fun p =>
             if (billingStatusChangesMax p
                   <? uint32 (Z.of_nat (length bscs) + 1))%Z
             then fail (PluginError ErrorCodeBillingStatusChangeNotAllowed
                          (Text "number of billing status changes exceeds the maximum allowed number of billing status changes")) p
             else ret tt p);
  (* Ensure billing status change transition is valid *)
  let currStatus := proposalBillingStatus (ticketvote.Status vsr) bscs in
  exec _ <- (if negb (billingStatusChangeAllowed currStatus (sbs_Status sbs))
             then fail (PluginError ErrorCodeBillingStatusChangeNotAllowed
                          (Sprintf "invalid billing status transition, %v to %v is not allowed"
                             [ArgBillingStatusName currStatus;
                              ArgBillingStatusName (sbs_Status sbs)]))
             else ret tt);
  (* Save billing status change *)
  let receipt := SignMessage (list_byte_of_string (sbs_Signature sbs)) in
  let bsc := {| Token := sbs_Token sbs;
                Status := sbs_Status sbs;
                Reason := sbs_Reason sbs;
                PublicKey := sbs_PublicKey sbs;
                Signature := sbs_Signature sbs;
                Timestamp := now;
                Receipt := hex_EncodeToString receipt |} in
  exec _ <- billingStatusSave token bsc;
  (* Prepare reply *)
  let sbsr := {| sbsr_Timestamp := Timestamp bsc;
                 sbsr_Receipt := Receipt bsc |} in
  exec reply <- lift (json_Marshal_SetBillingStatusReply sbsr);
  ret (string_of_list_byte reply).

Definition cmdBillingStatusChanges (token : option bytes) : M string :=
  exec bscs <- read (fun p => piPlugin_billingStatusChanges p token);
  let bscsr := {| BillingStatusChanges := bscs |} in
  exec reply <- lift (json_Marshal_BillingStatusChangesReply bscsr);
  ret (string_of_list_byte reply).

(** A write of the cache; a panic of the cache operation is a panic
    of the command. *)
Definition writeCache (f : Cache -> option Cache) : M unit :=
  fun p =>
    match f (cache p) with
    | None => None
    | Some c =>
        Some ({| tstore := tstore p;
                 billingStatusChangesMax := billingStatusChangesMax p;
                 cache := c |}, Ok tt)
    end.

(** The label [reply] of [cmdSummary]. *)
Definition summaryReply (s : PropStatusT) : M string :=
  let sr := {| Summary := {| ps_Status := s |} |} in
  exec reply <- lift (json_Marshal_SummaryReply sr);
  ret (string_of_list_byte reply).

(** The block of [cmdSummary] that fetches the vote status and the
    billing status changes when they are needed to determine the
    proposal status; the vote status starts as Invalid and the
    changes as the nil slice. *)
Definition summaryFetch
  (token : option bytes) (mdState : StateT) (mdStatus : StatusT)
  : M (VoteStatusT * list BillingStatusChange) :=
  if bool_decide (mdState = StateVetted) then
    (* If proposal status is public fetch vote status. *)
    if bool_decide (mdStatus = StatusPublic) then
      exec vs <- read (fun p => voteSummary (tstore p) token);
      let voteStatus := ticketvote.Status vs in
      (* If vote status is approved fetch billing status change. *)
      if bool_decide (voteStatus = VoteStatusApproved) then
        exec bscs <- read (fun p => piPlugin_billingStatusChanges p token);
        ret (voteStatus, bscs)
      else ret (voteStatus, [])
    else ret (VoteStatusInvalid, [])
  else ret (VoteStatusInvalid, []).

(** The part of [cmdSummary] below the cache lookups: the record is
    read, and the status is derived and cached by its kind. *)
Definition summaryFromRecord (token : option bytes) (tokenStr : string)
  : M string :=
  exec r <- read (fun p => record p
              {| rr_Token := token;
                 Filenames := [FileNameVoteMetadata];
                 OmitAllFiles := false |});
  let mdState := State (RecordMetadata_ r) in
  let mdStatus := rm_Status (RecordMetadata_ r) in
  (* Pull the vote metadata out of the record files. *)
  exec voteMD <- lift (voteMetadataDecode (Files r));
  exec fetched <- summaryFetch token mdState mdStatus;
  let voteStatus := fst fetched in
  let bscs := snd fetched in
  (* Determine the proposal status *)
  exec s <- lift (proposalStatus mdState mdStatus voteStatus voteMD bscs);
  exec _ <- match s with
            (* If proposal status won't change in the future cache it *)
            | PropStatusUnvettedAbandoned | PropStatusUnvettedCensored
            | PropStatusAbandoned | PropStatusCensored | PropStatusApproved
            | PropStatusRejected =>
                writeCache (fun c => cacheProposalStatusSet c tokenStr s)
            (* active, completed or closed: cache the vote status *)
            | PropStatusActive | PropStatusCompleted | PropStatusClosed =>
                writeCache (fun c => cacheVoteStatusSet c tokenStr voteStatus)
            | _ => ret tt
            end;
  summaryReply s.

(** [cmdSummary] returns the pi summary of a proposal.  The two jumps
    to the label [reply] are the two calls of [summaryReply]. *)
Definition cmdSummary (token : option bytes) : M string :=
  fun p =>
    let tokenStr := hex_EncodeToString (slice_bytes token) in
    let d := cacheDataGet (cache p) tokenStr in
    match d with
    | Some {| proposalStatus_ := Some s |} =>
        (* proposal status is cached: jump to reply *)
        summaryReply s p
    | Some {| proposalStatus_ := None; voteStatus_ := Some _ |} =>
        (exec bscs <- read (fun p => piPlugin_billingStatusChanges p token);
         exec s <- lift (proposalStatusApproved None bscs);
         summaryReply s) p
    | _ => summaryFromRecord token tokenStr p
    end.

End Commands.

(* ================================================================== *)
(** ** Vocabulary of the properties *)
(* ================================================================== *)

Section CodecVocabulary.
Context {lib : Library}.

(** The descriptor that [billingStatusEncode] writes into the hint. *)
Definition billingStatusDescriptor : store.DataDescriptor :=
  {| store.Type_ := DataTypeStructure;
     store.Descriptor := dataDescriptorBillingStatus |}.

(** A blob whose hint names the billing status descriptor. *)
Definition hintAccepted (be : store.BlobEntry) : Prop :=
  exists (b : bytes) (dd : store.DataDescriptor),
    base64_DecodeString (store.DataHint be) = Ok b
    /\ json_Unmarshal_DataDescriptor b = Ok dd
    /\ store.Descriptor dd = dataDescriptorBillingStatus.

End CodecVocabulary.

Section CacheVocabulary.
Context {lib : Library}.

(** Both set operations are one insertion discipline; they differ in
    the field of the cached data that they write. *)
Definition cacheSet (upd : option cacheData -> cacheData)
  (c : Cache) (token : string) : option Cache :=
  match data c !! token with
  | Some d =>
      Some {| data := <[token := upd (Some d)]> (data c);
              entries := entries c |}
  | None =>
      match
        (if (Z.of_nat (length (entries c)) =? piCacheLimit)%Z then
           match entries c with
           | [] => None
           | t :: rest => Some {| data := delete t (data c); entries := rest |}
           end
         else Some c)
      with
      | None => None
      | Some c' =>
          Some {| data := <[token := upd None]> (data c');
                  entries := entries c' ++ [token] |}
      end
  end.

Definition withVoteStatus (status : VoteStatusT) (d : option cacheData)
  : cacheData :=
  {| proposalStatus_ := d ≫= proposalStatus_; voteStatus_ := Some status |}.

Definition withProposalStatus (status : PropStatusT) (d : option cacheData)
  : cacheData :=
  {| proposalStatus_ := Some status; voteStatus_ := d ≫= voteStatus_ |}.

(** The map holds exactly the tokens of the list, once each, and the
    list is not longer than the capacity. *)
Definition cacheInv (c : Cache) : Prop :=
  NoDup (entries c)
  /\ (forall t : string, is_Some (data c !! t) <-> t ∈ entries c)
  /\ (Z.of_nat (length (entries c)) <= piCacheLimit)%Z.

End CacheVocabulary.

Section CommandVocabulary.
Context {lib : Library} {bk : Backend}.

(** The request for the vote metadata file of a record. *)
Definition voteMetadataRequest (token : option bytes) : RecordRequest :=
  {| rr_Token := token;
     Filenames := [FileNameVoteMetadata];
     OmitAllFiles := false |}.

(** The billing status change that a payload asks for, as
    [cmdSetBillingStatus] builds it. *)
Definition billingStatusChangeOf (now : Z) (sbs : SetBillingStatus)
  : BillingStatusChange :=
  {| Token := sbs_Token sbs;
     Status := sbs_Status sbs;
     Reason := sbs_Reason sbs;
     PublicKey := sbs_PublicKey sbs;
     Signature := sbs_Signature sbs;
     Timestamp := now;
     Receipt := hex_EncodeToString
                  (SignMessage (list_byte_of_string (sbs_Signature sbs))) |}.

(** The message that the signature of a payload signs. *)
Definition signedMessage (sbs : SetBillingStatus) : string :=
  String.append (sbs_Token sbs)
    (String.append (strconv_FormatUint (sbs_Status sbs)) (sbs_Reason sbs)).

Definition notAllowed (context : message) : error :=
  PluginError ErrorCodeBillingStatusChangeNotAllowed context.

(** The three kinds of proposal status. *)
Definition terminalStatuses : list PropStatusT :=
  [PropStatusUnvettedAbandoned; PropStatusUnvettedCensored;
   PropStatusAbandoned; PropStatusCensored; PropStatusApproved;
   PropStatusRejected].

Definition quasiTerminalStatuses : list PropStatusT :=
  [PropStatusActive; PropStatusCompleted; PropStatusClosed].

Definition transientStatuses : list PropStatusT :=
  [PropStatusUnvetted; PropStatusUnderReview; PropStatusVoteAuthorized;
   PropStatusVoteStarted].

(** The reply of the summary command for a status. *)
Definition summaryJSON (s : PropStatusT) : result string :=
  do reply <- json_Marshal_SummaryReply {| Summary := {| ps_Status := s |} |};
  Ok (string_of_list_byte reply).

(** The plugin with another cache. *)
Definition withCache (p : piPlugin) (c : Cache) : piPlugin :=
  {| tstore := tstore p;
     billingStatusChangesMax := billingStatusChangesMax p;
     cache := c |}.

End CommandVocabulary.

(* ================================================================== *)
(** ** An instance of the collaborators, to run the commands *)
(* ================================================================== *)

(** A small implementation of [Library] and [Backend]: hex and base64
    as Go encodes them, a digest that is the sum of the bytes, a
    table-driven JSON codec that knows the values of the examples, a
    store that keeps the saved blobs in a list, and one vetted, public
    and approved record. *)
Module Demo.

Fixpoint indexOf (a : ascii) (l : list ascii) (i : N) : option N :=
  match l with
  | [] => None
  | b :: l' => if Ascii.eqb a b then Some i else indexOf a l' (i + 1)%N
  end.

Definition hexDigits : list ascii := list_ascii_of_string "0123456789abcdef".

Definition hexEncode (b : bytes) : string :=
  string_of_list_ascii
    (flat_map (fun x => let n := Byte.to_N x in
                        [nth (N.to_nat (n / 16)) hexDigits "0"%char;
                         nth (N.to_nat (n mod 16)) hexDigits "0"%char]) b).

Fixpoint hexDecodeList (l : list ascii) : option bytes :=
  match l with
  | [] => Some []
  | hi :: lo :: rest =>
      match indexOf hi hexDigits 0, indexOf lo hexDigits 0,
            hexDecodeList rest with
      | Some h, Some l, Some r =>
          match Byte.of_N (16 * h + l) with
          | Some x => Some (x :: r)
          | None => None
          end
      | _, _, _ => None
      end
  | _ => None
  end.

Definition hexDecode (s : string) : result bytes :=
  match hexDecodeList (list_ascii_of_string s) with
  | Some b => Ok b
  | None => Err (ExternalError "encoding/hex" "invalid byte")
  end.

Definition b64Digits : list ascii :=
  list_ascii_of_string
    "ABCDEFGHIJKLMNOPQRSTUVWXYZabcdefghijklmnopqrstuvwxyz0123456789+/".

Definition b64Char (n : N) : ascii := nth (N.to_nat n) b64Digits "="%char.

Fixpoint b64EncodeList (b : list N) : list ascii :=
  match b with
  | [] => []
  | [x] => [b64Char (x / 4); b64Char ((x mod 4) * 16); "="; "="]%char
  | [x; y] =>
      [b64Char (x / 4); b64Char ((x mod 4) * 16 + y / 16);
       b64Char ((y mod 16) * 4); "="%char]
  | x :: y :: z :: rest =>
      b64Char (x / 4) :: b64Char ((x mod 4) * 16 + y / 16)
        :: b64Char ((y mod 16) * 4 + z / 64) :: b64Char (z mod 64)
        :: b64EncodeList rest
  end%N.

Definition b64Encode (b : bytes) : string :=
  string_of_list_ascii (b64EncodeList (map Byte.to_N b)).

Fixpoint b64DecodeList (l : list ascii) : option (list N) :=
  match l with
  | [] => Some []
  | a :: b :: c :: d :: rest =>
      match indexOf a b64Digits 0, indexOf b b64Digits 0 with
      | Some va, Some vb =>
          match indexOf c b64Digits 0, indexOf d b64Digits 0, rest with
          | Some vc, Some vd, _ =>
              match b64DecodeList rest with
              | Some r =>
                  Some (va * 4 + vb / 16 :: (vb mod 16) * 16 + vc / 4
                          :: (vc mod 4) * 64 + vd :: r)
              | None => None
              end
          | Some vc, None, [] =>
              if Ascii.eqb d "=" then
                Some [va * 4 + vb / 16; (vb mod 16) * 16 + vc / 4]
              else None
          | None, None, [] =>
              if Ascii.eqb c "=" && Ascii.eqb d "=" then
                Some [va * 4 + vb / 16]
              else None
          | _, _, _ => None
          end
      | _, _ => None
      end
  | _ => None
  end%N.

Fixpoint bytesOfNs (l : list N) : option bytes :=
  match l with
  | [] => Some []
  | n :: l' =>
      match Byte.of_N n, bytesOfNs l' with
      | Some x, Some r => Some (x :: r)
      | _, _ => None
      end
  end.

Definition b64Decode (s : string) : result bytes :=
  match b64DecodeList (list_ascii_of_string s) with
  | Some ns =>
      match bytesOfNs ns with
      | Some b => Ok b
      | None => Err (ExternalError "encoding/base64" "illegal base64 data")
      end
  | None => Err (ExternalError "encoding/base64" "illegal base64 data")
  end.

(** A stand-in for SHA-256: the sum of the bytes, in two bytes. *)
Definition digest (b : bytes) : bytes :=
  let n := fold_right (fun x acc => (Byte.to_N x + acc)%N) 0%N b in
  match Byte.of_N ((n / 256) mod 256), Byte.of_N (n mod 256) with
  | Some hi, Some lo => [hi; lo]
  | _, _ => []
  end.

Definition statusName (bs : BillingStatusT) : string :=
  match bs with
  | BillingStatusInvalid => "0"
  | BillingStatusActive => "1"
  | BillingStatusClosed => "2"
  | BillingStatusCompleted => "3"
  | BillingStatusOther _ => "?"
  end.

Definition propStatusName (s : PropStatusT) : string :=
  match s with
  | PropStatusInvalid => "invalid"
  | PropStatusUnvetted => "unvetted"
  | PropStatusUnvettedAbandoned => "unvetted-abandoned"
  | PropStatusUnvettedCensored => "unvetted-censored"
  | PropStatusUnderReview => "under-review"
  | PropStatusAbandoned => "abandoned"
  | PropStatusCensored => "censored"
  | PropStatusVoteAuthorized => "vote-authorized"
  | PropStatusVoteStarted => "vote-started"
  | PropStatusApproved => "approved"
  | PropStatusRejected => "rejected"
  | PropStatusActive => "active"
  | PropStatusCompleted => "completed"
  | PropStatusClosed => "closed"
  end.

(** The token of the record of the examples, and its hex form. *)
Definition token : bytes := [x45; x15; x4f; xb4]%byte.
Definition tokenHex : string := "45154fb4".

(** The payloads of the examples: close with a reason, close without
    one, and set to active. *)
Definition closeDone : SetBillingStatus :=
  {| sbs_Token := tokenHex; sbs_Status := BillingStatusClosed;
     sbs_Reason := "done"; sbs_PublicKey := "pk"; sbs_Signature := "sig" |}.

Definition closeNoReason : SetBillingStatus :=
  {| sbs_Token := tokenHex; sbs_Status := BillingStatusClosed;
     sbs_Reason := ""; sbs_PublicKey := "pk"; sbs_Signature := "sig" |}.

Definition setActive : SetBillingStatus :=
  {| sbs_Token := tokenHex; sbs_Status := BillingStatusActive;
     sbs_Reason := ""; sbs_PublicKey := "pk"; sbs_Signature := "sig" |}.

Definition payloads : list (string * SetBillingStatus) :=
  [("close-done", closeDone); ("close-no-reason", closeNoReason);
   ("set-active", setActive)].

Fixpoint assoc {A B : Type} (eqb : A -> A -> bool) (k : A)
  (l : list (A * B)) : option B :=
  match l with
  | [] => None
  | (k', v) :: l' => if eqb k k' then Some v else assoc eqb k l'
  end.

Definition unmarshalSetBillingStatus (b : bytes) : result SetBillingStatus :=
  match assoc String.eqb (string_of_list_byte b) payloads with
  | Some sbs => Ok sbs
  | None => Err (ExternalError "encoding/json" "invalid character")
  end.

(** The change that [closeDone] makes at time 1630000000. *)
Definition closedChange : BillingStatusChange :=
  {| Token := tokenHex; Status := BillingStatusClosed; Reason := "done";
     PublicKey := "pk"; Signature := "sig"; Receipt := "736967";
     Timestamp := 1630000000 |}.

Definition marshalChange (c : BillingStatusChange) : result bytes :=
  Ok (list_byte_of_string
        (String.append (Token c)
           (String.append ":" (String.append (statusName (Status c))
              (String.append ":" (Reason c)))))).

Definition unmarshalChange (b : bytes) : result BillingStatusChange :=
  match assoc String.eqb (string_of_list_byte b)
          [("45154fb4:2:done", closedChange)] with
  | Some c => Ok c
  | None => Err (ExternalError "encoding/json" "invalid character")
  end.

Definition marshalDescriptor (dd : store.DataDescriptor) : result bytes :=
  Ok (list_byte_of_string
        (String.append (store.Type_ dd)
           (String.append ":" (store.Descriptor dd)))).

Definition unmarshalDescriptor (b : bytes) : result store.DataDescriptor :=
  match assoc String.eqb (string_of_list_byte b)
          [("struct:pi-billingstatus-v1",
            {| store.Type_ := "struct";
               store.Descriptor := "pi-billingstatus-v1" |});
           ("struct:comments-v1",
            {| store.Type_ := "struct";
               store.Descriptor := "comments-v1" |})] with
  | Some dd => Ok dd
  | None => Err (ExternalError "encoding/json" "invalid character")
  end.

Definition verifySignature (signature publicKey msg : string)
  : option error :=
  if String.eqb signature "sig" then None
  else Some (SignatureError ErrorStatusSignatureInvalid "invalid signature").

#[export] Instance library : Library := {|
  json_Unmarshal_SetBillingStatus := unmarshalSetBillingStatus;
  json_Marshal_SetBillingStatusReply :=
    fun r => Ok (list_byte_of_string (sbsr_Receipt r));
  json_Marshal_BillingStatusChangesReply :=
    fun r => Ok (list_byte_of_string
                   (String.concat ","
                      (map (fun c => statusName (Status c))
                         (BillingStatusChanges r))));
  json_Marshal_SummaryReply :=
    fun r => Ok (list_byte_of_string (propStatusName (ps_Status (Summary r))));
  json_Marshal_BillingStatusChange := marshalChange;
  json_Unmarshal_BillingStatusChange := unmarshalChange;
  json_Marshal_DataDescriptor := marshalDescriptor;
  json_Unmarshal_DataDescriptor := unmarshalDescriptor;
  base64_EncodeToString := b64Encode;
  base64_DecodeString := b64Decode;
  hex_EncodeToString := hexEncode;
  hex_DecodeString := hexDecode;
  strconv_FormatUint := statusName;
  util_Digest := digest;
  util_VerifySignature := verifySignature;
  util_TokenRegexp := "^[0-9a-f]{8}$";
  tokenDecode := hexDecode;
  voteMetadataDecode := fun _ => Ok None;
  PluginID := "pi";
  DataTypeStructure := "struct";
  FileNameVoteMetadata := "votemetadata.json";
  piCacheLimit := 2
|}.

Definition theRecord : Record_ :=
  {| RecordMetadata_ := {| State := StateVetted; rm_Status := StatusPublic |};
     Files := [] |}.

#[export] Instance backend : Backend := {|
  Tstore := list (bytes * store.BlobEntry);
  BlobSave := fun ts tok be => (ts ++ [(slice_bytes tok, be)], None);
  BlobsByDataDesc := fun ts tok _ =>
    Ok (map snd (filter (fun x => bool_decide (fst x = slice_bytes tok)) ts));
  Records := fun _ _ => Ok (<[tokenHex := theRecord]> ∅);
  voteSummary := fun _ _ => Ok {| ticketvote.Status := VoteStatusApproved |};
  SignMessage := fun b => b
|}.

(** A plugin with nothing saved, nothing cached, and at most two
    billing status changes for a record. *)
Definition plugin : piPlugin :=
  {| tstore := []; billingStatusChangesMax := 2; cache := emptyCache |}.

(** The blob of [closedChange], and the plugin that has saved it. *)
Definition closedBlob : store.BlobEntry :=
  {| store.Digest := "044b";
     store.DataHint := "c3RydWN0OnBpLWJpbGxpbmdzdGF0dXMtdjE=";
     store.Data := "NDUxNTRmYjQ6Mjpkb25l" |}.

Definition pluginClosed : piPlugin :=
  {| tstore := [(token, closedBlob)];
     billingStatusChangesMax := 2;
     cache := emptyCache |}.


End Demo.

(* ================================================================== *)
(** ** Vocabulary of the further properties *)
(* ================================================================== *)

(** A change that is not later than another one. *)
Definition notLater (a b : BillingStatusChange) : Prop :=
  (Timestamp a <= Timestamp b)%Z.

Section CommandVocabulary2.
Context {lib : Library} {bk : Backend}.

(** The plugin with another state of the store. *)
Definition withTstore (p : piPlugin) (ts : Tstore) : piPlugin :=
  {| tstore := ts;
     billingStatusChangesMax := billingStatusChangesMax p;
     cache := cache p |}.

(** Every check of [cmdSetBillingStatus] passes: the payload decodes
    to [sbs], the vote summary is [vsr], the record is [r], its vote
    metadata is [vm] and the billing status changes are [bscs]. *)
Definition setBillingStatusChecked
  (token : option bytes) (payload : string) (p : piPlugin)
  (sbs : SetBillingStatus) (vsr : ticketvote.SummaryReply) (r : Record_)
  (vm : option VoteMetadata) (bscs : list BillingStatusChange) : Prop :=
  json_Unmarshal_SetBillingStatus (list_byte_of_string payload) = Ok sbs
  /\ tokenMatches token (sbs_Token sbs) = Ok tt
  /\ In (sbs_Status sbs)
        [BillingStatusActive; BillingStatusClosed; BillingStatusCompleted]
  /\ util_VerifySignature (sbs_Signature sbs) (sbs_PublicKey sbs)
       (signedMessage sbs) = None
  /\ (sbs_Status sbs <> BillingStatusClosed \/ sbs_Reason sbs <> "")
  /\ voteSummary (tstore p) token = Ok vsr
  /\ ticketvote.Status vsr = VoteStatusApproved
  /\ record p (voteMetadataRequest token) = Ok r
  /\ voteMetadataDecode (Files r) = Ok vm
  /\ isRFP vm = false
  /\ piPlugin_billingStatusChanges p token = Ok bscs
  /\ (uint32 (Z.of_nat (length bscs) + 1) <= billingStatusChangesMax p)%Z
  /\ billingStatusChangeAllowed
       (proposalBillingStatus VoteStatusApproved bscs) (sbs_Status sbs) = true.

End CommandVocabulary2.

Section CacheVocabulary2.
Context {lib : Library}.

(** What the summary command caches: a proposal status that is
    terminal, and a vote status that is Approved. *)
Definition cacheContentOk (c : Cache) : Prop :=
  forall (t : string) (d : cacheData),
    cacheDataGet c t = Some d ->
    (forall s, proposalStatus_ d = Some s -> In s terminalStatuses)
    /\ (forall v, voteStatus_ d = Some v -> v = VoteStatusApproved).

End CacheVocabulary2.

(* ================================================================== *)
(** ** The status changes of a record (cmds.go) *)
(* ================================================================== *)

(** Modelled from the spec: a metadata stream of a record, with the
    fields that cmds.go reads (the declaration of
    [backend.MetadataStream] is not among the sources). *)
Record MetadataStream : Type := {
  ms_PluginID : string;
  ms_StreamID : Z;
  ms_Payload : string
}.

(** Package usermd and the JSON decoder of a stream of status changes,
    neither of which is among the sources.  A status change is known
    by its reason only.  [json_Decoder_StatusChangeMetadata payload]
    lists what the calls of [Decode] on a new decoder over [payload]
    return, one after the other, before [io.EOF]. *)
Class Usermd : Type := {
  StatusChangeMetadata : Type;
  scm_Reason : StatusChangeMetadata -> string;
  usermd_PluginID : string;
  StreamIDStatusChanges : Z;
  json_Decoder_StatusChangeMetadata :
    string -> list (result StatusChangeMetadata)
}.

Section StatusChanges.
Context {lib : Library} {bk : Backend} {um : Usermd}.

(** [recordAbridged] returns a record with all files omitted. *)
Definition recordAbridged (p : piPlugin) (token : option bytes)
  : result Record_ :=
  record p {| rr_Token := token; Filenames := []; OmitAllFiles := true |}.

(** The inner loop of [statusChangesDecode]: decode until [io.EOF]. *)
Fixpoint statusChangesDecodeStream
  (outcomes : list (result StatusChangeMetadata))
  (statuses : list StatusChangeMetadata)
  : result (list StatusChangeMetadata) :=
  match outcomes with
  | [] => Ok statuses
  | Ok sc :: outcomes' => statusChangesDecodeStream outcomes' (statuses ++ [sc])
  | Err e :: _ => Err e
  end.

Fixpoint statusChangesDecode (metadata : list MetadataStream)
  : result (list StatusChangeMetadata) :=
  match metadata with
  | [] => Ok []
  | v :: metadata' =>
      if negb (String.eqb (ms_PluginID v) usermd_PluginID)
         || negb (ms_StreamID v =? StreamIDStatusChanges)%Z
      then (* Not the mdstream we're looking for *)
        statusChangesDecode metadata'
      else
        statusChangesDecodeStream
          (json_Decoder_StatusChangeMetadata (ms_Payload v)) []
  end.

(** [lastStatusChangeReason] returns the last status change reason of
    a proposal.  [None] is the panic of the index [len - 1] into an
    empty slice. *)
Definition lastStatusChangeReason (metadata : list MetadataStream)
  : option (result string) :=
  match statusChangesDecode metadata with
  | Err e => Some (Err e)
  | Ok statusChanges =>
      match statusChanges !! (length statusChanges - 1)%nat with
      | None => None
      | Some sc => Some (Ok (scm_Reason sc))
      end
  end.

(** The stream that [statusChangesDecode] looks for. *)
Definition isStatusChangeStream (v : MetadataStream) : Prop :=
  ms_PluginID v = usermd_PluginID /\ ms_StreamID v = StreamIDStatusChanges.

End StatusChanges.

(* ================================================================== *)
(** ** The legacy git repository (cmd/legacypoliteia/git.go) *)
(* ================================================================== *)

Module legacypoliteia.

(** Characters of a Go string, as bytes. *)
Definition chars (s : string) : list ascii := list_ascii_of_string s.

Definition isDigit (a : ascii) : bool :=
  (48 <=? N_of_ascii a)%N && (N_of_ascii a <=? 57)%N.

(** The character class [[0-9a-f]]. *)
Definition isLowerHex (a : ascii) : bool :=
  isDigit a || ((97 <=? N_of_ascii a)%N && (N_of_ascii a <=? 102)%N).

(** [[0-9a-f]{64}] matches at the front of [l]. *)
Definition tokenAtFront (l : list ascii) : bool :=
  (length (take 64 l) =? 64)%nat && forallb isLowerHex (take 64 l).

(** [regexGitProposalToken.FindString]: the text of the leftmost match
    of [[0-9a-f]{64}], or the empty string when there is none. *)
Fixpoint regexGitProposalToken_FindString (l : list ascii) : list ascii :=
  if tokenAtFront l then take 64 l
  else
    match l with
    | [] => []
    | _ :: l' => regexGitProposalToken_FindString l'
    end.

Definition gitProposalToken (path : string) : string * bool :=
  let gitToken :=
    string_of_list_ascii (regexGitProposalToken_FindString (chars path)) in
  let ok := negb (String.eqb gitToken "") in
  (gitToken, ok).

(** [[0-9a-f]{64}\/[0-9]{1,}] matches at the front of [l]. *)
Definition versionAtFront (l : list ascii) : bool :=
  tokenAtFront l
  && match drop 64 l with
     | slash :: d :: _ => Ascii.eqb slash "/" && isDigit d
     | _ => false
     end.

(** The digits at the front of a text: what the greedy [[0-9]{1,}]
    takes. *)
Fixpoint digitsAtFront (l : list ascii) : list ascii :=
  match l with
  | d :: l' => if isDigit d then d :: digitsAtFront l' else []
  | [] => []
  end.

(** [regexProposalVersion.FindString]: the text of the leftmost match,
    with all the digits that follow the slash. *)
Fixpoint regexProposalVersion_FindString (l : list ascii) : list ascii :=
  if versionAtFront l then
    take 64 l ++ "/"%char :: digitsAtFront (drop 65 l)
  else
    match l with
    | [] => []
    | _ :: l' => regexProposalVersion_FindString l'
    end.

Definition isSlash (a : ascii) : bool := Ascii.eqb a "/".

Fixpoint dropSlashes (l : list ascii) : list ascii :=
  match l with
  | a :: l' => if isSlash a then dropSlashes l' else l
  | [] => []
  end.

Fixpoint upToSlash (l : list ascii) : list ascii :=
  match l with
  | a :: l' => if isSlash a then [] else a :: upToSlash l'
  | [] => []
  end.

(** [filepath.Base] where the separator is the slash: the last element
    of the path, without trailing slashes; "." for the empty path and
    "/" for a path of slashes only. *)
Definition filepath_Base (path : list ascii) : list ascii :=
  match path with
  | [] => ["."%char]
  | _ =>
      let stripped := rev (dropSlashes (rev path)) in
      let last := rev (upToSlash (rev stripped)) in
      match last with
      | [] => ["/"%char]
      | _ => last
      end
  end.

(** The value of a text of decimal digits. *)
Definition decimalValue (l : list ascii) : N :=
  fold_left (fun n d => (10 * n + (N_of_ascii d - 48))%N) l 0%N.

(** [strconv.ParseUint(s, 10, 32)]: a text of decimal digits, and
    nothing else, below [2 ^ 32]. *)
Definition strconv_ParseUint_10_32 (s : list ascii) : result N :=
  match s with
  | [] => Err (ExternalError "strconv" "invalid syntax")
  | _ =>
      if forallb isDigit s then
        if (decimalValue s <? 2 ^ 32)%N then Ok (decimalValue s)
        else Err (ExternalError "strconv" "value out of range")
      else Err (ExternalError "strconv" "invalid syntax")
  end.

Definition proposalVersion (proposalDir : string) : result N :=
  let subPath := regexProposalVersion_FindString (chars proposalDir) in
  let versionStr := filepath_Base subPath in
  do u <- strconv_ParseUint_10_32 versionStr;
  Ok (u mod 2 ^ 32)%N.

(** *** The walk of a directory *)

(** An [fs.DirEntry], with what git.go asks of it. *)
Record DirEntry : Type := {
  de_Name : string;
  de_IsDir : bool
}.

(** One call that [filepath.WalkDir] makes of its function: the path,
    the entry and the error.  The entry is nil, [None], when the root
    of the walk cannot be read: the walk then calls the function with
    the root, a nil entry and the error. *)
Record walkCall : Type := {
  wc_path : string;
  wc_d : option DirEntry;
  wc_err : option error
}.

(** [filepath.WalkDir] of the Go standard library, over a file system
    that is outside the model: [calls] are the calls that the walk
    makes of a function for as long as the function returns nil.  The
    walk ends with the first error that the function returns, and
    returns that error (no function of git.go returns [SkipDir] or
    [SkipAll]); a panic of the function, [None], is a panic of the
    walk. *)
Fixpoint filepath_WalkDir {S : Type} (calls : list walkCall)
  (fn : S -> walkCall -> option (S * option error)) (s : S)
  : option (S * option error) :=
  match calls with
  | [] => Some (s, None)
  | c :: calls' =>
      match fn s c with
      | None => None
      | Some (s', Some e) => Some (s', Some e)
      | Some (s', None) => filepath_WalkDir calls' fn s'
      end
  end.

(** The loop of [latestVersion] that finds the most recent version;
    [order] is the order in which the loop over the map [versions]
    comes by its keys. *)
Definition latestAmong (order : list N) : N :=
  fold_left (fun latest version =>
               if (latest <? version)%N then version else latest)
    order 0%N.

(** The loop of [latestVersion] that parses the version numbers from
    the directory names. *)
Definition versionsOf (dirs : gset string) : gset N :=
  list_to_set
    (omap (fun dirname =>
             match strconv_ParseUint_10_32 (chars dirname) with
             | Ok u => Some u
             | Err _ => None (* Not a version directory *)
             end) (elements dirs)).

(** [latestVersion] over the calls of its walk of the directory of
    the token.  The function of the walk does not look at the error
    it is handed, and asks a nil entry whether it is a directory,
    which panics.  The maps [dirs] and [versions] are sets; a loop
    over a map takes its keys in the order of [elements]. *)
Definition latestVersion (calls : list walkCall) (token : string)
  : option (result N) :=
  (* Compile a list of all directories *)
  match filepath_WalkDir calls
          (fun (dirs : gset string) (c : walkCall) =>
             match wc_d c with
             | None => None
             | Some d =>
                 if negb (de_IsDir d) then Some (dirs, None)
                 else Some ({[de_Name d]} ∪ dirs, None)
             end) ∅ with
  | None => None
  | Some (_, Some err) => Some (Err err)
  | Some (dirs, None) =>
      (* Parse the version number from the directory name *)
      let versions := versionsOf dirs in
      (* Find the most recent version *)
      let latest := latestAmong (elements versions) in
      if (latest =? 0)%N then
        Some (Err (Errorf (Sprintf "latest version not found for %v"
                             [ArgString token])))
      else Some (Ok latest)
  end.

(** A version that the directories of a walk spell: the name of an
    entry that is a directory is a decimal number below [2 ^ 32]. *)
Definition isVersionOf (calls : list walkCall) (v : N) : Prop :=
  exists (c : walkCall) (d : DirEntry),
    c ∈ calls /\ wc_d c = Some d /\ de_IsDir d = true
    /\ strconv_ParseUint_10_32 (chars (de_Name d)) = Ok v.

(** A text that [[0-9a-f]{64}] matches as a whole. *)
Definition isGitToken (t : list ascii) : Prop :=
  length t = 64%nat /\ Forall (fun a => isLowerHex a = true) t.

(** [gitProposalTokens] over the calls of its walk of the directory.
    The function of the walk does not look at the error it is handed,
    asks a nil entry whether it is a directory, which panics, and
    returns nil whatever it finds. *)
Definition gitProposalTokens (calls : list walkCall)
  : option (result (gset string)) :=
  match filepath_WalkDir calls
          (fun (tokens : gset string) (c : walkCall) =>
             match wc_d c with
             | None => None
             | Some d =>
                 (* We only care about directories *)
                 if negb (de_IsDir d) then Some (tokens, None)
                 else
                   (* Get the token from the path *)
                   let '(token, ok) := gitProposalToken (wc_path c) in
                   if ok then Some ({[token]} ∪ tokens, None)
                   else Some (tokens, None)
             end) ∅ with
  | None => None
  | Some (_, Some err) => Some (Err err)
  | Some (tokens, None) => Some (Ok tokens)
  end.

(** *** Import of the legacy proposals (convertcmd.go) *)

(** What [sanityChecks] reads of a proposal; the kinds of the files,
    of the status changes, of the details and of the votes play no
    part in the checks. *)
Record proposal (File StatusChange AuthDetails VoteDetails CastVote : Type)
  : Type := {
  p_RecordMetadata_Status : StatusT;
  p_Files : list File;
  p_ProposalMetadata_Name : string;
  p_UserMetadata_UserID : string;
  p_StatusChanges : list StatusChange;
  p_AuthDetails : option AuthDetails;   (* a pointer, [None] for nil *)
  p_VoteDetails : option VoteDetails;   (* a pointer, [None] for nil *)
  p_CastVotes : list CastVote
}.
Arguments p_RecordMetadata_Status {_ _ _ _ _} _.
Arguments p_Files {_ _ _ _ _} _.
Arguments p_ProposalMetadata_Name {_ _ _ _ _} _.
Arguments p_UserMetadata_UserID {_ _ _ _ _} _.
Arguments p_StatusChanges {_ _ _ _ _} _.
Arguments p_AuthDetails {_ _ _ _ _} _.
Arguments p_VoteDetails {_ _ _ _ _} _.
Arguments p_CastVotes {_ _ _ _ _} _.

Definition isNil {A : Type} (p : option A) : bool :=
  match p with None => true | Some _ => false end.

(** [sanityChecks]: [None] is the nil error. *)
Definition sanityChecks {F S A V C : Type} (p : proposal F S A V C)
  : option error :=
  if (length (p_Files p) =? 0)%nat then
    Some (Errorf (Text "no files found"))
  else if String.eqb (p_ProposalMetadata_Name p) "" then
    Some (Errorf (Text "proposal name missing"))
  else if String.eqb (p_UserMetadata_UserID p) "" then
    Some (Errorf (Text "user id missing"))
  else
    (* Checks based on record status *)
    match p_RecordMetadata_Status p with
    | StatusArchived =>
        if negb (length (p_StatusChanges p) =? 2)%nat then
          Some (Errorf (Text "invalid status changes"))
        else if negb (isNil (p_AuthDetails p)) then
          Some (Errorf (Text "auth details invalid"))
        else if negb (isNil (p_VoteDetails p)) then
          Some (Errorf (Text "vote details invalid"))
        else if negb (length (p_CastVotes p) =? 0)%nat then
          Some (Errorf (Text "cast votes invalid"))
        else None
    | StatusPublic =>
        if negb (length (p_StatusChanges p) =? 1)%nat then
          Some (Errorf (Text "invalid status changes"))
        else if isNil (p_AuthDetails p) then
          Some (Errorf (Text "auth details missing"))
        else if isNil (p_VoteDetails p) then
          Some (Errorf (Text "vote details missing"))
        else if (length (p_CastVotes p) =? 0)%nat then
          Some (Errorf (Text "cast votes missing"))
        else None
    | _ => Some (Errorf (Text "unknown record status"))
    end.

(** How a run of a loop ends: with a value, with a panic of the Go
    runtime, or not within the steps it was given. *)
Inductive outcome (A : Type) : Type :=
| Done (a : A)
| Panic
| OutOfSteps.
Arguments Done {A} a.
Arguments Panic {A}.
Arguments OutOfSteps {A}.

(** The slice expression [s[lo:hi]] of Go, which panics unless
    [lo <= hi <= len(s)]. *)
Definition slice {A : Type} (s : list A) (lo hi : nat) : option (list A) :=
  if (lo <=? hi)%nat && (hi <=? length s)%nat
  then Some (take (hi - lo) (drop lo s))
  else None.

Definition pageSize : nat := 500.

Section FetchLargestCommitmentAddrs.

(** The request to dcrdata for the addresses of a page of tickets. *)
Variable largestCommitmentAddrs :
  list string -> result (gmap string string).

(** The loop of [fetchLargestCommitmentAddrs], one round for each
    step.  [calls] is the pages requested so far, oldest first; the
    lines that the loop prints are left out.  The indices are far from
    the end of [int]. *)
Fixpoint fetchLoop (steps : nat) (eligibleTickets : list string)
  (startIdx : nat) (addrs : gmap string string) (calls : list (list string))
  : outcome (list (list string) * result (gmap string string)) :=
  match steps with
  | O => OutOfSteps
  | S steps' =>
      let ticketsLen := length eligibleTickets in
      let endIdx := (startIdx + pageSize)%nat in
      let '(endIdx, done) :=
        if (ticketsLen <? endIdx)%nat then (ticketsLen, true)
        else (endIdx, false) in
      match slice eligibleTickets startIdx endIdx with
      | None => Panic
      | Some tickets =>
          match largestCommitmentAddrs tickets with
          | Err e => Done (calls ++ [tickets], Err e)
          | Ok data =>
              (* addrs[ticket] = address, for each pair of data *)
              let addrs := data ∪ addrs in
              if done then Done (calls ++ [tickets], Ok addrs)
              else fetchLoop steps' eligibleTickets (startIdx + pageSize)
                     addrs (calls ++ [tickets])
          end
      end
  end.

(** [fetchLargestCommitmentAddrs] with the pages it has requested.
    One step for each ticket and one more are more than the loop
    takes. *)
Definition fetchLargestCommitmentAddrs (eligibleTickets : list string)
  : outcome (list (list string) * result (gmap string string)) :=
  fetchLoop (S (length eligibleTickets)) eligibleTickets 0 ∅ [].

End FetchLargestCommitmentAddrs.

(** The pages that a run over the tickets still to fetch requests, and
    what the run returns: full pages while they succeed, and a last
    page that is short. *)
Inductive paged (largestCommitmentAddrs :
                   list string -> result (gmap string string))
  : list string -> gmap string string ->
    list (list string) -> result (gmap string string) -> Prop :=
| paged_last rest addrs data :
    (length rest < pageSize)%nat ->
    largestCommitmentAddrs rest = Ok data ->
    paged largestCommitmentAddrs rest addrs [rest] (Ok (data ∪ addrs))
| paged_err rest addrs e :
    largestCommitmentAddrs (take pageSize rest) = Err e ->
    paged largestCommitmentAddrs rest addrs [take pageSize rest] (Err e)
| paged_more rest addrs data calls r :
    (pageSize <= length rest)%nat ->
    largestCommitmentAddrs (take pageSize rest) = Ok data ->
    paged largestCommitmentAddrs (drop pageSize rest) (data ∪ addrs) calls r ->
    paged largestCommitmentAddrs rest addrs (take pageSize rest :: calls) r.

End legacypoliteia.
(* ================================================================== *)
(** ** Further examples *)
(* ================================================================== *)

(** More of the example of [Demo]: a JSON decoder that knows three
    changes, a library with a cache of no capacity, a backend whose
    vote was rejected, and the plugins of the examples. *)
Module Demo2.

(** The change that [Demo.setActive] makes at time 1640000000. *)
Definition activeChange : BillingStatusChange :=
  {| Token := Demo.tokenHex; Status := BillingStatusActive; Reason := "";
     PublicKey := "pk"; Signature := "sig"; Receipt := "736967";
     Timestamp := 1640000000 |}.

(** A later close, at time 1650000000. *)
Definition closedLate : BillingStatusChange :=
  {| Token := Demo.tokenHex; Status := BillingStatusClosed; Reason := "late";
     PublicKey := "pk"; Signature := "sig"; Receipt := "736967";
     Timestamp := 1650000000 |}.

Definition unmarshalChange (b : bytes) : result BillingStatusChange :=
  match Demo.assoc String.eqb (string_of_list_byte b)
          [("45154fb4:2:done", Demo.closedChange);
           ("45154fb4:1:", activeChange);
           ("45154fb4:2:late", closedLate)] with
  | Some c => Ok c
  | None => Err (ExternalError "encoding/json" "invalid character")
  end.

(** The library of [Demo] with another decoder of the changes and
    another capacity of the cache. *)
Definition libraryWith
  (unmarshal : bytes -> result BillingStatusChange) (limit : Z) : Library := {|
  json_Unmarshal_SetBillingStatus := Demo.unmarshalSetBillingStatus;
  json_Marshal_SetBillingStatusReply :=
    fun r => Ok (list_byte_of_string (sbsr_Receipt r));
  json_Marshal_BillingStatusChangesReply :=
    fun r => Ok (list_byte_of_string
                   (String.concat ","
                      (map (fun c => Demo.statusName (Status c))
                         (BillingStatusChanges r))));
  json_Marshal_SummaryReply :=
    fun r => Ok (list_byte_of_string
                   (Demo.propStatusName (ps_Status (Summary r))));
  json_Marshal_BillingStatusChange := Demo.marshalChange;
  json_Unmarshal_BillingStatusChange := unmarshal;
  json_Marshal_DataDescriptor := Demo.marshalDescriptor;
  json_Unmarshal_DataDescriptor := Demo.unmarshalDescriptor;
  base64_EncodeToString := Demo.b64Encode;
  base64_DecodeString := Demo.b64Decode;
  hex_EncodeToString := Demo.hexEncode;
  hex_DecodeString := Demo.hexDecode;
  strconv_FormatUint := Demo.statusName;
  util_Digest := Demo.digest;
  util_VerifySignature := Demo.verifySignature;
  util_TokenRegexp := "^[0-9a-f]{8}$";
  tokenDecode := Demo.hexDecode;
  voteMetadataDecode := fun _ => Ok None;
  PluginID := "pi";
  DataTypeStructure := "struct";
  FileNameVoteMetadata := "votemetadata.json";
  piCacheLimit := limit
|}.

Definition library : Library := libraryWith unmarshalChange 2.

Definition libraryNoCache : Library := libraryWith Demo.unmarshalChange 0.

(** The blobs of [activeChange] and of [closedLate]. *)
Definition activeBlob : store.BlobEntry :=
  {| store.Digest := "02a4";
     store.DataHint := "c3RydWN0OnBpLWJpbGxpbmdzdGF0dXMtdjE=";
     store.Data := "NDUxNTRmYjQ6MTo=" |}.

Definition closedLateBlob : store.BlobEntry :=
  {| store.Digest := "044b";
     store.DataHint := "c3RydWN0OnBpLWJpbGxpbmdzdGF0dXMtdjE=";
     store.Data := "NDUxNTRmYjQ6MjpsYXRl" |}.

(** The plugin that has saved the later close. *)
Definition pluginClosedLate : @piPlugin Demo.backend :=
  {| tstore := ([(Demo.token, closedLateBlob)] : @Tstore Demo.backend);
     billingStatusChangesMax := 2;
     cache := emptyCache |}.

(** The plugin whose store returns the later close before the earlier
    change to active. *)
Definition pluginUnsorted : @piPlugin Demo.backend :=
  {| tstore := ([(Demo.token, closedLateBlob); (Demo.token, activeBlob)]
                : @Tstore Demo.backend);
     billingStatusChangesMax := 2;
     cache := emptyCache |}.

(** The cache after a first summary of the record of [Demo], and the
    plugin with it. *)
Definition cacheApproved : Cache :=
  {| data := <[Demo.tokenHex :=
                 {| proposalStatus_ := None;
                    voteStatus_ := Some VoteStatusApproved |}]> ∅;
     entries := [Demo.tokenHex] |}.

Definition pluginSummarised : @piPlugin Demo.backend :=
  {| tstore := ([] : @Tstore Demo.backend);
     billingStatusChangesMax := 2; cache := cacheApproved |}.

(** A cache that is full, with the token ["aa"] as its oldest. *)
Definition cacheFull : Cache :=
  {| data := <["aa" := {| proposalStatus_ := Some PropStatusCensored;
                          voteStatus_ := None |}]>
             (<["bb" := {| proposalStatus_ := None;
                           voteStatus_ := Some VoteStatusApproved |}]> ∅);
     entries := ["aa"; "bb"] |}.

(** A cache that holds the status Rejected for the token of [Demo]. *)
Definition cacheRejected : Cache :=
  {| data := <[Demo.tokenHex :=
                 {| proposalStatus_ := Some PropStatusRejected;
                    voteStatus_ := None |}]> ∅;
     entries := [Demo.tokenHex] |}.

(** The backend of [Demo] with a vote that was rejected. *)
Definition backendRejected : Backend := {|
  Tstore := list (bytes * store.BlobEntry);
  BlobSave := fun ts tok be => (ts ++ [(slice_bytes tok, be)], None);
  BlobsByDataDesc := fun ts tok _ =>
    Ok (map snd (filter (fun x => bool_decide (fst x = slice_bytes tok)) ts));
  Records := fun _ _ => Ok (<[Demo.tokenHex := Demo.theRecord]> ∅);
  voteSummary := fun _ _ => Ok {| ticketvote.Status := VoteStatusRejected |};
  SignMessage := fun b => b
|}.

Definition pluginRejected : @piPlugin backendRejected :=
  {| tstore := ([] : @Tstore backendRejected);
     billingStatusChangesMax := 2; cache := emptyCache |}.




End Demo2.


(* ================================================================== *)
(** ** Properties of the status deriver *)
(* ================================================================== *)

Lemma proposalBillingStatus_approved_nil :
  proposalBillingStatus VoteStatusApproved [] = BillingStatusActive.
Proof. reflexivity. Qed.

Lemma proposalBillingStatus_approved_snoc
  (l : list BillingStatusChange) (c : BillingStatusChange) :
  proposalBillingStatus VoteStatusApproved (l ++ [c]) = Status c.
Proof.
  unfold proposalBillingStatus.
  destruct (decide (VoteStatusApproved <> VoteStatusApproved)) as [n|_];
    [congruence|].
  rewrite length_app. simpl length.
  destruct (Nat.eqb_spec (length l + 1) 0) as [E|_]; [lia|].
  replace (length l + 1 - 1)%nat with (length l + 0)%nat by lia.
  rewrite lookup_app_r by lia.
  replace (length l + 0 - length l)%nat with 0%nat by lia.
  reflexivity.
Qed.

(** The rows of the transition table, one per current status. *)
Lemma billingStatusChanges_lookup (curr : BillingStatusT) :
  billingStatusChanges !! curr =
  match curr with
  | BillingStatusActive =>
      Some (<[BillingStatusClosed := tt]> (<[BillingStatusCompleted := tt]> ∅))
  | BillingStatusClosed =>
      Some (<[BillingStatusActive := tt]> (<[BillingStatusCompleted := tt]> ∅))
  | BillingStatusCompleted =>
      Some (<[BillingStatusActive := tt]> (<[BillingStatusClosed := tt]> ∅))
  | _ => None
  end.
Proof.
  unfold billingStatusChanges.
  destruct curr; repeat (rewrite lookup_insert; case_decide; try congruence);
    try reflexivity; apply lookup_empty.
Qed.

Lemma billingStatusChangeAllowed_table (curr new : BillingStatusT) :
  billingStatusChangeAllowed curr new =
  match curr, new with
  | BillingStatusActive, BillingStatusClosed
  | BillingStatusActive, BillingStatusCompleted
  | BillingStatusClosed, BillingStatusActive
  | BillingStatusClosed, BillingStatusCompleted
  | BillingStatusCompleted, BillingStatusActive
  | BillingStatusCompleted, BillingStatusClosed => true
  | _, _ => false
  end.
Proof.
  unfold billingStatusChangeAllowed. rewrite billingStatusChanges_lookup.
  destruct curr; try reflexivity;
    destruct new;
    repeat (rewrite lookup_insert; case_decide; try congruence);
    try reflexivity; rewrite lookup_empty; reflexivity.
Qed.

(** C1: [proposalStatus] follows the decision table of the status
    deriver: the five rows that the record state and status decide, the
    five vote statuses of a vetted public record (an approved vote
    goes to [proposalStatusApproved]), and an error for every other
    combination of state, status and vote status. *)
Theorem proposalStatus_decision_table :
  forall (voteStatus : VoteStatusT) (voteMD : option VoteMetadata)
         (bscs : list BillingStatusChange),
    proposalStatus StateUnvetted StatusUnreviewed voteStatus voteMD bscs
      = Ok PropStatusUnvetted
    /\ proposalStatus StateUnvetted StatusArchived voteStatus voteMD bscs
      = Ok PropStatusUnvettedAbandoned
    /\ proposalStatus StateUnvetted StatusCensored voteStatus voteMD bscs
      = Ok PropStatusUnvettedCensored
    /\ proposalStatus StateVetted StatusArchived voteStatus voteMD bscs
      = Ok PropStatusAbandoned
    /\ proposalStatus StateVetted StatusCensored voteStatus voteMD bscs
      = Ok PropStatusCensored
    /\ proposalStatus StateVetted StatusPublic VoteStatusUnauthorized voteMD bscs
      = Ok PropStatusUnderReview
    /\ proposalStatus StateVetted StatusPublic VoteStatusAuthorized voteMD bscs
      = Ok PropStatusVoteAuthorized
    /\ proposalStatus StateVetted StatusPublic VoteStatusStarted voteMD bscs
      = Ok PropStatusVoteStarted
    /\ proposalStatus StateVetted StatusPublic VoteStatusRejected voteMD bscs
      = Ok PropStatusRejected
    /\ proposalStatus StateVetted StatusPublic VoteStatusApproved voteMD bscs
      = proposalStatusApproved voteMD bscs
    /\ (forall (state : StateT) (status : StatusT),
          ~ (state = StateUnvetted
             /\ (status = StatusUnreviewed \/ status = StatusArchived
                 \/ status = StatusCensored)) ->
          ~ (state = StateVetted
             /\ (status = StatusArchived \/ status = StatusCensored)) ->
          ~ (state = StateVetted /\ status = StatusPublic
             /\ (voteStatus = VoteStatusUnauthorized
                 \/ voteStatus = VoteStatusAuthorized
                 \/ voteStatus = VoteStatusStarted
                 \/ voteStatus = VoteStatusRejected
                 \/ voteStatus = VoteStatusApproved)) ->
          proposalStatus state status voteStatus voteMD bscs
            = Err (proposalStatus_unreachable state status voteStatus)).
Proof.
  intros voteStatus voteMD bscs.
  repeat (split; [reflexivity|]).
  intros state status Hunvetted Hvetted Hpublic.
  destruct state, status; try reflexivity;
    try (exfalso; apply Hunvetted; tauto);
    try (exfalso; apply Hvetted; tauto).
  destruct voteStatus; try reflexivity; exfalso; apply Hpublic; tauto.
Qed.

(** C3: for a vote metadata with [LinkBy != 0] (an RFP base proposal)
    [proposalStatusApproved] returns Approved, whatever the billing
    status changes are. *)
Theorem proposalStatusApproved_rfp :
  forall (vm : VoteMetadata) (bscs : list BillingStatusChange),
    LinkBy vm <> 0%Z ->
    proposalStatusApproved (Some vm) bscs = Ok PropStatusApproved.
Proof.
  intros vm bscs Hlink. unfold proposalStatusApproved, isRFP.
  destruct (Z.eqb_spec (LinkBy vm) 0) as [E|_]; [contradiction|reflexivity].
Qed.

(** C3 on an example: an RFP with a billing status change of no named
    status. *)
Lemma proposalStatusApproved_rfp_witness :
  LinkBy {| LinkBy := 1700000000; LinkTo := "" |} <> 0%Z
  /\ proposalStatusApproved
       (Some {| LinkBy := 1700000000; LinkTo := "" |})
       [ {| Token := "45154fb45664714a"; Status := BillingStatusOther 9;
            Reason := ""; PublicKey := ""; Signature := ""; Receipt := "";
            Timestamp := 0 |} ]
     = Ok PropStatusApproved.
Proof.
  split; [discriminate|].
  apply proposalStatusApproved_rfp. discriminate.
Defined.

(** C5: a billing status transition is allowed exactly when it goes
    from one of Active, Closed, Completed to another one of them; in
    particular none is allowed from or to Invalid. *)
Theorem billingStatusChanges_six_pairs :
  forall curr new : BillingStatusT,
    (billingStatusChangeAllowed curr new = true <->
       In curr [BillingStatusActive; BillingStatusClosed; BillingStatusCompleted]
       /\ In new [BillingStatusActive; BillingStatusClosed; BillingStatusCompleted]
       /\ curr <> new)
    /\ billingStatusChangeAllowed BillingStatusInvalid new = false
    /\ billingStatusChangeAllowed curr BillingStatusInvalid = false.
Proof.
  intros curr new. rewrite !billingStatusChangeAllowed_table. split; [|split].
  - split.
    + destruct curr, new; try discriminate; intros _; simpl;
        repeat split; try tauto; discriminate.
    + intros (Hc & Hn & Hne). simpl in Hc, Hn.
      destruct Hc as [<-|[<-|[<-|[]]]]; destruct Hn as [<-|[<-|[<-|[]]]];
        try reflexivity; congruence.
  - reflexivity.
  - destruct curr; reflexivity.
Qed.

(** C6 as the spec states it does not hold: the table has no entry
    from Active to Active. *)
Lemma billingStatusChanges_self_transition_not_allowed :
  ~ (forall s : BillingStatusT,
       In s [BillingStatusActive; BillingStatusClosed; BillingStatusCompleted] ->
       billingStatusChangeAllowed s s = true).
Proof.
  intros Hall.
  specialize (Hall BillingStatusActive (or_introl eq_refl)).
  rewrite billingStatusChangeAllowed_table in Hall. discriminate.
Qed.

(** C10: when the vote status is not Approved the billing status is
    Invalid, whatever the billing status changes are. *)
Theorem proposalBillingStatus_not_approved :
  forall (vs : VoteStatusT) (bscs : list BillingStatusChange),
    vs <> VoteStatusApproved ->
    proposalBillingStatus vs bscs = BillingStatusInvalid.
Proof.
  intros vs bscs Hvs. unfold proposalBillingStatus.
  destruct (decide (vs <> VoteStatusApproved)); [reflexivity|contradiction].
Qed.

(** C10 on an example: a started vote and a Completed change. *)
Lemma proposalBillingStatus_not_approved_witness :
  VoteStatusStarted <> VoteStatusApproved
  /\ proposalBillingStatus VoteStatusStarted
       [ {| Token := "45154fb45664714a"; Status := BillingStatusCompleted;
            Reason := ""; PublicKey := ""; Signature := ""; Receipt := "";
            Timestamp := 1 |} ]
     = BillingStatusInvalid.
Proof.
  split; [discriminate|].
  apply proposalBillingStatus_not_approved. discriminate.
Defined.

(* ================================================================== *)
(** ** Properties of the blob codec *)
(* ================================================================== *)

Section CodecProperties.
Context {lib : Library}.

Lemma billingStatusDecode_after_hint (be : store.BlobEntry) :
  hintAccepted be ->
  billingStatusDecode be =
  (do b <- wrap "decode Data: %v" (base64_DecodeString (store.Data be));
   do digest <- wrap "decode digest: %v" (hex_DecodeString (store.Digest be));
   if negb (bool_decide (util_Digest b = digest)) then
     Err (Errorf (Sprintf "data is not coherent; got %x, want %x"
            [ArgBytes (util_Digest b); ArgBytes digest]))
   else
   do bsc <- wrap "unmarshal AuthDetails: %v"
               (json_Unmarshal_BillingStatusChange b);
   Ok bsc).
Proof.
  intros (b & dd & Hb & Hdd & Hdesc). unfold billingStatusDecode.
  rewrite Hb. simpl. rewrite Hdd. simpl. rewrite Hdesc.
  rewrite String.eqb_refl. reflexivity.
Qed.

(** C7: decoding the encoding of a billing status change gives the
    change back, for every change that JSON and the base64 and hex
    encodings of its blob carry faithfully; a blob whose data do not
    have the stored digest is refused as not coherent, also when the
    blob is an encoded change whose data were replaced; and a blob
    whose hint names another descriptor is refused. *)
Theorem billingStatus_codec :
  (forall (bsc : BillingStatusChange) (data hint : bytes),
      json_Marshal_BillingStatusChange bsc = Ok data ->
      json_Unmarshal_BillingStatusChange data = Ok bsc ->
      json_Marshal_DataDescriptor billingStatusDescriptor = Ok hint ->
      json_Unmarshal_DataDescriptor hint = Ok billingStatusDescriptor ->
      base64_DecodeString (base64_EncodeToString hint) = Ok hint ->
      base64_DecodeString (base64_EncodeToString data) = Ok data ->
      hex_DecodeString (hex_EncodeToString (util_Digest data))
        = Ok (util_Digest data) ->
      exists be : store.BlobEntry,
        billingStatusEncode bsc = Ok be
        /\ billingStatusDecode be = Ok bsc)
  /\ (forall (be : store.BlobEntry) (b digest : bytes),
        hintAccepted be ->
        base64_DecodeString (store.Data be) = Ok b ->
        hex_DecodeString (store.Digest be) = Ok digest ->
        util_Digest b <> digest ->
        billingStatusDecode be =
          Err (Errorf (Sprintf "data is not coherent; got %x, want %x"
                 [ArgBytes (util_Digest b); ArgBytes digest])))
  /\ (forall (bsc : BillingStatusChange) (be : store.BlobEntry)
             (data hint tampered : bytes),
        json_Marshal_BillingStatusChange bsc = Ok data ->
        json_Marshal_DataDescriptor billingStatusDescriptor = Ok hint ->
        json_Unmarshal_DataDescriptor hint = Ok billingStatusDescriptor ->
        base64_DecodeString (base64_EncodeToString hint) = Ok hint ->
        base64_DecodeString (base64_EncodeToString tampered) = Ok tampered ->
        hex_DecodeString (hex_EncodeToString (util_Digest data))
          = Ok (util_Digest data) ->
        util_Digest tampered <> util_Digest data ->
        billingStatusEncode bsc = Ok be ->
        billingStatusDecode
          {| store.Digest := store.Digest be;
             store.DataHint := store.DataHint be;
             store.Data := base64_EncodeToString tampered |} =
          Err (Errorf (Sprintf "data is not coherent; got %x, want %x"
                 [ArgBytes (util_Digest tampered);
                  ArgBytes (util_Digest data)])))
  /\ (forall (be : store.BlobEntry) (b : bytes) (dd : store.DataDescriptor),
        base64_DecodeString (store.DataHint be) = Ok b ->
        json_Unmarshal_DataDescriptor b = Ok dd ->
        store.Descriptor dd <> dataDescriptorBillingStatus ->
        billingStatusDecode be =
          Err (Errorf (Sprintf "unexpected data descriptor: got %v, want %v"
                 [ArgString (store.Descriptor dd);
                  ArgString dataDescriptorBillingStatus]))).
Proof.
  split; [|split; [|split]].
  - intros bsc data hint Hm Hu Hmd Hud Hbh Hbd Hhex.
    exists (NewBlobEntry hint data). split.
    + unfold billingStatusEncode. rewrite Hm. simpl.
      fold billingStatusDescriptor. rewrite Hmd. reflexivity.
    + rewrite billingStatusDecode_after_hint.
      * simpl. rewrite Hbd. simpl. rewrite Hhex. simpl.
        rewrite bool_decide_eq_true_2 by reflexivity. simpl.
        rewrite Hu. reflexivity.
      * exists hint, billingStatusDescriptor. simpl. auto.
  - intros be b digest Hhint Hb Hd Hne.
    rewrite billingStatusDecode_after_hint by assumption.
    rewrite Hb. simpl. rewrite Hd. simpl.
    rewrite bool_decide_eq_false_2 by assumption. reflexivity.
  - intros bsc be data hint tampered Hm Hmd Hud Hbh Hbt Hhex Hne Henc.
    unfold billingStatusEncode in Henc. rewrite Hm in Henc. simpl in Henc.
    fold billingStatusDescriptor in Henc. rewrite Hmd in Henc.
    simpl in Henc. injection Henc as <-. simpl.
    rewrite billingStatusDecode_after_hint.
    + simpl. rewrite Hbt. simpl. rewrite Hhex. simpl.
      rewrite bool_decide_eq_false_2 by assumption. reflexivity.
    + exists hint, billingStatusDescriptor. simpl. auto.
  - intros be b dd Hb Hdd Hne. unfold billingStatusDecode.
    rewrite Hb. simpl. rewrite Hdd. simpl.
    destruct (String.eqb_spec (store.Descriptor dd) dataDescriptorBillingStatus)
      as [E|_]; [contradiction|reflexivity].
Qed.

End CodecProperties.

(* ================================================================== *)
(** ** Properties of the memory cache *)
(* ================================================================== *)

Section CacheProperties.
Context {lib : Library}.

Lemma cacheVoteStatusSet_cacheSet c token status :
  cacheVoteStatusSet c token status
    = cacheSet (withVoteStatus status) c token.
Proof.
  unfold cacheVoteStatusSet, cacheSet. destruct (data c !! token); reflexivity.
Qed.

Lemma cacheProposalStatusSet_cacheSet c token status :
  cacheProposalStatusSet c token status
    = cacheSet (withProposalStatus status) c token.
Proof.
  unfold cacheProposalStatusSet, cacheSet.
  destruct (data c !! token); reflexivity.
Qed.

Lemma cacheInv_empty : (0 < piCacheLimit)%Z -> cacheInv emptyCache.
Proof.
  intros HK. split; [constructor|split].
  - intros t. simpl. rewrite lookup_empty. split.
    + intros [x Hx]. discriminate.
    + intros Hin. inversion Hin.
  - simpl. lia.
Qed.

Lemma cacheSet_present upd c token d :
  data c !! token = Some d ->
  cacheSet upd c token
    = Some {| data := <[token := upd (Some d)]> (data c);
              entries := entries c |}.
Proof. intros Hd. unfold cacheSet. rewrite Hd. reflexivity. Qed.

Lemma cacheSet_room upd c token :
  data c !! token = None ->
  Z.of_nat (length (entries c)) <> piCacheLimit ->
  cacheSet upd c token
    = Some {| data := <[token := upd None]> (data c);
              entries := entries c ++ [token] |}.
Proof.
  intros Hd Hlen. unfold cacheSet. rewrite Hd.
  destruct (Z.eqb_spec (Z.of_nat (length (entries c))) piCacheLimit);
    [contradiction|reflexivity].
Qed.

Lemma cacheSet_full upd c token oldest rest :
  data c !! token = None ->
  entries c = oldest :: rest ->
  Z.of_nat (length (entries c)) = piCacheLimit ->
  cacheSet upd c token
    = Some {| data := <[token := upd None]> (delete oldest (data c));
              entries := rest ++ [token] |}.
Proof.
  intros Hd He Hlen. unfold cacheSet. rewrite Hd.
  destruct (Z.eqb_spec (Z.of_nat (length (entries c))) piCacheLimit);
    [|contradiction].
  rewrite He. reflexivity.
Qed.

Lemma cacheSet_inv upd c token :
  (0 < piCacheLimit)%Z -> cacheInv c ->
  exists c', cacheSet upd c token = Some c' /\ cacheInv c'.
Proof.
  intros HK (Hnd & Hdom & Hlen).
  destruct (data c !! token) as [d|] eqn:Hd.
  - eexists. split; [apply (cacheSet_present _ _ _ _ Hd)|].
    split; [exact Hnd|split; [|exact Hlen]]. simpl. intros t.
    rewrite <- Hdom. destruct (decide (token = t)) as [<-|Hne].
    + rewrite lookup_insert_eq, Hd. split; eauto.
    + rewrite lookup_insert_ne by assumption. reflexivity.
  - assert (Hfresh : token ∉ entries c).
    { intros Hin. apply Hdom in Hin. rewrite Hd in Hin.
      destruct Hin; discriminate. }
    destruct (decide (Z.of_nat (length (entries c)) = piCacheLimit))
      as [Hfull|Hroom].
    + destruct (entries c) as [|oldest rest] eqn:He.
      { simpl in Hfull. lia. }
      eexists. split; [apply (cacheSet_full _ _ _ _ _ Hd He)|].
      { rewrite He. exact Hfull. }
      apply NoDup_cons in Hnd as [Hold Hrest].
      apply not_elem_of_cons in Hfresh as [Hne Hfresh].
      split; [|split]; simpl.
      * apply NoDup_app. split; [exact Hrest|]. split.
        -- intros x Hx Hx'. apply list_elem_of_singleton in Hx'. congruence.
        -- apply NoDup_singleton.
      * intros t. rewrite elem_of_app, list_elem_of_singleton.
        destruct (decide (token = t)) as [<-|Hnt].
        -- rewrite lookup_insert_eq. split; eauto.
        -- rewrite lookup_insert_ne by assumption.
           destruct (decide (oldest = t)) as [<-|Hno].
           ++ rewrite lookup_delete_eq. split.
              ** intros [x Hx]. discriminate.
              ** intros [Hin|Heq]; [contradiction|congruence].
           ++ rewrite lookup_delete_ne by assumption. rewrite Hdom.
              rewrite elem_of_cons. split.
              ** intros [Heq|Hin]; [congruence|auto].
              ** intros [Hin|Heq]; [auto|congruence].
      * rewrite length_app. simpl length. simpl length in Hfull, Hlen. lia.
    + eexists. split; [apply (cacheSet_room _ _ _ Hd Hroom)|].
      split; [|split]; simpl.
      * apply NoDup_app. split; [exact Hnd|]. split.
        -- intros x Hx Hx'. apply list_elem_of_singleton in Hx'. congruence.
        -- apply NoDup_singleton.
      * intros t. rewrite elem_of_app, list_elem_of_singleton.
        destruct (decide (token = t)) as [<-|Hnt].
        -- rewrite lookup_insert_eq. split; eauto.
        -- rewrite lookup_insert_ne by assumption. rewrite Hdom.
           split; [auto|]. intros [Hin|Heq]; [auto|congruence].
      * rewrite length_app. simpl length. lia.
Qed.

Lemma cacheStep_inv c op :
  (0 < piCacheLimit)%Z -> cacheInv c ->
  exists c', cacheStep c op = Some c' /\ cacheInv c'.
Proof.
  intros HK Hinv. destruct op as [t|t s|t s]; simpl.
  - eauto.
  - rewrite cacheVoteStatusSet_cacheSet. apply cacheSet_inv; assumption.
  - rewrite cacheProposalStatusSet_cacheSet. apply cacheSet_inv; assumption.
Qed.

Lemma cacheRun_inv ops : forall c,
  (0 < piCacheLimit)%Z -> cacheInv c ->
  exists c', cacheRun c ops = Some c' /\ cacheInv c'.
Proof.
  induction ops as [|op ops IH]; intros c HK Hinv; simpl.
  - eauto.
  - destruct (cacheStep_inv c op HK Hinv) as (c1 & -> & Hinv1). eauto.
Qed.

Lemma cacheRun_app c ops1 ops2 :
  cacheRun c (ops1 ++ ops2)
    = match cacheRun c ops1 with
      | None => None
      | Some c' => cacheRun c' ops2
      end.
Proof.
  revert c. induction ops1 as [|op ops1 IH]; intros c; simpl; [reflexivity|].
  destruct (cacheStep c op); [apply IH|reflexivity].
Qed.

Lemma setTokens_app ops1 ops2 :
  setTokens (ops1 ++ ops2) = setTokens ops1 ++ setTokens ops2.
Proof.
  induction ops1 as [|[t|t s|t s] ops1 IH]; simpl; [reflexivity|assumption| |];
    rewrite IH; reflexivity.
Qed.

Lemma cacheInv_size c :
  cacheInv c -> size (data c) = length (entries c).
Proof.
  intros (Hnd & Hdom & _).
  rewrite <- size_dom, <- (size_list_to_set (C := gset string)) by exact Hnd.
  f_equal. apply set_eq. intros t.
  rewrite elem_of_dom, elem_of_list_to_set. apply Hdom.
Qed.

(** After setting pairwise distinct tokens, with reads in between,
    the list holds the tokens set last, as many as fit, in the order
    in which they were set. *)
Lemma cacheRun_fifo ops :
  (0 < piCacheLimit)%Z ->
  NoDup (setTokens ops) ->
  exists c,
    cacheRun emptyCache ops = Some c
    /\ cacheInv c
    /\ entries c
       = drop (length (setTokens ops) - Z.to_nat piCacheLimit) (setTokens ops).
Proof.
  intros HK. induction ops as [|op ops IH] using rev_ind; intros Hnd.
  - exists emptyCache. split; [reflexivity|].
    split; [apply cacheInv_empty; exact HK|reflexivity].
  - rewrite setTokens_app in Hnd. rewrite setTokens_app, cacheRun_app.
    apply NoDup_app in Hnd as (Hnd & Hdisj & _).
    destruct (IH Hnd) as (c & -> & Hinv & Hent).
    set (ts := setTokens ops) in *. set (k := Z.to_nat piCacheLimit) in *.
    assert (Hlen : length (entries c) = (length ts `min` k)%nat).
    { rewrite Hent, length_drop. lia. }
    assert (Hset : forall upd token,
      token ∉ ts ->
      exists c', cacheSet upd c token = Some c' /\ cacheInv c'
        /\ entries c' = drop (length (ts ++ [token]) - k) (ts ++ [token])).
    { intros upd token Hfresh.
      assert (Hfresh' : token ∉ entries c).
      { rewrite Hent. intros Hin. apply Hfresh.
        eapply subseteq_drop, Hin. }
      assert (Hd : data c !! token = None).
      { destruct Hinv as (_ & Hdom & _).
        destruct (data c !! token) eqn:E; [|reflexivity].
        exfalso. apply Hfresh', Hdom. eauto. }
      destruct (cacheSet_inv upd c token HK Hinv) as (c' & Hc' & Hinv').
      exists c'. split; [exact Hc'|split; [exact Hinv'|]].
      rewrite length_app. simpl length.
      destruct (decide (Z.of_nat (length (entries c)) = piCacheLimit))
        as [Hfull|Hroom].
      - destruct (entries c) as [|oldest rest] eqn:He.
        { simpl in Hfull. lia. }
        rewrite (cacheSet_full upd c token oldest rest Hd He) in Hc'
          by (rewrite He; exact Hfull).
        injection Hc' as <-. simpl.
        assert (Hk : (k <= length ts)%nat) by (simpl length in *; lia).
        replace (length ts + 1 - k)%nat with ((length ts - k) + 1)%nat by lia.
        rewrite drop_app_le by lia.
        rewrite <- drop_drop, <- Hent. reflexivity.
      - rewrite (cacheSet_room upd c token Hd Hroom) in Hc'.
        injection Hc' as <-. simpl.
        assert (Hk : (length ts < k)%nat) by lia.
        replace (length ts + 1 - k)%nat with 0%nat by lia.
        rewrite Hent. replace (length ts - k)%nat with 0%nat by lia.
        reflexivity. }
    destruct op as [t|t s|t s]; simpl setTokens; simpl cacheRun.
    + rewrite app_nil_r. eauto.
    + rewrite cacheVoteStatusSet_cacheSet.
      destruct (Hset (withVoteStatus s) t) as (c' & -> & Hinv' & Hent').
      { intros Hin. apply (Hdisj t Hin). apply list_elem_of_singleton.
        reflexivity. }
      eauto.
    + rewrite cacheProposalStatusSet_cacheSet.
      destruct (Hset (withProposalStatus s) t) as (c' & -> & Hinv' & Hent').
      { intros Hin. apply (Hdisj t Hin). apply list_elem_of_singleton.
        reflexivity. }
      eauto.
Qed.

(** A set on a token of the cache leaves the list and the tokens of
    the map as they are, and writes the data of this token only. *)
Lemma cacheSet_overwrite upd c token d :
  cacheDataGet c token = Some d ->
  exists c',
    cacheSet upd c token = Some c'
    /\ entries c' = entries c
    /\ dom (data c') = dom (data c)
    /\ cacheDataGet c' token = Some (upd (Some d))
    /\ (forall t, t <> token -> cacheDataGet c' t = cacheDataGet c t).
Proof.
  unfold cacheDataGet. intros Hd. eexists.
  split; [apply (cacheSet_present _ _ _ _ Hd)|]. simpl.
  split; [reflexivity|]. split; [|split].
  - rewrite dom_insert_L. apply subseteq_union_1_L, singleton_subseteq_l.
    apply elem_of_dom. eauto.
  - unfold cacheDataGet. simpl. apply lookup_insert_eq.
  - intros t Hne. unfold cacheDataGet. simpl. apply lookup_insert_ne. congruence.
Qed.

(** Unless the capacity is zero a set never panics, and the token it
    sets is in the cache afterwards, with the data written. *)
Lemma cacheSet_written upd c token :
  piCacheLimit <> 0%Z ->
  exists c',
    cacheSet upd c token = Some c'
    /\ cacheDataGet c' token = Some (upd (cacheDataGet c token)).
Proof.
  intros HK. unfold cacheDataGet.
  destruct (data c !! token) as [d|] eqn:Hd.
  - eexists. split; [apply (cacheSet_present _ _ _ _ Hd)|].
    simpl. apply lookup_insert_eq.
  - destruct (decide (Z.of_nat (length (entries c)) = piCacheLimit))
      as [Hfull|Hroom].
    + destruct (entries c) as [|oldest rest] eqn:He.
      { simpl in Hfull. lia. }
      eexists. split.
      * apply (cacheSet_full _ _ _ _ _ Hd He). rewrite He. exact Hfull.
      * simpl. apply lookup_insert_eq.
    + eexists. split; [apply (cacheSet_room _ _ _ Hd Hroom)|].
      simpl. apply lookup_insert_eq.
Qed.

(** C8: with a positive capacity, a cache that starts empty never
    holds more entries than the capacity, whatever is got and set;
    setting one token more than the capacity, all distinct, with gets
    in between, leaves all but the first of them in the cache, in the
    order in which they were set; and a set on a token of the cache
    writes its data in place, and neither removes nor reorders an
    entry. *)
Theorem cache_bounded_fifo :
  (0 < piCacheLimit)%Z ->
  (forall ops : list cacheOp,
      exists c : Cache,
        cacheRun emptyCache ops = Some c
        /\ (Z.of_nat (size (data c)) <= piCacheLimit)%Z
        /\ (Z.of_nat (length (entries c)) <= piCacheLimit)%Z)
  /\ (forall (ops : list cacheOp) (first : string) (rest : list string),
        setTokens ops = first :: rest ->
        NoDup (first :: rest) ->
        Z.of_nat (length rest) = piCacheLimit ->
        exists c : Cache,
          cacheRun emptyCache ops = Some c
          /\ entries c = rest
          /\ cacheDataGet c first = None
          /\ (forall t : string, is_Some (cacheDataGet c t) <-> t ∈ rest))
  /\ (forall (c : Cache) (token : string) (d : cacheData),
        cacheDataGet c token = Some d ->
        (forall status : VoteStatusT,
            exists c' : Cache,
              cacheVoteStatusSet c token status = Some c'
              /\ entries c' = entries c
              /\ dom (data c') = dom (data c)
              /\ cacheDataGet c' token
                 = Some {| proposalStatus_ := proposalStatus_ d;
                           voteStatus_ := Some status |}
              /\ (forall t, t <> token ->
                    cacheDataGet c' t = cacheDataGet c t))
        /\ (forall status : PropStatusT,
              exists c' : Cache,
                cacheProposalStatusSet c token status = Some c'
                /\ entries c' = entries c
                /\ dom (data c') = dom (data c)
                /\ cacheDataGet c' token
                   = Some {| proposalStatus_ := Some status;
                             voteStatus_ := voteStatus_ d |}
                /\ (forall t, t <> token ->
                      cacheDataGet c' t = cacheDataGet c t))).
Proof.
  intros HK. split; [|split].
  - intros ops.
    destruct (cacheRun_inv ops emptyCache HK (cacheInv_empty HK))
      as (c & Hrun & Hinv).
    exists c. split; [exact Hrun|].
    rewrite (cacheInv_size c Hinv). destruct Hinv as (_ & _ & Hlen). lia.
  - intros ops first rest Htok Hnd Hlen.
    rewrite <- Htok in Hnd.
    destruct (cacheRun_fifo ops HK Hnd) as (c & Hrun & Hinv & Hent).
    rewrite Htok in Hent. simpl length in Hent.
    replace (S (length rest) - Z.to_nat piCacheLimit)%nat with 1%nat in Hent
      by lia.
    simpl in Hent. exists c. split; [exact Hrun|split; [exact Hent|]].
    destruct Hinv as (_ & Hdom & _). unfold cacheDataGet. split.
    + destruct (data c !! first) eqn:E; [|reflexivity]. exfalso.
      assert (Hin : first ∈ entries c) by (apply Hdom; eauto).
      rewrite Hent in Hin. rewrite Htok in Hnd.
      apply NoDup_cons in Hnd as [Hnotin _]. contradiction.
    + intros t. rewrite Hdom, Hent. reflexivity.
  - intros c token d Hd. split; intros status.
    + rewrite cacheVoteStatusSet_cacheSet.
      apply (cacheSet_overwrite (withVoteStatus status) c token d Hd).
    + rewrite cacheProposalStatusSet_cacheSet.
      apply (cacheSet_overwrite (withProposalStatus status) c token d Hd).
Qed.

End CacheProperties.

(* ================================================================== *)
(** ** Properties of the commands *)
(* ================================================================== *)

Section CommandProperties.
Context {lib : Library} {bk : Backend}.

Lemma reason_check_false (status : BillingStatusT) (reason : string) :
  status <> BillingStatusClosed \/ reason <> "" ->
  bool_decide (status = BillingStatusClosed) && String.eqb reason "" = false.
Proof.
  intros [Hs|Hr].
  - rewrite bool_decide_eq_false_2 by assumption. reflexivity.
  - destruct (String.eqb_spec reason ""); [contradiction|].
    apply andb_false_r.
Qed.

Lemma uint32_small (z : Z) : (0 <= z < 2 ^ 32)%Z -> uint32 z = z.
Proof. intros Hz. unfold uint32. apply Z.mod_small. exact Hz. Qed.

(** The run of a command is kept as an equation [Hrun]; a check that
    passes moves it on to the rest of the command, a check that
    fails ends it. *)
Ltac reduce_in Hrun :=
  try change (negb true) with false in Hrun;
  try change (negb false) with true in Hrun;
  cbv beta iota zeta in Hrun.

Ltac advance_in Hrun E := rewrite E in Hrun; reduce_in Hrun.

Ltac fails_in Hrun E := rewrite E in Hrun; reduce_in Hrun; exact Hrun.

Tactic Notation "advance" constr(E) :=
  match goal with Hrun : ?run = _ |- _ => is_var run; advance_in Hrun E end.

Tactic Notation "fails_with" constr(E) :=
  match goal with Hrun : ?run = _ |- ?run = _ => fails_in Hrun E end.


(** A request that passes every check before the transition check is
    refused when the table does not allow the transition. *)
Lemma cmdSetBillingStatus_transition_refused
  now token payload p sbs vsr r vm bscs :
  json_Unmarshal_SetBillingStatus (list_byte_of_string payload) = Ok sbs ->
  tokenMatches token (sbs_Token sbs) = Ok tt ->
  In (sbs_Status sbs)
     [BillingStatusActive; BillingStatusClosed; BillingStatusCompleted] ->
  util_VerifySignature (sbs_Signature sbs) (sbs_PublicKey sbs)
    (signedMessage sbs) = None ->
  sbs_Status sbs <> BillingStatusClosed \/ sbs_Reason sbs <> "" ->
  voteSummary (tstore p) token = Ok vsr ->
  ticketvote.Status vsr = VoteStatusApproved ->
  record p (voteMetadataRequest token) = Ok r ->
  voteMetadataDecode (Files r) = Ok vm ->
  isRFP vm = false ->
  piPlugin_billingStatusChanges p token = Ok bscs ->
  (uint32 (Z.of_nat (length bscs) + 1) <= billingStatusChangesMax p)%Z ->
  billingStatusChangeAllowed
    (proposalBillingStatus VoteStatusApproved bscs) (sbs_Status sbs) = false ->
  cmdSetBillingStatus now token payload p =
    Some (p, Err (notAllowed
      (Sprintf "invalid billing status transition, %v to %v is not allowed"
         [ArgBillingStatusName (proposalBillingStatus VoteStatusApproved bscs);
          ArgBillingStatusName (sbs_Status sbs)]))).
Proof.
  intros Esbs Etok Hst Esig Hreason Evsr Hvote Er Evm Erfp Ebscs Hmax Hno.
  remember (cmdSetBillingStatus now token payload p) as run eqn:Hrun.
  unfold cmdSetBillingStatus, bindM, lift, read, ret, fail in Hrun.
  cbv beta iota zeta in Hrun.
  fold (voteMetadataRequest token) in Hrun.
  advance Esbs. advance Etok. fold (signedMessage sbs) in Hrun.
  assert (Est : forall (A : Type) (a b : A),
             match sbs_Status sbs with
             | BillingStatusActive | BillingStatusClosed
             | BillingStatusCompleted => a
             | _ => b
             end = a).
  { intros A a b. simpl in Hst.
    destruct Hst as [<-|[<-|[<-|[]]]]; reflexivity. }
  advance Est. advance Esig.
  apply reason_check_false in Hreason. advance Hreason.
  advance Evsr. rewrite Hvote in Hrun.
  rewrite bool_decide_eq_false_2 in Hrun by (intros Hne; apply Hne; reflexivity).
  cbv beta iota zeta in Hrun.
  advance Er. advance Evm. advance Erfp. advance Ebscs.
  apply Z.ltb_ge in Hmax. advance Hmax. fails_with Hno.
Qed.

(** C6, as the code has it: the table allows no transition from a
    status to itself, so a request for the status that the proposal
    already has, which passes every earlier check, is refused by the
    transition check with the error code
    BillingStatusChangeNotAllowed, and nothing is saved. *)
Theorem billingStatusChanges_self_transition_refused :
  forall s : BillingStatusT,
    billingStatusChangeAllowed s s = false
    /\ (forall (now : Z) (token : option bytes) (payload : string)
               (p : piPlugin) (sbs : SetBillingStatus)
               (vsr : ticketvote.SummaryReply) (r : Record_)
               (vm : option VoteMetadata) (bscs : list BillingStatusChange),
          In s [BillingStatusActive; BillingStatusClosed;
                BillingStatusCompleted] ->
          json_Unmarshal_SetBillingStatus (list_byte_of_string payload)
            = Ok sbs ->
          tokenMatches token (sbs_Token sbs) = Ok tt ->
          util_VerifySignature (sbs_Signature sbs) (sbs_PublicKey sbs)
            (signedMessage sbs) = None ->
          sbs_Status sbs <> BillingStatusClosed \/ sbs_Reason sbs <> "" ->
          voteSummary (tstore p) token = Ok vsr ->
          ticketvote.Status vsr = VoteStatusApproved ->
          record p (voteMetadataRequest token) = Ok r ->
          voteMetadataDecode (Files r) = Ok vm ->
          isRFP vm = false ->
          piPlugin_billingStatusChanges p token = Ok bscs ->
          (uint32 (Z.of_nat (length bscs) + 1)
             <= billingStatusChangesMax p)%Z ->
          sbs_Status sbs = s ->
          proposalBillingStatus VoteStatusApproved bscs = s ->
          cmdSetBillingStatus now token payload p =
            Some (p, Err (PluginError ErrorCodeBillingStatusChangeNotAllowed
              (Sprintf
                 "invalid billing status transition, %v to %v is not allowed"
                 [ArgBillingStatusName s; ArgBillingStatusName s])))).
Proof.
  intros s.
  assert (Hself : billingStatusChangeAllowed s s = false).
  { rewrite billingStatusChangeAllowed_table. destruct s; reflexivity. }
  split; [exact Hself|].
  intros now token payload p sbs vsr r vm bscs
    Hin Esbs Etok Esig Hreason Evsr Hvote Er Evm Erfp Ebscs Hmax Hreq Hcur.
  rewrite (cmdSetBillingStatus_transition_refused
             now token payload p sbs vsr r vm bscs); try assumption.
  - rewrite Hreq, Hcur. reflexivity.
  - rewrite Hreq. exact Hin.
  - rewrite Hreq, Hcur. exact Hself.
Qed.

(* ---------------------------------------------------------------- *)
(** *** The summary command *)

Lemma summaryReply_run (s : PropStatusT) (p : piPlugin) :
  summaryReply s p = Some (p, summaryJSON s).
Proof.
  unfold summaryReply, summaryJSON, bindM, lift, ret.
  destruct (json_Marshal_SummaryReply _); reflexivity.
Qed.

(** Only an approved vote gives Active, Completed or Closed. *)
Lemma proposalStatus_quasi_approved state status voteStatus voteMD bscs s :
  proposalStatus state status voteStatus voteMD bscs = Ok s ->
  In s quasiTerminalStatuses ->
  voteStatus = VoteStatusApproved.
Proof.
  intros Hs Hin. simpl in Hin.
  destruct state, status; simpl in Hs; try discriminate;
    try (injection Hs as <-; intuition discriminate).
  destruct voteStatus; simpl in Hs; try discriminate;
    try (injection Hs as <-; intuition discriminate).
  reflexivity.
Qed.

(** The run of [cmdSummary] below the cache lookups, once the record,
    the vote status and the billing status changes are at hand. *)
Lemma summaryFromRecord_run token tokenStr p r voteMD voteStatus bscs s :
  record p (voteMetadataRequest token) = Ok r ->
  voteMetadataDecode (Files r) = Ok voteMD ->
  summaryFetch token (State (RecordMetadata_ r))
    (rm_Status (RecordMetadata_ r)) p = Some (p, Ok (voteStatus, bscs)) ->
  proposalStatus (State (RecordMetadata_ r)) (rm_Status (RecordMetadata_ r))
    voteStatus voteMD bscs = Ok s ->
  summaryFromRecord token tokenStr p =
    if bool_decide (In s terminalStatuses) then
      match cacheProposalStatusSet (cache p) tokenStr s with
      | None => None
      | Some c => Some (withCache p c, summaryJSON s)
      end
    else if bool_decide (In s quasiTerminalStatuses) then
      match cacheVoteStatusSet (cache p) tokenStr voteStatus with
      | None => None
      | Some c => Some (withCache p c, summaryJSON s)
      end
    else Some (p, summaryJSON s).
Proof.
  intros Er Evm Efetch Es.
  unfold summaryFromRecord, bindM at 1 2 3 4, read, lift.
  fold (voteMetadataRequest token).
  rewrite Er. cbv beta iota zeta. rewrite Evm. cbv beta iota zeta.
  rewrite Efetch. cbv beta iota zeta. simpl fst. simpl snd.
  rewrite Es. cbv beta iota zeta.
  unfold bindM, writeCache, ret.
  destruct s; simpl;
    try (destruct (cacheProposalStatusSet _ _ _));
    try (destruct (cacheVoteStatusSet _ _ _));
    try rewrite summaryReply_run; reflexivity.
Qed.

(** [cmdSummary] when no proposal status and no vote status is cached
    for the token. *)
Lemma cmdSummary_slow_path token p :
  cacheDataGet (cache p) (hex_EncodeToString (slice_bytes token)) = None
  \/ cacheDataGet (cache p) (hex_EncodeToString (slice_bytes token))
     = Some {| proposalStatus_ := None; voteStatus_ := None |} ->
  cmdSummary token p
    = summaryFromRecord token (hex_EncodeToString (slice_bytes token)) p.
Proof.
  intros [Hc|Hc]; unfold cmdSummary; cbv zeta; rewrite Hc; reflexivity.
Qed.

(** C9: on the slow path of the summary command, a terminal status is
    stored as the proposal status of the token; for Active, Completed
    and Closed the vote status was Approved, and it is stored as the
    vote status of the token, with no proposal status; for a
    transient status the plugin, and so its cache, stays as it was.
    The capacity of the cache is not zero. *)
Theorem cmdSummary_cache_policy :
  forall (token : option bytes) (p : piPlugin) (r : Record_)
         (voteMD : option VoteMetadata) (voteStatus : VoteStatusT)
         (bscs : list BillingStatusChange) (s : PropStatusT),
    let tokenStr := hex_EncodeToString (slice_bytes token) in
    let mdState := State (RecordMetadata_ r) in
    let mdStatus := rm_Status (RecordMetadata_ r) in
    piCacheLimit <> 0%Z ->
    (cacheDataGet (cache p) tokenStr = None
     \/ cacheDataGet (cache p) tokenStr
        = Some {| proposalStatus_ := None; voteStatus_ := None |}) ->
    record p (voteMetadataRequest token) = Ok r ->
    voteMetadataDecode (Files r) = Ok voteMD ->
    summaryFetch token mdState mdStatus p = Some (p, Ok (voteStatus, bscs)) ->
    proposalStatus mdState mdStatus voteStatus voteMD bscs = Ok s ->
    (In s terminalStatuses ->
     exists c' : Cache,
       cacheProposalStatusSet (cache p) tokenStr s = Some c'
       /\ cmdSummary token p = Some (withCache p c', summaryJSON s)
       /\ cacheDataGet c' tokenStr
          = Some {| proposalStatus_ := Some s; voteStatus_ := None |})
    /\ (In s quasiTerminalStatuses ->
        voteStatus = VoteStatusApproved
        /\ exists c' : Cache,
          cacheVoteStatusSet (cache p) tokenStr VoteStatusApproved = Some c'
          /\ cmdSummary token p = Some (withCache p c', summaryJSON s)
          /\ cacheDataGet c' tokenStr
             = Some {| proposalStatus_ := None;
                       voteStatus_ := Some VoteStatusApproved |})
    /\ (In s transientStatuses ->
        cmdSummary token p = Some (p, summaryJSON s)).
Proof.
  intros token p r voteMD voteStatus bscs s tokenStr mdState mdStatus
    HK Hcache Er Evm Efetch Es.
  subst tokenStr mdState mdStatus.
  rewrite (cmdSummary_slow_path token p Hcache).
  rewrite (summaryFromRecord_run token _ p r voteMD voteStatus bscs s
             Er Evm Efetch Es).
  set (tokenStr := hex_EncodeToString (slice_bytes token)) in *.
  split; [|split].
  - intros Hin. rewrite bool_decide_eq_true_2 by exact Hin.
    rewrite cacheProposalStatusSet_cacheSet.
    destruct (cacheSet_written (withProposalStatus s) (cache p) tokenStr HK)
      as (c' & -> & Hget).
    exists c'. split; [reflexivity|split; [reflexivity|]].
    rewrite Hget. destruct Hcache as [-> | ->]; reflexivity.
  - intros Hin.
    assert (Hvs : voteStatus = VoteStatusApproved)
      by exact (proposalStatus_quasi_approved _ _ _ _ _ _ Es Hin).
    split; [exact Hvs|]. subst voteStatus.
    rewrite bool_decide_eq_false_2
      by (simpl in Hin |- *; intuition (subst; discriminate)).
    rewrite bool_decide_eq_true_2 by exact Hin.
    rewrite cacheVoteStatusSet_cacheSet.
    destruct (cacheSet_written (withVoteStatus VoteStatusApproved)
                (cache p) tokenStr HK) as (c' & -> & Hget).
    exists c'. split; [reflexivity|split; [reflexivity|]].
    rewrite Hget. destruct Hcache as [-> | ->]; reflexivity.
  - intros Hin.
    rewrite !bool_decide_eq_false_2
      by (simpl in Hin |- *; intuition (subst; discriminate)).
    reflexivity.
Qed.

(** C2: for an approved proposal that is no RFP the status follows
    from the billing status changes alone: Active when there is none,
    else the status of the last change, Active, Closed and Completed
    as they are and an error for every other value.  The summary of a
    token whose record is vetted and public, whose vote is approved
    and which has no billing status change is Active, when no
    proposal status is cached for the token and the capacity of the
    cache is not zero. *)
Theorem proposalStatusApproved_billing :
  forall voteMD : option VoteMetadata,
    isRFP voteMD = false ->
    proposalStatusApproved voteMD [] = Ok PropStatusActive
    /\ (forall (l : list BillingStatusChange) (c : BillingStatusChange),
          proposalStatusApproved voteMD (l ++ [c]) =
          match Status c with
          | BillingStatusActive => Ok PropStatusActive
          | BillingStatusClosed => Ok PropStatusClosed
          | BillingStatusCompleted => Ok PropStatusCompleted
          | bs =>
              Err (Errorf (Sprintf
                "couldn't determine proposal status of an approved propsoal: billingStatus: %v"
                [ArgBillingStatus bs]))
          end)
    /\ (forall (token : option bytes) (p : piPlugin) (r : Record_)
               (vs : ticketvote.SummaryReply),
          piCacheLimit <> 0%Z ->
          (forall d : cacheData,
              cacheDataGet (cache p) (hex_EncodeToString (slice_bytes token))
                = Some d ->
              proposalStatus_ d = None) ->
          record p (voteMetadataRequest token) = Ok r ->
          State (RecordMetadata_ r) = StateVetted ->
          rm_Status (RecordMetadata_ r) = StatusPublic ->
          voteMetadataDecode (Files r) = Ok voteMD ->
          voteSummary (tstore p) token = Ok vs ->
          ticketvote.Status vs = VoteStatusApproved ->
          piPlugin_billingStatusChanges p token = Ok [] ->
          exists p' : piPlugin,
            cmdSummary token p = Some (p', summaryJSON PropStatusActive)
            /\ tstore p' = tstore p).
Proof.
  intros voteMD Hrfp. split; [|split].
  - unfold proposalStatusApproved. rewrite Hrfp. reflexivity.
  - intros l c. unfold proposalStatusApproved. rewrite Hrfp.
    cbv zeta. rewrite proposalBillingStatus_approved_snoc.
    destruct (Status c); reflexivity.
  - intros token p r vs HK Hcache Er Estate Estatus Evm Evs Eapproved Ebscs.
    set (tokenStr := hex_EncodeToString (slice_bytes token)) in *.
    assert (Hslow :
      summaryFromRecord token tokenStr p =
      match cacheVoteStatusSet (cache p) tokenStr VoteStatusApproved with
      | None => None
      | Some c => Some (withCache p c, summaryJSON PropStatusActive)
      end).
    { rewrite (summaryFromRecord_run token tokenStr p r voteMD
                 VoteStatusApproved [] PropStatusActive Er Evm).
      - reflexivity.
      - rewrite Estate, Estatus. unfold summaryFetch, bindM, read, ret.
        simpl. rewrite Evs. cbv beta iota zeta. rewrite Eapproved.
        simpl. rewrite Ebscs. reflexivity.
      - rewrite Estate, Estatus. simpl.
        unfold proposalStatusApproved. rewrite Hrfp. reflexivity. }
    assert (Hwrite : exists c',
      cacheVoteStatusSet (cache p) tokenStr VoteStatusApproved = Some c').
    { rewrite cacheVoteStatusSet_cacheSet.
      destruct (cacheSet_written (withVoteStatus VoteStatusApproved)
                  (cache p) tokenStr HK) as (c' & Hc' & _).
      eauto. }
    destruct Hwrite as (c' & Hc'). rewrite Hc' in Hslow.
    destruct (cacheDataGet (cache p) tokenStr) as [[ps vst]|] eqn:Hd.
    + specialize (Hcache _ eq_refl). simpl in Hcache. subst ps.
      destruct vst as [v|].
      * exists p. split; [|reflexivity].
        unfold cmdSummary. fold tokenStr. cbv zeta. rewrite Hd.
        unfold bindM, read, lift. rewrite Ebscs. cbv beta iota zeta.
        change (proposalStatusApproved None []) with (Ok PropStatusActive).
        cbv beta iota zeta. apply summaryReply_run.
      * exists (withCache p c'). split; [|reflexivity].
        rewrite cmdSummary_slow_path by (right; exact Hd). exact Hslow.
    + exists (withCache p c'). split; [|reflexivity].
      rewrite cmdSummary_slow_path by (left; exact Hd). exact Hslow.
Qed.

End CommandProperties.

(* ================================================================== *)
(** ** The properties on the example instance *)
(* ================================================================== *)

#[local] Existing Instance Demo.library.
#[local] Existing Instance Demo.backend.

(** C2 on the example: no vote metadata, no billing status change,
    nothing cached. *)
Lemma proposalStatusApproved_billing_witness :
  isRFP None = false
  /\ proposalStatusApproved None [] = Ok PropStatusActive
  /\ exists p' : piPlugin,
       cmdSummary (Some Demo.token) Demo.plugin
         = Some (p', summaryJSON PropStatusActive)
       /\ tstore p' = tstore Demo.plugin.
Proof.
  split; [reflexivity|].
  destruct (proposalStatusApproved_billing
              (lib := Demo.library) (bk := Demo.backend) None eq_refl)
    as (Hnil & _ & Hsummary).
  split; [exact Hnil|].
  apply (Hsummary (Some Demo.token) Demo.plugin Demo.theRecord
           {| ticketvote.Status := VoteStatusApproved |});
    try reflexivity.
  - discriminate.
  - intros d Hd. unfold cacheDataGet in Hd. simpl in Hd.
    rewrite lookup_empty in Hd. discriminate.
Defined.

(** C8 on the example: capacity two, three tokens set. *)
Lemma cache_bounded_fifo_witness :
  (0 < @piCacheLimit Demo.library)%Z
  /\ exists c : Cache,
       cacheRun (lib := Demo.library) emptyCache
         [OpVoteStatusSet "a" VoteStatusApproved; OpGet "a";
          OpProposalStatusSet "b" PropStatusRejected; OpGet "a";
          OpVoteStatusSet "c" VoteStatusApproved] = Some c
       /\ entries c = ["b"; "c"]
       /\ cacheDataGet c "a" = None.
Proof.
  split; [reflexivity|].
  destruct (cache_bounded_fifo (lib := Demo.library) eq_refl)
    as (_ & Hfifo & _).
  destruct (Hfifo
              [OpVoteStatusSet "a" VoteStatusApproved; OpGet "a";
               OpProposalStatusSet "b" PropStatusRejected; OpGet "a";
               OpVoteStatusSet "c" VoteStatusApproved]
              "a" ["b"; "c"] eq_refl)
    as (c & Hrun & Hent & Habsent & _).
  - repeat (apply NoDup_cons; split; [intros Hin; repeat
      (apply elem_of_cons in Hin as [Hin|Hin]; [discriminate|]);
      inversion Hin|]).
    apply NoDup_nil. exact I.
  - reflexivity.
  - exists c. auto.
Defined.

(** C9 on the example: the summary is Active, and the approved vote
    status is what the cache holds afterwards. *)
Lemma cmdSummary_cache_policy_witness :
  @piCacheLimit Demo.library <> 0%Z
  /\ exists c' : Cache,
       cmdSummary (Some Demo.token) Demo.plugin
         = Some (withCache Demo.plugin c', summaryJSON PropStatusActive)
       /\ cacheDataGet c' (hex_EncodeToString Demo.token)
          = Some {| proposalStatus_ := None;
                    voteStatus_ := Some VoteStatusApproved |}.
Proof.
  split; [discriminate|].
  destruct (cmdSummary_cache_policy
              (lib := Demo.library) (bk := Demo.backend)
              (Some Demo.token) Demo.plugin Demo.theRecord None
              VoteStatusApproved [] PropStatusActive)
    as (_ & Hquasi & _); try reflexivity.
  - discriminate.
  - left. unfold cacheDataGet. simpl. apply lookup_empty.
  - destruct Hquasi as (_ & c' & _ & Hrun & Hget).
    + simpl. tauto.
    + exists c'. auto.
Defined.


(** C7 on the example: the round trip of a change, and the refusal of
    its blob with other data and with another descriptor. *)
Lemma billingStatus_codec_witness :
  billingStatusEncode Demo.closedChange = Ok Demo.closedBlob
  /\ billingStatusDecode Demo.closedBlob = Ok Demo.closedChange
  /\ (exists e : error,
        billingStatusDecode
          {| store.Digest := store.Digest Demo.closedBlob;
             store.DataHint := store.DataHint Demo.closedBlob;
             store.Data := base64_EncodeToString
                             (list_byte_of_string "45154fb4:1:done") |}
        = Err e)
  /\ (exists e : error,
        billingStatusDecode
          {| store.Digest := store.Digest Demo.closedBlob;
             store.DataHint := base64_EncodeToString
                                 (list_byte_of_string "struct:comments-v1");
             store.Data := store.Data Demo.closedBlob |}
        = Err e).
Proof.
  destruct (billingStatus_codec (lib := Demo.library))
    as (Hround & _ & Htampered & Hdescriptor).
  destruct (Hround Demo.closedChange
              (list_byte_of_string "45154fb4:2:done")
              (list_byte_of_string "struct:pi-billingstatus-v1")
              ltac:(vm_compute; reflexivity) ltac:(vm_compute; reflexivity)
              ltac:(vm_compute; reflexivity) ltac:(vm_compute; reflexivity)
              ltac:(vm_compute; reflexivity) ltac:(vm_compute; reflexivity)
              ltac:(vm_compute; reflexivity))
    as (be & Henc & Hdec).
  assert (Hbe : be = Demo.closedBlob).
  { assert (Hc : billingStatusEncode Demo.closedChange = Ok Demo.closedBlob)
      by (vm_compute; reflexivity).
    rewrite Hc in Henc. injection Henc as <-. reflexivity. }
  subst be.
  split; [exact Henc|]. split; [exact Hdec|]. split.
  - eexists.
    apply (Htampered Demo.closedChange Demo.closedBlob
             (list_byte_of_string "45154fb4:2:done")
             (list_byte_of_string "struct:pi-billingstatus-v1")
             (list_byte_of_string "45154fb4:1:done"));
      try (vm_compute; reflexivity).
    vm_compute; discriminate.
  - eexists.
    apply (Hdescriptor _ (list_byte_of_string "struct:comments-v1")
             {| store.Type_ := "struct"; store.Descriptor := "comments-v1" |});
      try (vm_compute; reflexivity).
    vm_compute; discriminate.
Defined.

(** C6 on the example: closing a proposal that is closed is refused. *)
Lemma billingStatusChanges_self_transition_refused_witness :
  billingStatusChangeAllowed BillingStatusClosed BillingStatusClosed = false
  /\ cmdSetBillingStatus 1630000001 (Some Demo.token) "close-done"
       Demo.pluginClosed
     = Some (Demo.pluginClosed,
             Err (PluginError ErrorCodeBillingStatusChangeNotAllowed
               (Sprintf
                  "invalid billing status transition, %v to %v is not allowed"
                  [ArgBillingStatusName BillingStatusClosed;
                   ArgBillingStatusName BillingStatusClosed]))).
Proof.
  destruct (billingStatusChanges_self_transition_refused
              (lib := Demo.library) (bk := Demo.backend) BillingStatusClosed)
    as [Htable Hcommand].
  split; [exact Htable|].
  apply (Hcommand 1630000001%Z (Some Demo.token) "close-done" Demo.pluginClosed
           Demo.closeDone {| ticketvote.Status := VoteStatusApproved |}
           Demo.theRecord None [Demo.closedChange]);
    try (vm_compute; reflexivity).
  - simpl. tauto.
  - right. vm_compute; discriminate.
  - vm_compute; discriminate.
Defined.

(* ================================================================== *)
(** ** Further properties: the billing status changes of a proposal *)
(* ================================================================== *)

Section BillingStatusChangesProperties.
Context {lib : Library} {bk : Backend}.

Lemma insertByTimestamp_Permutation c l : insertByTimestamp c l ≡ₚ c :: l.
Proof.
  induction l as [|d l IH]; simpl; [reflexivity|].
  destruct (Timestamp c <? Timestamp d)%Z; [reflexivity|].
  rewrite IH. apply Permutation_swap.
Qed.

Lemma sortByTimestamp_snoc l c :
  sortByTimestamp (l ++ [c]) = insertByTimestamp c (sortByTimestamp l).
Proof. unfold sortByTimestamp. rewrite fold_left_app. reflexivity. Qed.

Lemma sortByTimestamp_Permutation l : sortByTimestamp l ≡ₚ l.
Proof.
  induction l as [|c l IH] using rev_ind; [reflexivity|].
  rewrite sortByTimestamp_snoc, insertByTimestamp_Permutation, IH.
  apply Permutation_cons_append.
Qed.

Lemma insertByTimestamp_sorted c l :
  StronglySorted notLater l -> StronglySorted notLater (insertByTimestamp c l).
Proof.
  induction 1 as [|d l Hl IH Hd]; simpl.
  - constructor; constructor.
  - destruct (Z.ltb_spec (Timestamp c) (Timestamp d)) as [Hlt|Hge].
    + constructor; [constructor; assumption|].
      constructor; [unfold notLater; lia|].
      eapply Forall_impl; [exact Hd|]. unfold notLater. intros; lia.
    + constructor; [exact IH|].
      rewrite insertByTimestamp_Permutation. constructor; assumption.
Qed.

Lemma sortByTimestamp_sorted l : StronglySorted notLater (sortByTimestamp l).
Proof.
  induction l as [|c l IH] using rev_ind; [constructor|].
  rewrite sortByTimestamp_snoc. apply insertByTimestamp_sorted, IH.
Qed.

Lemma filter_none {A : Type} (P : A -> Prop) `{forall x, Decision (P x)}
  (l : list A) :
  Forall (fun x => ~ P x) l -> filter P l = [].
Proof.
  induction 1 as [|x l Hx Hl IH]; [reflexivity|].
  rewrite filter_cons. destruct (decide (P x)); [contradiction|exact IH].
Qed.

(** In a sorted list a change goes behind the changes of its own
    timestamp. *)
Lemma insertByTimestamp_filter (t : Z) c l :
  StronglySorted notLater l ->
  filter (fun x => Timestamp x = t) (insertByTimestamp c l)
    = filter (fun x => Timestamp x = t) (l ++ [c]).
Proof.
  induction 1 as [|d l Hl IH Hd]; simpl; [reflexivity|].
  destruct (Z.ltb_spec (Timestamp c) (Timestamp d)) as [Hlt|Hge].
  - rewrite (filter_cons _ c), (filter_cons _ d), (filter_cons _ d).
    rewrite filter_app, (filter_cons _ c), filter_nil.
    destruct (decide (Timestamp c = t)) as [Hc|Hc].
    + assert (Hnone : filter (fun x => Timestamp x = t) l = []).
      { apply filter_none. eapply Forall_impl; [exact Hd|].
        unfold notLater. intros x Hx. simpl. lia. }
      rewrite Hnone. destruct (decide (Timestamp d = t)); [lia|reflexivity].
    + rewrite app_nil_r. reflexivity.
  - rewrite (filter_cons _ d), (filter_cons _ d), IH. reflexivity.
Qed.

Lemma insertByTimestamp_last c l :
  Forall (fun d => Timestamp d <= Timestamp c)%Z l ->
  insertByTimestamp c l = l ++ [c].
Proof.
  induction 1 as [|d l Hd Hl IH]; simpl; [reflexivity|].
  destruct (Z.ltb_spec (Timestamp c) (Timestamp d)); [lia|].
  rewrite IH. reflexivity.
Qed.

Lemma sortByTimestamp_filter (t : Z) l :
  filter (fun x => Timestamp x = t) (sortByTimestamp l)
    = filter (fun x => Timestamp x = t) l.
Proof.
  induction l as [|c l IH] using rev_ind; [reflexivity|].
  rewrite sortByTimestamp_snoc, insertByTimestamp_filter
    by apply sortByTimestamp_sorted.
  rewrite !filter_app, IH. reflexivity.
Qed.

Lemma sortByTimestamp_fixed l :
  StronglySorted notLater l -> sortByTimestamp l = l.
Proof.
  induction l as [|c l IH] using rev_ind; intros Hs; [reflexivity|].
  rewrite sortByTimestamp_snoc.
  assert (Hl : StronglySorted notLater l /\
               Forall (fun d => Timestamp d <= Timestamp c)%Z l).
  { clear IH. induction l as [|d l IHl]; simpl in Hs.
    - split; constructor.
    - apply StronglySorted_inv in Hs as [Hs Hd].
      destruct (IHl Hs) as [Hs' Hall].
      apply Forall_app in Hd as [Hd1 Hd2]. rewrite Forall_singleton in Hd2.
      split.
      + constructor; [exact Hs'|exact Hd1].
      + constructor; [exact Hd2|exact Hall]. }
  destruct Hl as [Hl Hall]. rewrite (IH Hl).
  apply insertByTimestamp_last, Hall.
Qed.

Lemma billingStatusDecodeAll_Forall2 blobs l :
  billingStatusDecodeAll blobs = Ok l <->
  Forall2 (fun b c => billingStatusDecode b = Ok c) blobs l.
Proof.
  revert l. induction blobs as [|b blobs IH]; intros l; simpl.
  - split.
    + intros [= <-]. constructor.
    + intros Hf. inversion Hf. reflexivity.
  - split.
    + destruct (billingStatusDecode b) as [c|e] eqn:Hb; simpl; [|discriminate].
      destruct (billingStatusDecodeAll blobs) as [rest|e] eqn:Hr; simpl;
        [|discriminate].
      intros [= <-]. constructor; [exact Hb|]. apply IH. reflexivity.
    + intros Hf. inversion Hf as [|b' c blobs' rest Hb Hrest]; subst.
      rewrite Hb. simpl. apply IH in Hrest. rewrite Hrest. reflexivity.
Qed.

Lemma billingStatusDecodeAll_app_err pre b post l e :
  billingStatusDecodeAll pre = Ok l ->
  billingStatusDecode b = Err e ->
  billingStatusDecodeAll (pre ++ b :: post) = Err e.
Proof.
  revert l. induction pre as [|x pre IH]; intros l; simpl.
  - intros _ Hb. rewrite Hb. reflexivity.
  - destruct (billingStatusDecode x) as [c|e'] eqn:Hx; simpl; [|discriminate].
    destruct (billingStatusDecodeAll pre) as [rest|e'] eqn:Hr; simpl;
      [|discriminate].
    intros _ Hb. rewrite (IH rest eq_refl Hb). reflexivity.
Qed.

(** X1: the billing status changes of a proposal come back in
    ascending order of their timestamps, and they are the decoded
    blobs, each once. *)
Theorem billingStatusChanges_sorted_permutation :
  forall (p : piPlugin) (token : option bytes)
         (blobs : list store.BlobEntry) (decoded : list BillingStatusChange),
    BlobsByDataDesc (tstore p) token [dataDescriptorBillingStatus] = Ok blobs ->
    Forall2 (fun b c => billingStatusDecode b = Ok c) blobs decoded ->
    exists bscs : list BillingStatusChange,
      piPlugin_billingStatusChanges p token = Ok bscs
      /\ bscs ≡ₚ decoded
      /\ length bscs = length blobs
      /\ StronglySorted notLater bscs.
Proof.
  intros p token blobs decoded Hblobs Hdec.
  exists (sortByTimestamp decoded). split; [|split; [|split]].
  - unfold piPlugin_billingStatusChanges. rewrite Hblobs. simpl.
    apply billingStatusDecodeAll_Forall2 in Hdec. rewrite Hdec. reflexivity.
  - apply sortByTimestamp_Permutation.
  - rewrite sortByTimestamp_Permutation.
    symmetry. eapply Forall2_length, Hdec.
  - apply sortByTimestamp_sorted.
Qed.

(** X2: the sort is stable: the changes of one timestamp keep the
    order in which the store returned their blobs, and blobs that are
    already in ascending order come back as they are. *)
Theorem billingStatusChanges_stable :
  forall (p : piPlugin) (token : option bytes)
         (blobs : list store.BlobEntry) (decoded : list BillingStatusChange),
    BlobsByDataDesc (tstore p) token [dataDescriptorBillingStatus] = Ok blobs ->
    Forall2 (fun b c => billingStatusDecode b = Ok c) blobs decoded ->
    exists bscs : list BillingStatusChange,
      piPlugin_billingStatusChanges p token = Ok bscs
      /\ (forall t : Z,
            filter (fun c => Timestamp c = t) bscs
              = filter (fun c => Timestamp c = t) decoded)
      /\ (StronglySorted notLater decoded -> bscs = decoded).
Proof.
  intros p token blobs decoded Hblobs Hdec.
  exists (sortByTimestamp decoded). split; [|split].
  - unfold piPlugin_billingStatusChanges. rewrite Hblobs. simpl.
    apply billingStatusDecodeAll_Forall2 in Hdec. rewrite Hdec. reflexivity.
  - intros t. apply sortByTimestamp_filter.
  - apply sortByTimestamp_fixed.
Qed.

(** X3: a blob that does not decode is not skipped: the first such
    blob makes the whole call fail with its error, whatever the blobs
    behind it are; and an error of the store is returned as it is. *)
Theorem billingStatusChanges_first_error :
  forall (p : piPlugin) (token : option bytes),
    (forall e : error,
        BlobsByDataDesc (tstore p) token [dataDescriptorBillingStatus] = Err e ->
        piPlugin_billingStatusChanges p token = Err e)
    /\ (forall (pre post : list store.BlobEntry) (b : store.BlobEntry)
               (l : list BillingStatusChange) (e : error),
          BlobsByDataDesc (tstore p) token [dataDescriptorBillingStatus]
            = Ok (pre ++ b :: post) ->
          Forall2 (fun b c => billingStatusDecode b = Ok c) pre l ->
          billingStatusDecode b = Err e ->
          piPlugin_billingStatusChanges p token = Err e).
Proof.
  intros p token. split.
  - intros e He. unfold piPlugin_billingStatusChanges. rewrite He. reflexivity.
  - intros pre post b l e Hblobs Hpre Hb.
    unfold piPlugin_billingStatusChanges. rewrite Hblobs. simpl.
    apply billingStatusDecodeAll_Forall2 in Hpre.
    rewrite (billingStatusDecodeAll_app_err pre b post l e Hpre Hb).
    reflexivity.
Qed.

End BillingStatusChangesProperties.

Section ReadCommandProperties.
Context {lib : Library} {bk : Backend}.

(** X4: [cmdBillingStatusChanges] only reads: it never panics and it
    leaves the plugin as it was, whatever it returns.  Its reply is
    the JSON of the changes in ascending order of their timestamps,
    and an error of the read is returned as it is. *)
Theorem cmdBillingStatusChanges_read_only :
  forall (token : option bytes) (p : piPlugin),
    exists r : result string,
      cmdBillingStatusChanges token p = Some (p, r)
      /\ (forall e : error,
            piPlugin_billingStatusChanges p token = Err e -> r = Err e)
      /\ (forall bscs : list BillingStatusChange,
            piPlugin_billingStatusChanges p token = Ok bscs ->
            StronglySorted notLater bscs
            /\ r = (do reply <- json_Marshal_BillingStatusChangesReply
                                  {| BillingStatusChanges := bscs |};
                    Ok (string_of_list_byte reply))).
Proof.
  intros token p. unfold cmdBillingStatusChanges, bindM, read, lift, ret.
  destruct (piPlugin_billingStatusChanges p token) as [bscs|e] eqn:Hread.
  - destruct (json_Marshal_BillingStatusChangesReply
                {| BillingStatusChanges := bscs |}) as [reply|e] eqn:Hjson;
      eexists; (split; [reflexivity|]); (split; [discriminate|]);
      intros bscs' [= <-]; rewrite Hjson; (split; [|reflexivity]);
      unfold piPlugin_billingStatusChanges in Hread;
      destruct (BlobsByDataDesc _ _ _) as [blobs|e'];
        simpl in Hread; try discriminate;
      destruct (billingStatusDecodeAll blobs) as [l|e'];
        simpl in Hread; try discriminate;
      injection Hread as <-; apply sortByTimestamp_sorted.
  - eexists. split; [reflexivity|]. split; [congruence|discriminate].
Qed.

End ReadCommandProperties.

(* ================================================================== *)
(** ** Further properties: the set billing status command *)
(* ================================================================== *)

Section SetBillingStatusProperties.
Context {lib : Library} {bk : Backend}.

Ltac reduce_run Hrun :=
  try change (negb true) with false in Hrun;
  try change (negb false) with true in Hrun;
  cbv beta iota zeta in Hrun.

(** A run of [cmdSetBillingStatus] either stops at a check, with the
    plugin as it was, or passes every check and saves the change. *)
Lemma cmdSetBillingStatus_cases now token payload p :
  (exists e : error,
      cmdSetBillingStatus now token payload p = Some (p, Err e))
  \/ (exists sbs vsr r vm bscs be,
        setBillingStatusChecked token payload p sbs vsr r vm bscs
        /\ billingStatusEncode (billingStatusChangeOf now sbs) = Ok be
        /\ cmdSetBillingStatus now token payload p
           = Some (withTstore p (fst (BlobSave (tstore p) token be)),
                   match snd (BlobSave (tstore p) token be) with
                   | Some e => Err e
                   | None =>
                       do reply <- json_Marshal_SetBillingStatusReply
                                     {| sbsr_Timestamp := now;
                                        sbsr_Receipt :=
                                          Receipt (billingStatusChangeOf now sbs) |};
                       Ok (string_of_list_byte reply)
                   end)).
Proof.
  remember (cmdSetBillingStatus now token payload p) as run eqn:Hrun.
  unfold cmdSetBillingStatus, bindM, lift, read, ret, fail in Hrun.
  cbv beta iota zeta in Hrun.
  fold (voteMetadataRequest token) in Hrun.
  destruct (json_Unmarshal_SetBillingStatus (list_byte_of_string payload))
    as [sbs|e] eqn:Esbs; reduce_run Hrun; [|left; eauto].
  destruct (tokenMatches token (sbs_Token sbs)) as [[]|e] eqn:Etok;
    reduce_run Hrun; [|left; eauto].
  fold (signedMessage sbs) in Hrun.
  destruct (decide (In (sbs_Status sbs)
              [BillingStatusActive; BillingStatusClosed;
               BillingStatusCompleted])) as [Hst|Hst].
  2:{ left. destruct (sbs_Status sbs); simpl in Hst; try tauto; eauto. }
  assert (Est : forall (A : Type) (a b : A),
             match sbs_Status sbs with
             | BillingStatusActive | BillingStatusClosed
             | BillingStatusCompleted => a
             | _ => b
             end = a).
  { intros A a b. simpl in Hst.
    destruct Hst as [<-|[<-|[<-|[]]]]; reflexivity. }
  rewrite Est in Hrun. reduce_run Hrun.
  destruct (util_VerifySignature (sbs_Signature sbs) (sbs_PublicKey sbs)
              (signedMessage sbs)) as [e|] eqn:Esig;
    reduce_run Hrun; [left; eauto|].
  destruct (bool_decide (sbs_Status sbs = BillingStatusClosed)
            && String.eqb (sbs_Reason sbs) "") eqn:Ereason;
    reduce_run Hrun; [left; eauto|].
  assert (Hreason : sbs_Status sbs <> BillingStatusClosed
                    \/ sbs_Reason sbs <> "").
  { apply andb_false_iff in Ereason as [Hs|Hr].
    - left. apply bool_decide_eq_false in Hs. exact Hs.
    - right. apply String.eqb_neq. exact Hr. }
  destruct (voteSummary (tstore p) token) as [vsr|e] eqn:Evsr;
    reduce_run Hrun; [|left; eauto].
  destruct (decide (ticketvote.Status vsr = VoteStatusApproved))
    as [Hvote|Hvote].
  2:{ rewrite bool_decide_eq_true_2 in Hrun by exact Hvote.
      reduce_run Hrun. left; eauto. }
  rewrite bool_decide_eq_false_2 in Hrun by (intros Hne; exact (Hne Hvote)).
  reduce_run Hrun.
  destruct (record p (voteMetadataRequest token)) as [r|e] eqn:Er;
    reduce_run Hrun; [|left; eauto].
  destruct (voteMetadataDecode (Files r)) as [vm|e] eqn:Evm;
    reduce_run Hrun; [|left; eauto].
  destruct (isRFP vm) eqn:Erfp; reduce_run Hrun; [left; eauto|].
  destruct (piPlugin_billingStatusChanges p token) as [bscs|e] eqn:Ebscs;
    reduce_run Hrun; [|left; eauto].
  destruct (Z.ltb_spec (billingStatusChangesMax p)
              (uint32 (Z.of_nat (length bscs) + 1))) as [Hmax|Hmax];
    reduce_run Hrun; [left; eauto|].
  destruct (billingStatusChangeAllowed
              (proposalBillingStatus (ticketvote.Status vsr) bscs)
              (sbs_Status sbs)) eqn:Eallowed;
    reduce_run Hrun; [|left; eauto].
  unfold billingStatusSave in Hrun.
  fold (billingStatusChangeOf now sbs) in Hrun.
  destruct (billingStatusEncode (billingStatusChangeOf now sbs))
    as [be|e] eqn:Ebe; reduce_run Hrun; [|left; eauto].
  right. exists sbs, vsr, r, vm, bscs, be.
  split; [|split; [exact Ebe|]].
  { unfold setBillingStatusChecked. rewrite Hvote in Eallowed.
    repeat split; assumption. }
  rewrite Hrun. unfold withTstore.
  destruct (BlobSave (tstore p) token be) as [ts [e|]]; simpl;
    [reflexivity|].
  destruct (json_Marshal_SetBillingStatusReply _); reflexivity.
Qed.

(** X5: the command never panics, and whatever it returns it leaves
    the cache and the maximum number of changes as they were; it does
    not drop a cached status of the proposal whose billing status it
    changes. *)
Theorem cmdSetBillingStatus_keeps_cache :
  forall (now : Z) (token : option bytes) (payload : string) (p : piPlugin),
    exists (p' : piPlugin) (r : result string),
      cmdSetBillingStatus now token payload p = Some (p', r)
      /\ cache p' = cache p
      /\ billingStatusChangesMax p' = billingStatusChangesMax p.
Proof.
  intros now token payload p.
  destruct (cmdSetBillingStatus_cases now token payload p)
    as [[e Hrun]|(sbs & vsr & r & vm & bscs & be & _ & _ & Hrun)];
    rewrite Hrun; eauto.
Qed.

(** X6: a reply of the command means that every check has passed and
    that one blob, the encoding of the change, went to [BlobSave]
    without an error; in particular the requested status is Active,
    Closed or Completed, it differs from the billing status that the
    proposal had, and the length of the history plus one, as a
    [uint32], was within the maximum: a history of fewer than
    [2 ^ 32 - 1] changes was shorter than the maximum. *)
Theorem cmdSetBillingStatus_reply_inversion :
  forall (now : Z) (token : option bytes) (payload : string)
         (p p' : piPlugin) (reply : string),
    cmdSetBillingStatus now token payload p = Some (p', Ok reply) ->
    exists sbs vsr r vm bscs be,
      setBillingStatusChecked token payload p sbs vsr r vm bscs
      /\ billingStatusEncode (billingStatusChangeOf now sbs) = Ok be
      /\ BlobSave (tstore p) token be = (tstore p', None)
      /\ p' = withTstore p (tstore p')
      /\ sbs_Status sbs <> proposalBillingStatus VoteStatusApproved bscs
      /\ (uint32 (Z.of_nat (length bscs) + 1) <= billingStatusChangesMax p)%Z
      /\ ((Z.of_nat (length bscs) + 1 < 2 ^ 32)%Z ->
          (Z.of_nat (length bscs) < billingStatusChangesMax p)%Z)
      /\ json_Marshal_SetBillingStatusReply
           {| sbsr_Timestamp := now;
              sbsr_Receipt := Receipt (billingStatusChangeOf now sbs) |}
         = Ok (list_byte_of_string reply).
Proof.
  intros now token payload p p' reply Hok.
  destruct (cmdSetBillingStatus_cases now token payload p)
    as [[e Hrun]|(sbs & vsr & r & vm & bscs & be & Hchk & Hbe & Hrun)];
    rewrite Hrun in Hok; [discriminate|].
  exists sbs, vsr, r, vm, bscs, be.
  destruct (BlobSave (tstore p) token be) as [ts err] eqn:Hsave.
  simpl in Hok. destruct err as [e|]; [discriminate|].
  destruct (json_Marshal_SetBillingStatusReply _) as [b|e] eqn:Hm;
    simpl in Hok; [|discriminate].
  injection Hok as <- <-. simpl.
  split; [exact Hchk|]. split; [exact Hbe|]. split; [reflexivity|].
  split; [reflexivity|].
  destruct Hchk as (_ & _ & _ & _ & _ & _ & _ & _ & _ & _ & _ & Hmax & Hallowed).
  split; [|split; [exact Hmax|split]].
  - intros Heq. rewrite <- Heq in Hallowed.
    rewrite billingStatusChangeAllowed_table in Hallowed.
    destruct (sbs_Status sbs); discriminate.
  - intros Hlen. rewrite uint32_small in Hmax by lia. lia.
  - rewrite list_byte_of_string_of_list_byte. reflexivity.
Qed.

(** X7: an error of the command comes with the plugin, and so the
    store, as it was, unless every check has passed and the encoded
    change was handed to [BlobSave]: the error is then the error of
    [BlobSave] itself, or the error of marshalling the reply after a
    save that went well.  A check that fails has written nothing. *)
Theorem cmdSetBillingStatus_error_no_write :
  forall (now : Z) (token : option bytes) (payload : string)
         (p p' : piPlugin) (e : error),
    cmdSetBillingStatus now token payload p = Some (p', Err e) ->
    p' = p
    \/ (exists sbs vsr r vm bscs be,
          setBillingStatusChecked token payload p sbs vsr r vm bscs
          /\ billingStatusEncode (billingStatusChangeOf now sbs) = Ok be
          /\ p' = withTstore p (fst (BlobSave (tstore p) token be))
          /\ (snd (BlobSave (tstore p) token be) = Some e
              \/ (snd (BlobSave (tstore p) token be) = None
                  /\ json_Marshal_SetBillingStatusReply
                       {| sbsr_Timestamp := now;
                          sbsr_Receipt :=
                            Receipt (billingStatusChangeOf now sbs) |}
                     = Err e))).
Proof.
  intros now token payload p p' e Herr.
  destruct (cmdSetBillingStatus_cases now token payload p)
    as [[e' Hrun]|(sbs & vsr & r & vm & bscs & be & Hchk & Hbe & Hrun)];
    rewrite Hrun in Herr.
  - left. congruence.
  - right. exists sbs, vsr, r, vm, bscs, be.
    split; [exact Hchk|]. split; [exact Hbe|].
    injection Herr as Hp He. split; [congruence|].
    destruct (snd (BlobSave (tstore p) token be)) as [e0|].
    + left. congruence.
    + right. split; [reflexivity|].
      destruct (json_Marshal_SetBillingStatusReply _) as [reply|e0];
        simpl in He; [discriminate|congruence].
Qed.

End SetBillingStatusProperties.

(* ================================================================== *)
(** ** Further properties: a change that was set, read back *)
(* ================================================================== *)

Section SetThenRead.
Context {lib : Library} {bk : Backend}.

Ltac reduce_run Hrun :=
  try change (negb true) with false in Hrun;
  try change (negb false) with true in Hrun;
  cbv beta iota zeta in Hrun.

Ltac pass Hrun E := rewrite E in Hrun; reduce_run Hrun.

(** The run of the command when every check passes. *)
Lemma cmdSetBillingStatus_checked_run
  now token payload p sbs vsr r vm bscs be :
  setBillingStatusChecked token payload p sbs vsr r vm bscs ->
  billingStatusEncode (billingStatusChangeOf now sbs) = Ok be ->
  cmdSetBillingStatus now token payload p
    = Some (withTstore p (fst (BlobSave (tstore p) token be)),
            match snd (BlobSave (tstore p) token be) with
            | Some e => Err e
            | None =>
                do reply <- json_Marshal_SetBillingStatusReply
                              {| sbsr_Timestamp := now;
                                 sbsr_Receipt :=
                                   Receipt (billingStatusChangeOf now sbs) |};
                Ok (string_of_list_byte reply)
            end).
Proof.
  intros (Esbs & Etok & Hst & Esig & Hreason & Evsr & Hvote & Er & Evm
          & Erfp & Ebscs & Hmax & Eallowed) Ebe.
  remember (cmdSetBillingStatus now token payload p) as run eqn:Hrun.
  unfold cmdSetBillingStatus, bindM, lift, read, ret, fail in Hrun.
  cbv beta iota zeta in Hrun.
  fold (voteMetadataRequest token) in Hrun.
  pass Hrun Esbs. pass Hrun Etok. fold (signedMessage sbs) in Hrun.
  assert (Est : forall (A : Type) (a b : A),
             match sbs_Status sbs with
             | BillingStatusActive | BillingStatusClosed
             | BillingStatusCompleted => a
             | _ => b
             end = a).
  { intros A a b. simpl in Hst.
    destruct Hst as [<-|[<-|[<-|[]]]]; reflexivity. }
  pass Hrun Est. pass Hrun Esig.
  assert (Ereason : bool_decide (sbs_Status sbs = BillingStatusClosed)
                    && String.eqb (sbs_Reason sbs) "" = false).
  { destruct Hreason as [Hs|Hr].
    - rewrite bool_decide_eq_false_2 by exact Hs. reflexivity.
    - apply String.eqb_neq in Hr. rewrite Hr. apply andb_false_r. }
  pass Hrun Ereason. pass Hrun Evsr. rewrite Hvote in Hrun.
  rewrite bool_decide_eq_false_2 in Hrun by (intros Hne; apply Hne; reflexivity).
  reduce_run Hrun.
  pass Hrun Er. pass Hrun Evm. pass Hrun Erfp. pass Hrun Ebscs.
  apply Z.ltb_ge in Hmax. pass Hrun Hmax. pass Hrun Eallowed.
  unfold billingStatusSave in Hrun.
  fold (billingStatusChangeOf now sbs) in Hrun. pass Hrun Ebe.
  rewrite Hrun. unfold withTstore.
  destruct (BlobSave (tstore p) token be) as [ts [e|]]; simpl;
    [reflexivity|].
  destruct (json_Marshal_SetBillingStatusReply _); reflexivity.
Qed.

Lemma billingStatusDecodeAll_snoc blobs be l c :
  billingStatusDecodeAll blobs = Ok l ->
  billingStatusDecode be = Ok c ->
  billingStatusDecodeAll (blobs ++ [be]) = Ok (l ++ [c]).
Proof.
  intros Hl Hc. apply billingStatusDecodeAll_Forall2.
  apply Forall2_app.
  - apply billingStatusDecodeAll_Forall2, Hl.
  - constructor; [exact Hc|constructor].
Qed.

(** The history of the plugin that has saved the blob [be] of the
    change [c], over a store that returns the saved blob behind the
    blobs it had. *)
Lemma billingStatusChanges_after_save p token bscs blobs be c :
  BlobsByDataDesc (tstore p) token [dataDescriptorBillingStatus] = Ok blobs ->
  piPlugin_billingStatusChanges p token = Ok bscs ->
  BlobsByDataDesc (fst (BlobSave (tstore p) token be)) token
    [dataDescriptorBillingStatus] = Ok (blobs ++ [be]) ->
  billingStatusDecode be = Ok c ->
  piPlugin_billingStatusChanges
    (withTstore p (fst (BlobSave (tstore p) token be))) token
    = Ok (insertByTimestamp c bscs).
Proof.
  intros Hblobs Hbscs Hsaved Hdec.
  unfold piPlugin_billingStatusChanges in Hbscs |- *. simpl.
  rewrite Hblobs in Hbscs. simpl in Hbscs. rewrite Hsaved. simpl.
  destruct (billingStatusDecodeAll blobs) as [l|e] eqn:Hl; simpl in Hbscs;
    [|discriminate].
  injection Hbscs as <-.
  rewrite (billingStatusDecodeAll_snoc blobs be l c Hl Hdec). simpl.
  rewrite sortByTimestamp_snoc. reflexivity.
Qed.

Lemma insertByTimestamp_before_last c l d :
  (Timestamp c < Timestamp d)%Z ->
  exists l', insertByTimestamp c (l ++ [d]) = l' ++ [d].
Proof.
  intros Hlt. induction l as [|x l [l' IH]]; simpl.
  - apply Z.ltb_lt in Hlt. rewrite Hlt. exists [c]. reflexivity.
  - destruct (Timestamp c <? Timestamp x)%Z.
    + exists (c :: x :: l). reflexivity.
    + rewrite IH. exists (x :: l'). reflexivity.
Qed.

(** X8: set, then read.  When every check passes and [BlobSave] saves
    the blob, over a store that returns a saved blob behind the blobs
    it had and with a codec that carries the change, and when no
    earlier change has a later timestamp than the clock, then the
    history of the proposal is the earlier history with the new change
    at its end, the billing status of the proposal is the requested
    one, and a summary that finds a cached vote status for the token
    reports the proposal status of the requested billing status: the
    cache does not make it stale. *)
Theorem cmdSetBillingStatus_then_read :
  forall (now : Z) (token : option bytes) (payload : string) (p : piPlugin)
         (sbs : SetBillingStatus) (vsr : ticketvote.SummaryReply)
         (r : Record_) (vm : option VoteMetadata)
         (bscs : list BillingStatusChange)
         (blobs : list store.BlobEntry) (be : store.BlobEntry),
    let bsc := billingStatusChangeOf now sbs in
    let saved := BlobSave (tstore p) token be in
    setBillingStatusChecked token payload p sbs vsr r vm bscs ->
    billingStatusEncode bsc = Ok be ->
    billingStatusDecode be = Ok bsc ->
    BlobsByDataDesc (tstore p) token [dataDescriptorBillingStatus] = Ok blobs ->
    snd saved = None ->
    BlobsByDataDesc (fst saved) token [dataDescriptorBillingStatus]
      = Ok (blobs ++ [be]) ->
    Forall (fun c => Timestamp c <= now)%Z bscs ->
    exists (p' : piPlugin) (reply : result string),
      cmdSetBillingStatus now token payload p = Some (p', reply)
      /\ tstore p' = fst saved
      /\ piPlugin_billingStatusChanges p' token = Ok (bscs ++ [bsc])
      /\ proposalBillingStatus VoteStatusApproved (bscs ++ [bsc])
         = sbs_Status sbs
      /\ (forall v : VoteStatusT,
            cacheDataGet (cache p) (hex_EncodeToString (slice_bytes token))
              = Some {| proposalStatus_ := None; voteStatus_ := Some v |} ->
            cmdSummary token p' =
              Some (p', summaryJSON
                          match sbs_Status sbs with
                          | BillingStatusClosed => PropStatusClosed
                          | BillingStatusCompleted => PropStatusCompleted
                          | _ => PropStatusActive
                          end)).
Proof.
  intros now token payload p sbs vsr r vm bscs blobs be bsc saved
    Hchk Henc Hdec Hblobs Hsave Hsaved Hclock.
  subst bsc saved.
  eexists. eexists.
  split; [apply (cmdSetBillingStatus_checked_run _ _ _ _ _ _ _ _ _ _ Hchk Henc)|].
  split; [reflexivity|].
  assert (Hbscs : piPlugin_billingStatusChanges p token = Ok bscs)
    by apply Hchk.
  assert (Hhist :
    piPlugin_billingStatusChanges
      (withTstore p (fst (BlobSave (tstore p) token be))) token
      = Ok (bscs ++ [billingStatusChangeOf now sbs])).
  { rewrite (billingStatusChanges_after_save p token bscs blobs be
               (billingStatusChangeOf now sbs) Hblobs Hbscs Hsaved Hdec).
    rewrite insertByTimestamp_last; [reflexivity|].
    eapply Forall_impl; [exact Hclock|]. intros c Hc. simpl. exact Hc. }
  split; [exact Hhist|].
  split; [apply proposalBillingStatus_approved_snoc|].
  intros v Hcached. unfold cmdSummary. cbv zeta.
  change (cache (withTstore p (fst (BlobSave (tstore p) token be))))
    with (cache p).
  rewrite Hcached. unfold bindM, read, lift.
  rewrite Hhist. cbv beta iota zeta.
  unfold proposalStatusApproved. simpl isRFP. cbv beta iota zeta.
  rewrite proposalBillingStatus_approved_snoc.
  assert (Hst : In (sbs_Status sbs)
            [BillingStatusActive; BillingStatusClosed; BillingStatusCompleted])
    by apply Hchk.
  simpl in Hst. simpl Status.
  destruct Hst as [<-|[<-|[<-|[]]]]; cbv beta iota zeta;
    apply summaryReply_run.
Qed.

(** X9: the billing status follows the timestamps and not the order of
    the writes.  Under the conditions of X8 but with a clock that is
    behind the timestamp of the last change, the change that was set
    is in the history, yet the last change of the history, and so the
    billing status of the proposal, is the one it was. *)
Theorem cmdSetBillingStatus_clock_behind :
  forall (now : Z) (token : option bytes) (payload : string) (p : piPlugin)
         (sbs : SetBillingStatus) (vsr : ticketvote.SummaryReply)
         (r : Record_) (vm : option VoteMetadata)
         (earlier : list BillingStatusChange) (latest : BillingStatusChange)
         (blobs : list store.BlobEntry) (be : store.BlobEntry),
    let bsc := billingStatusChangeOf now sbs in
    let saved := BlobSave (tstore p) token be in
    setBillingStatusChecked token payload p sbs vsr r vm (earlier ++ [latest]) ->
    billingStatusEncode bsc = Ok be ->
    billingStatusDecode be = Ok bsc ->
    BlobsByDataDesc (tstore p) token [dataDescriptorBillingStatus] = Ok blobs ->
    snd saved = None ->
    BlobsByDataDesc (fst saved) token [dataDescriptorBillingStatus]
      = Ok (blobs ++ [be]) ->
    (now < Timestamp latest)%Z ->
    exists (p' : piPlugin) (reply : result string)
           (bscs' : list BillingStatusChange),
      cmdSetBillingStatus now token payload p = Some (p', reply)
      /\ piPlugin_billingStatusChanges p' token = Ok bscs'
      /\ In bsc bscs'
      /\ proposalBillingStatus VoteStatusApproved bscs' = Status latest
      /\ Status latest <> sbs_Status sbs.
Proof.
  intros now token payload p sbs vsr r vm earlier latest blobs be bsc saved
    Hchk Henc Hdec Hblobs Hsave Hsaved Hclock.
  subst bsc saved.
  assert (Hbscs : piPlugin_billingStatusChanges p token
                  = Ok (earlier ++ [latest])) by apply Hchk.
  destruct (insertByTimestamp_before_last (billingStatusChangeOf now sbs)
              earlier latest Hclock) as [l' Hl'].
  exists (withTstore p (fst (BlobSave (tstore p) token be))).
  eexists. exists (l' ++ [latest]).
  split; [apply (cmdSetBillingStatus_checked_run _ _ _ _ _ _ _ _ _ _ Hchk Henc)|].
  split.
  { rewrite (billingStatusChanges_after_save p token _ blobs be
               (billingStatusChangeOf now sbs) Hblobs Hbscs Hsaved Hdec).
    rewrite Hl'. reflexivity. }
  split.
  { rewrite <- Hl'. apply list_elem_of_In.
    rewrite insertByTimestamp_Permutation. left. }
  split; [apply proposalBillingStatus_approved_snoc|].
  intros Heq.
  assert (Hallowed : billingStatusChangeAllowed
            (proposalBillingStatus VoteStatusApproved (earlier ++ [latest]))
            (sbs_Status sbs) = true) by apply Hchk.
  rewrite proposalBillingStatus_approved_snoc, Heq in Hallowed.
  rewrite billingStatusChangeAllowed_table in Hallowed.
  destruct (sbs_Status sbs); discriminate.
Qed.

End SetThenRead.

(* ================================================================== *)
(** ** The maximum number of changes at the end of [uint32] *)
(* ================================================================== *)





(* ================================================================== *)
(** ** Further properties: the cache and the summary command *)
(* ================================================================== *)

Section CacheSetProperties.
Context {lib : Library}.

(** What a set leaves of the cache: the data written for its token,
    and for another token the data it had, or nothing when it was the
    oldest entry of a full cache and the set token is new. *)
Lemma cacheSet_lookup upd c token c' :
  cacheSet upd c token = Some c' ->
  cacheDataGet c' token = Some (upd (cacheDataGet c token))
  /\ (forall t, t <> token ->
        cacheDataGet c' t = cacheDataGet c t
        \/ (cacheDataGet c' t = None
            /\ cacheDataGet c token = None
            /\ head (entries c) = Some t
            /\ Z.of_nat (length (entries c)) = piCacheLimit)).
Proof.
  unfold cacheDataGet, cacheSet.
  destruct (data c !! token) as [d|] eqn:Hd.
  - intros [= <-]. simpl. split; [apply lookup_insert_eq|].
    intros t Hne. left. apply lookup_insert_ne. congruence.
  - destruct (Z.eqb_spec (Z.of_nat (length (entries c))) piCacheLimit)
      as [Hfull|Hroom].
    + destruct (entries c) as [|oldest rest] eqn:He; [discriminate|].
      intros [= <-]. simpl. split; [apply lookup_insert_eq|].
      intros t Hne. rewrite lookup_insert_ne by congruence.
      destruct (decide (oldest = t)) as [<-|Hno].
      * right. rewrite lookup_delete_eq. auto.
      * left. apply lookup_delete_ne. exact Hno.
    + intros [= <-]. simpl. split; [apply lookup_insert_eq|].
      intros t Hne. left. apply lookup_insert_ne. congruence.
Qed.

(** X10: set, then get.  Unless the capacity is zero, a vote status or
    a proposal status that is set is what a get of the token returns,
    beside the other status that the token had; the data of every
    other token are as before, except that the oldest entry is gone
    when the token is new and the cache is full. *)
Theorem cache_set_then_get :
  piCacheLimit <> 0%Z ->
  forall (c : Cache) (token : string),
    (forall status : VoteStatusT,
        exists c' : Cache,
          cacheVoteStatusSet c token status = Some c'
          /\ cacheDataGet c' token
             = Some {| proposalStatus_ :=
                         cacheDataGet c token ≫= proposalStatus_;
                       voteStatus_ := Some status |}
          /\ (forall t, t <> token ->
                cacheDataGet c' t = cacheDataGet c t
                \/ (cacheDataGet c' t = None
                    /\ cacheDataGet c token = None
                    /\ head (entries c) = Some t
                    /\ Z.of_nat (length (entries c)) = piCacheLimit)))
    /\ (forall status : PropStatusT,
          exists c' : Cache,
            cacheProposalStatusSet c token status = Some c'
            /\ cacheDataGet c' token
               = Some {| proposalStatus_ := Some status;
                         voteStatus_ :=
                           cacheDataGet c token ≫= voteStatus_ |}
            /\ (forall t, t <> token ->
                  cacheDataGet c' t = cacheDataGet c t
                  \/ (cacheDataGet c' t = None
                      /\ cacheDataGet c token = None
                      /\ head (entries c) = Some t
                      /\ Z.of_nat (length (entries c)) = piCacheLimit))).
Proof.
  intros HK c token. split; intros status.
  - rewrite cacheVoteStatusSet_cacheSet.
    destruct (cacheSet_written (withVoteStatus status) c token HK)
      as (c' & Hset & _).
    exists c'. split; [exact Hset|].
    apply (cacheSet_lookup _ _ _ _ Hset).
  - rewrite cacheProposalStatusSet_cacheSet.
    destruct (cacheSet_written (withProposalStatus status) c token HK)
      as (c' & Hset & _).
    exists c'. split; [exact Hset|].
    apply (cacheSet_lookup _ _ _ _ Hset).
Qed.

(** X11: the invariant of the cache is kept by every set, from every
    cache that has it and not only from the empty one: the list holds
    each token of the map once, and it is not longer than the
    capacity. *)
Theorem cache_invariant_kept :
  (0 < piCacheLimit)%Z ->
  forall (c : Cache) (op : cacheOp),
    cacheInv c ->
    exists c' : Cache,
      cacheStep c op = Some c'
      /\ cacheInv c'
      /\ size (data c') = length (entries c').
Proof.
  intros HK c op Hinv.
  destruct (cacheStep_inv c op HK Hinv) as (c' & Hstep & Hinv').
  exists c'. split; [exact Hstep|]. split; [exact Hinv'|].
  apply cacheInv_size, Hinv'.
Qed.

Lemma cache_zero_capacity_panics_aux :
  piCacheLimit = 0%Z ->
  forall (c : Cache) (token : string),
    entries c = [] ->
    cacheDataGet c token = None ->
    (forall status, cacheVoteStatusSet c token status = None)
    /\ (forall status, cacheProposalStatusSet c token status = None).
Proof.
  intros HK c token He Hd. unfold cacheDataGet in Hd.
  split; intros status.
  - unfold cacheVoteStatusSet. rewrite Hd, He, HK. reflexivity.
  - unfold cacheProposalStatusSet. rewrite Hd, He, HK. reflexivity.
Qed.

End CacheSetProperties.

Section SummaryProperties.
Context {lib : Library} {bk : Backend}.

Lemma summaryFetch_frame token mdState mdStatus p :
  exists r, summaryFetch token mdState mdStatus p = Some (p, r).
Proof.
  unfold summaryFetch, bindM, read, ret.
  destruct (bool_decide (mdState = StateVetted)); [|eauto].
  destruct (bool_decide (mdStatus = StatusPublic)); [|eauto].
  destruct (voteSummary (tstore p) token) as [vs|e]; [|eauto].
  cbv beta iota zeta.
  destruct (bool_decide (ticketvote.Status vs = VoteStatusApproved)); [|eauto].
  destruct (piPlugin_billingStatusChanges p token); eauto.
Qed.

(** What a run of the part of [cmdSummary] below the cache lookups
    leaves of the plugin. *)
Lemma summaryFromRecord_cases token tokenStr p p' r :
  summaryFromRecord token tokenStr p = Some (p', r) ->
  p' = p
  \/ (exists s c', In s terminalStatuses
        /\ cacheProposalStatusSet (cache p) tokenStr s = Some c'
        /\ p' = withCache p c' /\ r = summaryJSON s)
  \/ (exists s c', In s quasiTerminalStatuses
        /\ cacheVoteStatusSet (cache p) tokenStr VoteStatusApproved = Some c'
        /\ p' = withCache p c' /\ r = summaryJSON s).
Proof.
  intros Hrun.
  destruct (record p (voteMetadataRequest token)) as [rec|e] eqn:Er.
  2:{ unfold summaryFromRecord, bindM at 1, read in Hrun.
      fold (voteMetadataRequest token) in Hrun. rewrite Er in Hrun.
      left. congruence. }
  destruct (voteMetadataDecode (Files rec)) as [voteMD|e] eqn:Evm.
  2:{ unfold summaryFromRecord, bindM at 1 2, read, lift in Hrun.
      fold (voteMetadataRequest token) in Hrun. rewrite Er in Hrun.
      cbv beta iota zeta in Hrun. rewrite Evm in Hrun.
      left. congruence. }
  destruct (summaryFetch_frame token (State (RecordMetadata_ rec))
              (rm_Status (RecordMetadata_ rec)) p) as [[[vs bscs]|e] Efetch].
  2:{ unfold summaryFromRecord, bindM at 1 2 3, read, lift in Hrun.
      fold (voteMetadataRequest token) in Hrun. rewrite Er in Hrun.
      cbv beta iota zeta in Hrun. rewrite Evm in Hrun.
      cbv beta iota zeta in Hrun. rewrite Efetch in Hrun.
      left. congruence. }
  destruct (proposalStatus (State (RecordMetadata_ rec))
              (rm_Status (RecordMetadata_ rec)) vs voteMD bscs)
    as [s|e] eqn:Es.
  2:{ unfold summaryFromRecord, bindM at 1 2 3 4, read, lift in Hrun.
      fold (voteMetadataRequest token) in Hrun. rewrite Er in Hrun.
      cbv beta iota zeta in Hrun. rewrite Evm in Hrun.
      cbv beta iota zeta in Hrun. rewrite Efetch in Hrun.
      cbv beta iota zeta in Hrun. simpl fst in Hrun. simpl snd in Hrun.
      rewrite Es in Hrun. left. congruence. }
  rewrite (summaryFromRecord_run token tokenStr p rec voteMD vs bscs s
             Er Evm Efetch Es) in Hrun.
  destruct (decide (In s terminalStatuses)) as [Hterm|Hterm].
  - rewrite bool_decide_eq_true_2 in Hrun by exact Hterm.
    destruct (cacheProposalStatusSet (cache p) tokenStr s) as [c'|] eqn:Hset;
      [|discriminate].
    injection Hrun as <- <-. right. left. exists s, c'. auto.
  - rewrite bool_decide_eq_false_2 in Hrun by exact Hterm.
    destruct (decide (In s quasiTerminalStatuses)) as [Hquasi|Hquasi].
    + rewrite bool_decide_eq_true_2 in Hrun by exact Hquasi.
      assert (Hvs : vs = VoteStatusApproved)
        by exact (proposalStatus_quasi_approved _ _ _ _ _ _ Es Hquasi).
      subst vs.
      destruct (cacheVoteStatusSet (cache p) tokenStr VoteStatusApproved)
        as [c'|] eqn:Hset; [|discriminate].
      injection Hrun as <- <-. right. right. exists s, c'. auto.
    + rewrite bool_decide_eq_false_2 in Hrun by exact Hquasi.
      left. congruence.
Qed.

Lemma cmdSummary_cases token p p' r :
  cmdSummary token p = Some (p', r) ->
  let tokenStr := hex_EncodeToString (slice_bytes token) in
  p' = p
  \/ (exists s c', In s terminalStatuses
        /\ cacheProposalStatusSet (cache p) tokenStr s = Some c'
        /\ p' = withCache p c' /\ r = summaryJSON s)
  \/ (exists s c', In s quasiTerminalStatuses
        /\ cacheVoteStatusSet (cache p) tokenStr VoteStatusApproved = Some c'
        /\ p' = withCache p c' /\ r = summaryJSON s).
Proof.
  intros Hrun tokenStr. subst tokenStr.
  unfold cmdSummary in Hrun. cbv zeta in Hrun.
  destruct (cacheDataGet (cache p) (hex_EncodeToString (slice_bytes token)))
    as [[[s|] [v|]]|] eqn:Hd.
  - rewrite summaryReply_run in Hrun. left. congruence.
  - rewrite summaryReply_run in Hrun. left. congruence.
  - unfold bindM, read, lift in Hrun.
    destruct (piPlugin_billingStatusChanges p token) as [bscs|e];
      [|left; congruence].
    cbv beta iota zeta in Hrun.
    destruct (proposalStatusApproved None bscs) as [s|e];
      [|left; congruence].
    cbv beta iota zeta in Hrun.
    rewrite summaryReply_run in Hrun. left. congruence.
  - apply (summaryFromRecord_cases token _ p p' r Hrun).
  - apply (summaryFromRecord_cases token _ p p' r Hrun).
Qed.

(** X12: the summary command writes only the cache, and only what may
    be cached: it leaves the store and the maximum as they were, and
    when every proposal status of the cache is terminal and every vote
    status of the cache is Approved before the command, so it is
    after it. *)
Theorem cmdSummary_keeps_cache_content :
  forall (token : option bytes) (p p' : piPlugin) (r : result string),
    cmdSummary token p = Some (p', r) ->
    tstore p' = tstore p
    /\ billingStatusChangesMax p' = billingStatusChangesMax p
    /\ (cacheContentOk (cache p) -> cacheContentOk (cache p')).
Proof.
  intros token p p' r Hrun.
  destruct (cmdSummary_cases token p p' r Hrun)
    as [->|[(s & c' & Hs & Hset & -> & _)|(s & c' & Hs & Hset & -> & _)]].
  - auto.
  - split; [reflexivity|]. split; [reflexivity|]. simpl.
    intros Hok t d Hd.
    rewrite cacheProposalStatusSet_cacheSet in Hset.
    destruct (cacheSet_lookup _ _ _ _ Hset) as [Hnew Hold].
    destruct (decide (t = hex_EncodeToString (slice_bytes token)))
      as [->|Hne].
    + rewrite Hnew in Hd. injection Hd as <-. simpl. split.
      * intros s' [= <-]. exact Hs.
      * intros v Hv.
        destruct (cacheDataGet (cache p)
                    (hex_EncodeToString (slice_bytes token)))
          as [d0|] eqn:Hd0; [|discriminate].
        apply (proj2 (Hok _ _ Hd0)). exact Hv.
    + destruct (Hold t Hne) as [Heq|[Hnone _]].
      * rewrite Heq in Hd. apply (Hok _ _ Hd).
      * rewrite Hnone in Hd. discriminate.
  - split; [reflexivity|]. split; [reflexivity|]. simpl.
    intros Hok t d Hd.
    rewrite cacheVoteStatusSet_cacheSet in Hset.
    destruct (cacheSet_lookup _ _ _ _ Hset) as [Hnew Hold].
    destruct (decide (t = hex_EncodeToString (slice_bytes token)))
      as [->|Hne].
    + rewrite Hnew in Hd. injection Hd as <-. simpl. split.
      * intros s' Hs'.
        destruct (cacheDataGet (cache p)
                    (hex_EncodeToString (slice_bytes token)))
          as [d0|] eqn:Hd0; [|discriminate].
        apply (proj1 (Hok _ _ Hd0)). exact Hs'.
      * intros v [= <-]. reflexivity.
    + destruct (Hold t Hne) as [Heq|[Hnone _]].
      * rewrite Heq in Hd. apply (Hok _ _ Hd).
      * rewrite Hnone in Hd. discriminate.
Qed.

(** The fast path of [cmdSummary]. *)
Lemma cmdSummary_cached_run (token : option bytes) (p : piPlugin)
  (d : cacheData) (s : PropStatusT) (ts : Tstore) :
  cacheDataGet (cache p) (hex_EncodeToString (slice_bytes token)) = Some d ->
  proposalStatus_ d = Some s ->
  cmdSummary token (withTstore p ts)
    = Some (withTstore p ts, summaryJSON s).
Proof.
  destruct d as [ps vs]. intros Hd Hs. simpl in Hs. subst ps.
  unfold cmdSummary. cbv zeta.
  change (cache (withTstore p ts)) with (cache p). rewrite Hd.
  apply summaryReply_run.
Qed.

(** X13: a cached proposal status is the summary, whatever the backend
    holds: with the same cache the command returns the cached status
    for every state of the store, reads nothing and writes nothing. *)
Theorem cmdSummary_cached_status :
  forall (token : option bytes) (p : piPlugin) (d : cacheData)
         (s : PropStatusT) (ts : Tstore),
    cacheDataGet (cache p) (hex_EncodeToString (slice_bytes token)) = Some d ->
    proposalStatus_ d = Some s ->
    cmdSummary token (withTstore p ts)
      = Some (withTstore p ts, summaryJSON s).
Proof.
  intros token p d s ts. apply cmdSummary_cached_run.
Qed.

(** X14: summary, then summary.  After a summary on the slow path that
    gave a terminal status, the status is in the cache under the
    token, and every later summary of the token that still finds this
    entry gives the same reply, whatever the store and the other
    entries of the cache have become.  The entry does not stay for
    ever: the cache drops its oldest entry when it is full.  The
    capacity of the cache is not zero. *)
Theorem cmdSummary_terminal_while_cached :
  forall (token : option bytes) (p : piPlugin) (r : Record_)
         (voteMD : option VoteMetadata) (voteStatus : VoteStatusT)
         (bscs : list BillingStatusChange) (s : PropStatusT),
    let tokenStr := hex_EncodeToString (slice_bytes token) in
    let mdState := State (RecordMetadata_ r) in
    let mdStatus := rm_Status (RecordMetadata_ r) in
    piCacheLimit <> 0%Z ->
    (cacheDataGet (cache p) tokenStr = None
     \/ cacheDataGet (cache p) tokenStr
        = Some {| proposalStatus_ := None; voteStatus_ := None |}) ->
    record p (voteMetadataRequest token) = Ok r ->
    voteMetadataDecode (Files r) = Ok voteMD ->
    summaryFetch token mdState mdStatus p = Some (p, Ok (voteStatus, bscs)) ->
    proposalStatus mdState mdStatus voteStatus voteMD bscs = Ok s ->
    In s terminalStatuses ->
    exists p' : piPlugin,
      cmdSummary token p = Some (p', summaryJSON s)
      /\ tstore p' = tstore p
      /\ cacheDataGet (cache p') tokenStr ≫= proposalStatus_ = Some s
      /\ forall p'' : piPlugin,
           cacheDataGet (cache p'') tokenStr
             = cacheDataGet (cache p') tokenStr ->
           cmdSummary token p'' = Some (p'', summaryJSON s).
Proof.
  intros token p r voteMD voteStatus bscs s tokenStr mdState mdStatus
    HK Hcache Er Evm Efetch Es Hterm.
  subst tokenStr mdState mdStatus.
  rewrite (cmdSummary_slow_path token p Hcache).
  rewrite (summaryFromRecord_run token _ p r voteMD voteStatus bscs s
             Er Evm Efetch Es).
  rewrite bool_decide_eq_true_2 by exact Hterm.
  rewrite cacheProposalStatusSet_cacheSet.
  destruct (cacheSet_written (withProposalStatus s) (cache p)
              (hex_EncodeToString (slice_bytes token)) HK)
    as (c' & -> & Hget).
  exists (withCache p c'). split; [reflexivity|]. split; [reflexivity|].
  simpl cache. rewrite Hget. split; [reflexivity|].
  intros p'' Hsame.
  assert (Hp : withTstore p'' (tstore p'') = p'') by (destruct p''; reflexivity).
  rewrite <- Hp at 1 2.
  apply (cmdSummary_cached_run token p'' _ s (tstore p'') Hsame).
  reflexivity.
Qed.

(** X15: with a capacity of zero the first summary that has something
    to cache panics: on the slow path, with an empty cache, a terminal
    status and Active, Completed and Closed end the command in the
    panic of the cache. *)
Theorem cmdSummary_zero_capacity_panics :
  forall (token : option bytes) (p : piPlugin) (r : Record_)
         (voteMD : option VoteMetadata) (voteStatus : VoteStatusT)
         (bscs : list BillingStatusChange) (s : PropStatusT),
    let mdState := State (RecordMetadata_ r) in
    let mdStatus := rm_Status (RecordMetadata_ r) in
    piCacheLimit = 0%Z ->
    cache p = emptyCache ->
    record p (voteMetadataRequest token) = Ok r ->
    voteMetadataDecode (Files r) = Ok voteMD ->
    summaryFetch token mdState mdStatus p = Some (p, Ok (voteStatus, bscs)) ->
    proposalStatus mdState mdStatus voteStatus voteMD bscs = Ok s ->
    In s terminalStatuses \/ In s quasiTerminalStatuses ->
    cmdSummary token p = None.
Proof.
  intros token p r voteMD voteStatus bscs s mdState mdStatus
    HK Hempty Er Evm Efetch Es Hs.
  subst mdState mdStatus.
  assert (Hnone : forall t, cacheDataGet (cache p) t = None).
  { intros t. rewrite Hempty. unfold cacheDataGet. simpl. apply lookup_empty. }
  rewrite (cmdSummary_slow_path token p) by (left; apply Hnone).
  rewrite (summaryFromRecord_run token _ p r voteMD voteStatus bscs s
             Er Evm Efetch Es).
  assert (He : entries (cache p) = []) by (rewrite Hempty; reflexivity).
  destruct (cache_zero_capacity_panics_aux HK (cache p)
              (hex_EncodeToString (slice_bytes token)) He (Hnone _))
    as [Hv Hp].
  destruct Hs as [Hterm|Hquasi].
  - rewrite bool_decide_eq_true_2 by exact Hterm. rewrite Hp. reflexivity.
  - rewrite bool_decide_eq_false_2
      by (simpl in Hquasi |- *; intuition (subst; discriminate)).
    rewrite bool_decide_eq_true_2 by exact Hquasi. rewrite Hv. reflexivity.
Qed.

End SummaryProperties.

(* ================================================================== *)
(** ** Further properties: helpers of the commands *)
(* ================================================================== *)

Section HelperProperties.
Context {lib : Library} {bk : Backend}.

(** X16: [tokenMatches] accepts a payload token exactly when it decodes
    to the bytes of the command token, a nil command token counting as
    the empty one; every refusal is a plugin error with the code
    TokenInvalid. *)
Theorem tokenMatches_iff :
  forall (cmdToken : option bytes) (payloadToken : string),
    (tokenMatches cmdToken payloadToken = Ok tt <->
       tokenDecode payloadToken = Ok (slice_bytes cmdToken))
    /\ (forall e : error,
          tokenMatches cmdToken payloadToken = Err e ->
          exists context : message,
            e = PluginError ErrorCodeTokenInvalid context).
Proof.
  intros cmdToken payloadToken. unfold tokenMatches.
  destruct (tokenDecode payloadToken) as [pt|e0].
  - destruct (decide (slice_bytes cmdToken = pt)) as [Heq|Hne].
    + rewrite bool_decide_eq_true_2 by exact Heq. simpl. split.
      * split; [intros _; congruence|reflexivity].
      * intros e He. discriminate.
    + rewrite bool_decide_eq_false_2 by exact Hne. simpl. split.
      * split; [discriminate|]. intros [= Hpt]. congruence.
      * intros e [= <-]. eauto.
  - split.
    + split; discriminate.
    + intros e [= <-]. eauto.
Qed.

(** X17: [convertSignatureError] always gives a plugin error.  Its
    code is PublicKeyInvalid or SignatureInvalid for a signature error
    of that status; for a signature error of another status, and for
    an error that is no signature error, the code is the zero value,
    and in the latter case the text of the error is dropped. *)
Theorem convertSignatureError_codes :
  forall err : error,
    (exists (code : ErrorCodeT) (context : string),
        convertSignatureError err = PluginError code (Text context)
        /\ (code = ErrorCodePublicKeyInvalid <->
              exists ctx, err = SignatureError ErrorStatusPublicKeyInvalid ctx)
        /\ (code = ErrorCodeSignatureInvalid <->
              exists ctx, err = SignatureError ErrorStatusSignatureInvalid ctx)
        /\ (code = ErrorCodePublicKeyInvalid
            \/ code = ErrorCodeSignatureInvalid
            \/ code = ErrorCodeInvalid))
    /\ ((forall code ctx, err <> SignatureError code ctx) ->
        convertSignatureError err = PluginError ErrorCodeInvalid (Text "")).
Proof.
  intros err. split.
  - destruct err as [c m|m| |[| |v] ctx|pkg text]; simpl;
      eexists; eexists; (split; [reflexivity|]);
      repeat split; try discriminate; try tauto; eauto;
      try (intros [ctx' H]; discriminate).
  - intros Hno. destruct err as [c m|m| |code ctx|pkg text]; try reflexivity.
    exfalso. apply (Hno code ctx). reflexivity.
Qed.

(** X18: a change that [billingStatusDecode] returns is the JSON of the
    data of a blob whose hint names the billing status descriptor and
    whose digest is the digest of its data: no change comes out of a
    blob of another plugin or of data that were altered. *)
Theorem billingStatusDecode_inversion :
  forall (be : store.BlobEntry) (bsc : BillingStatusChange),
    billingStatusDecode be = Ok bsc ->
    exists (hint data : bytes) (dd : store.DataDescriptor),
      base64_DecodeString (store.DataHint be) = Ok hint
      /\ json_Unmarshal_DataDescriptor hint = Ok dd
      /\ store.Descriptor dd = dataDescriptorBillingStatus
      /\ base64_DecodeString (store.Data be) = Ok data
      /\ hex_DecodeString (store.Digest be) = Ok (util_Digest data)
      /\ json_Unmarshal_BillingStatusChange data = Ok bsc.
Proof.
  intros be bsc Hdec. unfold billingStatusDecode in Hdec.
  destruct (base64_DecodeString (store.DataHint be)) as [hint|e] eqn:Hhint;
    simpl in Hdec; [|discriminate].
  destruct (json_Unmarshal_DataDescriptor hint) as [dd|e] eqn:Hdd;
    simpl in Hdec; [|discriminate].
  destruct (String.eqb_spec (store.Descriptor dd) dataDescriptorBillingStatus)
    as [Hdesc|Hdesc]; simpl in Hdec; [|discriminate].
  destruct (base64_DecodeString (store.Data be)) as [data|e] eqn:Hdata;
    simpl in Hdec; [|discriminate].
  destruct (hex_DecodeString (store.Digest be)) as [digest|e] eqn:Hdigest;
    simpl in Hdec; [|discriminate].
  destruct (decide (util_Digest data = digest)) as [Heq|Hne].
  - rewrite bool_decide_eq_true_2 in Hdec by exact Heq. simpl in Hdec.
    destruct (json_Unmarshal_BillingStatusChange data) as [c|e] eqn:Hc;
      simpl in Hdec; [|discriminate].
    injection Hdec as <-. subst digest.
    exists hint, data, dd. auto 10.
  - rewrite bool_decide_eq_false_2 in Hdec by exact Hne. discriminate.
Qed.

(** X19: a status that [proposalStatus] returns is never the invalid
    one: it is of exactly one of the three kinds, terminal,
    quasi-terminal (only with an approved vote on a vetted public
    record) or transient, so the choice of what to cache in
    [cmdSummary] misses no status. *)
Theorem proposalStatus_kinds :
  forall (state : StateT) (status : StatusT) (voteStatus : VoteStatusT)
         (voteMD : option VoteMetadata) (bscs : list BillingStatusChange)
         (s : PropStatusT),
    proposalStatus state status voteStatus voteMD bscs = Ok s ->
    s <> PropStatusInvalid
    /\ ((In s terminalStatuses
         /\ ~ In s quasiTerminalStatuses /\ ~ In s transientStatuses)
        \/ (In s quasiTerminalStatuses
            /\ ~ In s terminalStatuses /\ ~ In s transientStatuses
            /\ state = StateVetted /\ status = StatusPublic
            /\ voteStatus = VoteStatusApproved /\ isRFP voteMD = false)
        \/ (In s transientStatuses
            /\ ~ In s terminalStatuses /\ ~ In s quasiTerminalStatuses)).
Proof.
  intros state status voteStatus voteMD bscs s Hs.
  assert (Hcases :
    (state = StateVetted /\ status = StatusPublic
     /\ voteStatus = VoteStatusApproved
     /\ proposalStatusApproved voteMD bscs = Ok s)
    \/ In s [PropStatusUnvetted; PropStatusUnvettedAbandoned;
             PropStatusUnvettedCensored; PropStatusAbandoned;
             PropStatusCensored; PropStatusUnderReview;
             PropStatusVoteAuthorized; PropStatusVoteStarted;
             PropStatusRejected]).
  { destruct state, status; simpl in Hs; try discriminate;
      try (injection Hs as <-; right; simpl; tauto).
    destruct voteStatus; simpl in Hs; try discriminate;
      try (injection Hs as <-; right; simpl; tauto).
    left. auto. }
  destruct Hcases as [(-> & -> & -> & Happ)|Hin].
  - unfold proposalStatusApproved in Happ.
    destruct (isRFP voteMD) eqn:Hrfp.
    + injection Happ as <-. split; [discriminate|]. left.
      simpl. split; [tauto|]. split; intuition discriminate.
    + cbv zeta in Happ.
      destruct (proposalBillingStatus VoteStatusApproved bscs);
        try discriminate; injection Happ as <-;
        (split; [discriminate|]); right; left; simpl;
        (split; [tauto|]);
        repeat split; try reflexivity; intuition discriminate.
  - simpl in Hin.
    destruct Hin as [<-|[<-|[<-|[<-|[<-|[<-|[<-|[<-|[<-|[]]]]]]]]]];
      (split; [discriminate|]); simpl;
      first [ left; split; [tauto|]; split; intuition discriminate
            | right; right; split; [tauto|]; split; intuition discriminate ].
Qed.

End HelperProperties.

Section StatusChangesProperties.
Context {lib : Library} {bk : Backend} {um : Usermd}.

Lemma statusChangesDecode_skip pre rest :
  Forall (fun v => ~ isStatusChangeStream v) pre ->
  statusChangesDecode (pre ++ rest) = statusChangesDecode rest.
Proof.
  induction 1 as [|v pre Hv Hpre IH]; simpl; [reflexivity|].
  destruct (String.eqb_spec (ms_PluginID v) usermd_PluginID) as [Hp|Hp];
    simpl; [|exact IH].
  destruct (Z.eqb_spec (ms_StreamID v) StreamIDStatusChanges) as [Hi|Hi];
    simpl; [|exact IH].
  exfalso. apply Hv. split; assumption.
Qed.

Lemma statusChangesDecodeStream_all l acc :
  statusChangesDecodeStream (map Ok l) acc = Ok (acc ++ l).
Proof.
  revert acc. induction l as [|sc l IH]; intros acc; simpl.
  - rewrite app_nil_r. reflexivity.
  - rewrite IH, <- app_assoc. reflexivity.
Qed.

Lemma statusChangesDecodeStream_err l e rest acc :
  statusChangesDecodeStream (map Ok l ++ Err e :: rest) acc = Err e.
Proof.
  revert acc. induction l as [|sc l IH]; intros acc; simpl;
    [reflexivity|apply IH].
Qed.

Lemma statusChangesDecode_at_stream pre v post :
  Forall (fun v => ~ isStatusChangeStream v) pre ->
  isStatusChangeStream v ->
  statusChangesDecode (pre ++ v :: post)
    = statusChangesDecodeStream
        (json_Decoder_StatusChangeMetadata (ms_Payload v)) [].
Proof.
  intros Hpre [Hp Hi]. rewrite (statusChangesDecode_skip _ _ Hpre). simpl.
  rewrite Hp, Hi, String.eqb_refl, Z.eqb_refl. reflexivity.
Qed.

Lemma statusChangesDecode_none metadata :
  Forall (fun v => ~ isStatusChangeStream v) metadata ->
  statusChangesDecode metadata = Ok [].
Proof.
  intros Hnone.
  rewrite <- (app_nil_r metadata), (statusChangesDecode_skip _ _ Hnone).
  reflexivity.
Qed.

(** X20: [statusChangesDecode] reads the first stream of plugin usermd
    with the stream id of the status changes and no other: the streams
    before it are skipped and the streams behind it are not looked at,
    even when one of them is a status change stream as well.  It
    returns the changes of that stream in their order, or the first
    error of the decoder; without such a stream it returns no change
    and no error. *)
Theorem statusChangesDecode_first_stream :
  (forall metadata : list MetadataStream,
      Forall (fun v => ~ isStatusChangeStream v) metadata ->
      statusChangesDecode metadata = Ok [])
  /\ (forall (pre post : list MetadataStream) (v : MetadataStream),
        Forall (fun v => ~ isStatusChangeStream v) pre ->
        isStatusChangeStream v ->
        (forall l : list StatusChangeMetadata,
            json_Decoder_StatusChangeMetadata (ms_Payload v) = map Ok l ->
            statusChangesDecode (pre ++ v :: post) = Ok l)
        /\ (forall (l : list StatusChangeMetadata) (e : error)
                   (rest : list (result StatusChangeMetadata)),
              json_Decoder_StatusChangeMetadata (ms_Payload v)
                = map Ok l ++ Err e :: rest ->
              statusChangesDecode (pre ++ v :: post) = Err e)).
Proof.
  split; [exact statusChangesDecode_none|].
  intros pre post v Hpre Hv. split.
  - intros l Hl. rewrite (statusChangesDecode_at_stream _ _ _ Hpre Hv), Hl.
    apply statusChangesDecodeStream_all.
  - intros l e rest Hl.
    rewrite (statusChangesDecode_at_stream _ _ _ Hpre Hv), Hl.
    apply statusChangesDecodeStream_err.
Qed.

(** X21: [lastStatusChangeReason] returns the reason of the last status
    change of the stream, and the error of the decoder when there is
    one; it panics when the record has no status change, be it that
    no stream is a status change stream or that the stream is empty. *)
Theorem lastStatusChangeReason_edges :
  (forall metadata : list MetadataStream,
      Forall (fun v => ~ isStatusChangeStream v) metadata ->
      lastStatusChangeReason metadata = None)
  /\ (forall (pre post : list MetadataStream) (v : MetadataStream),
        Forall (fun v => ~ isStatusChangeStream v) pre ->
        isStatusChangeStream v ->
        (json_Decoder_StatusChangeMetadata (ms_Payload v) = [] ->
         lastStatusChangeReason (pre ++ v :: post) = None)
        /\ (forall (l : list StatusChangeMetadata) (sc : StatusChangeMetadata),
              json_Decoder_StatusChangeMetadata (ms_Payload v)
                = map Ok (l ++ [sc]) ->
              lastStatusChangeReason (pre ++ v :: post)
                = Some (Ok (scm_Reason sc)))
        /\ (forall (l : list StatusChangeMetadata) (e : error)
                   (rest : list (result StatusChangeMetadata)),
              json_Decoder_StatusChangeMetadata (ms_Payload v)
                = map Ok l ++ Err e :: rest ->
              lastStatusChangeReason (pre ++ v :: post) = Some (Err e))).
Proof.
  split.
  - intros metadata Hno. unfold lastStatusChangeReason.
    rewrite (statusChangesDecode_none metadata Hno). reflexivity.
  - intros pre post v Hpre Hv. unfold lastStatusChangeReason.
    rewrite (statusChangesDecode_at_stream pre v post Hpre Hv).
    split; [|split].
    + intros ->. reflexivity.
    + intros l sc ->. rewrite statusChangesDecodeStream_all.
      simpl app. rewrite length_app. simpl length.
      replace (length l + 1 - 1)%nat with (length l + 0)%nat by lia.
      rewrite lookup_app_r by lia.
      replace (length l + 0 - length l)%nat with 0%nat by lia.
      reflexivity.
    + intros l e rest ->. rewrite statusChangesDecodeStream_err. reflexivity.
Qed.

End StatusChangesProperties.

(* ================================================================== *)
(** ** Further properties: the legacy git repository *)
(* ================================================================== *)

Section GitProperties.
Import legacypoliteia.

Lemma tokenAtFront_true l :
  tokenAtFront l = true <->
  exists t post, l = t ++ post /\ isGitToken t.
Proof.
  unfold tokenAtFront, isGitToken. split.
  - intros H. apply andb_true_iff in H as [Hlen Hall].
    apply Nat.eqb_eq in Hlen.
    exists (take 64 l), (drop 64 l). split; [symmetry; apply take_drop|].
    split; [exact Hlen|]. apply Forall_forall. intros a Ha.
    rewrite forallb_forall in Hall. apply Hall. apply list_elem_of_In, Ha.
  - intros (t & post & -> & Hlen & Hall).
    rewrite take_app_length' by (symmetry; exact Hlen).
    rewrite Hlen. simpl. apply forallb_forall. intros a Ha.
    rewrite Forall_forall in Hall. apply Hall, list_elem_of_In, Ha.
Qed.

Lemma tokenAtFront_take l :
  tokenAtFront l = true -> isGitToken (take 64 l).
Proof.
  intros H. apply tokenAtFront_true in H as (t & post & -> & Ht).
  rewrite take_app_length' by (symmetry; apply Ht). exact Ht.
Qed.

(** What [FindString] finds: the leftmost token, or nothing when the
    text holds no token. *)
Lemma regexGitProposalToken_FindString_spec l :
  (exists pre t post,
      l = pre ++ t ++ post /\ isGitToken t
      /\ regexGitProposalToken_FindString l = t
      /\ forall pre' t' post',
           l = pre' ++ t' ++ post' -> isGitToken t' ->
           (length pre <= length pre')%nat)
  \/ (regexGitProposalToken_FindString l = []
      /\ forall pre t post, l = pre ++ t ++ post -> ~ isGitToken t).
Proof.
  induction l as [|a l IH].
  - right. split; [reflexivity|].
    intros pre t post Hl [Hlen _].
    symmetry in Hl. apply app_eq_nil in Hl as [_ Hl].
    apply app_eq_nil in Hl as [-> _]. discriminate.
  - simpl. destruct (tokenAtFront (a :: l)) eqn:Hfront.
    + left. exists [], (take 64 (a :: l)), (drop 64 (a :: l)).
      split; [symmetry; apply (take_drop 64 (a :: l))|].
      split; [apply tokenAtFront_take, Hfront|].
      split; [reflexivity|]. intros; simpl; lia.
    + destruct IH as [(pre & t & post & -> & Ht & Hfind & Hleft)|[Hfind Hnone]].
      * left. exists (a :: pre), t, post.
        split; [reflexivity|]. split; [exact Ht|]. split; [exact Hfind|].
        intros pre' t' post' Hl Ht'. destruct pre' as [|b pre'].
        -- exfalso. simpl in Hl.
           assert (Htrue : tokenAtFront (a :: pre ++ t ++ post) = true).
           { apply tokenAtFront_true. exists t', post'. auto. }
           congruence.
        -- simpl in Hl. injection Hl as _ Hl. simpl.
           specialize (Hleft pre' t' post' Hl Ht'). lia.
      * right. split; [exact Hfind|].
        intros pre t post Hl Ht. destruct pre as [|b pre].
        -- simpl in Hl.
           assert (Htrue : tokenAtFront (a :: l) = true).
           { apply tokenAtFront_true. exists t, post. auto. }
           congruence.
        -- simpl in Hl. injection Hl as _ Hl. apply (Hnone pre t post Hl Ht).
Qed.

Lemma string_of_list_ascii_empty l :
  String.eqb (string_of_list_ascii l) "" = true <-> l = [].
Proof.
  destruct l as [|a l]; simpl; split; try reflexivity; discriminate.
Qed.

(** X22: [gitProposalToken] is ok exactly when the path holds 64
    characters in a row that are digits or letters from a to f; the
    token is then the leftmost such run of 64, and without one the
    token is the empty string. *)
Theorem gitProposalToken_leftmost :
  forall path : string,
    (snd (gitProposalToken path) = true ->
     exists pre t post : list ascii,
       chars path = pre ++ t ++ post
       /\ isGitToken t
       /\ fst (gitProposalToken path) = string_of_list_ascii t
       /\ forall pre' t' post' : list ascii,
            chars path = pre' ++ t' ++ post' -> isGitToken t' ->
            (length pre <= length pre')%nat)
    /\ (snd (gitProposalToken path) = false ->
        fst (gitProposalToken path) = ""
        /\ forall pre t post : list ascii,
             chars path = pre ++ t ++ post -> ~ isGitToken t).
Proof.
  intros path. unfold gitProposalToken. cbv zeta. simpl fst. simpl snd.
  destruct (regexGitProposalToken_FindString_spec (chars path))
    as [(pre & t & post & Hl & Ht & Hfind & Hleft)|[Hfind Hnone]];
    rewrite Hfind.
  - split.
    + intros _. exists pre, t, post. auto.
    + intros Hno. apply negb_false_iff in Hno.
      apply string_of_list_ascii_empty in Hno.
      destruct Ht as [Hlen _]. rewrite Hno in Hlen. discriminate Hlen.
  - split.
    + discriminate.
    + intros _. split; [reflexivity|exact Hnone].
Qed.

(** A walk whose function panics on a nil entry ends in that panic. *)
Lemma filepath_WalkDir_nil_entry {S : Type} (calls : list walkCall)
  (fn : S -> walkCall -> option (S * option error)) :
  (forall s c, wc_d c = None -> fn s c = None) ->
  (forall s c d, wc_d c = Some d -> exists s', fn s c = Some (s', None)) ->
  (exists c, c ∈ calls /\ wc_d c = None) ->
  forall s, filepath_WalkDir calls fn s = None.
Proof.
  intros Hnil Hok. induction calls as [|a calls IH]; intros (c & Hin & Hc) s.
  - apply elem_of_nil in Hin. contradiction.
  - simpl. destruct (wc_d a) as [d|] eqn:Ha.
    + destruct (Hok s a d Ha) as [s' ->]. apply IH.
      apply elem_of_cons in Hin as [->|Hin]; [congruence|eauto].
    + rewrite (Hnil s a Ha). reflexivity.
Qed.

(** A walk that hands over no nil entry, with a function that returns
    nil, is a fold over its calls. *)
Lemma filepath_WalkDir_entries {S : Type} (calls : list walkCall)
  (fn : S -> walkCall -> option (S * option error))
  (step : S -> walkCall -> DirEntry -> S) :
  (forall s c d, wc_d c = Some d -> fn s c = Some (step s c d, None)) ->
  (forall c, c ∈ calls -> wc_d c <> None) ->
  forall s,
    filepath_WalkDir calls fn s
    = Some (fold_left (fun s c => match wc_d c with
                                  | Some d => step s c d
                                  | None => s
                                  end) calls s, None).
Proof.
  intros Hok. induction calls as [|a calls IH]; intros Hall s;
    [reflexivity|].
  simpl. destruct (wc_d a) as [d|] eqn:Ha.
  - rewrite (Hok s a d Ha). apply IH.
    intros c Hc. apply Hall. right. exact Hc.
  - exfalso. apply (Hall a); [left|exact Ha].
Qed.

(** A walk with a function that returns no error returns none. *)
Lemma filepath_WalkDir_no_error {S : Type} (calls : list walkCall)
  (fn : S -> walkCall -> option (S * option error)) :
  (forall s c s' e, fn s c <> Some (s', Some e)) ->
  forall s s' e, filepath_WalkDir calls fn s <> Some (s', Some e).
Proof.
  intros Hfn. induction calls as [|a calls IH]; intros s s' e; simpl.
  - discriminate.
  - destruct (fn s a) as [[s1 [e1|]]|] eqn:Ha.
    + exfalso. apply (Hfn s a s1 e1 Ha).
    + apply IH.
    + discriminate.
Qed.

(** The keys that a fold over the calls collects. *)
Lemma fold_collect (key : walkCall -> DirEntry -> option string)
  (calls : list walkCall) (acc : gset string) (t : string) :
  t ∈ fold_left (fun (s : gset string) c =>
                   match wc_d c with
                   | Some d => match key c d with
                               | Some k => {[k]} ∪ s
                               | None => s
                               end
                   | None => s
                   end) calls acc
  <-> t ∈ acc
      \/ exists c d, c ∈ calls /\ wc_d c = Some d /\ key c d = Some t.
Proof.
  revert acc. induction calls as [|a calls IH]; intros acc; cbn [fold_left].
  - split; [auto|]. intros [H|(c & d & H & _)]; [exact H|].
    apply elem_of_nil in H. contradiction.
  - rewrite IH. clear IH. split.
    + intros [H|(c & d & Hin & Hc & Hk)].
      * destruct (wc_d a) as [d|] eqn:Ha; [|left; exact H].
        destruct (key a d) as [k|] eqn:Hk; [|left; exact H].
        apply elem_of_union in H as [H|H]; [|left; exact H].
        apply elem_of_singleton in H. subst k.
        right. exists a, d. split; [left|auto].
      * right. exists c, d. split; [right; exact Hin|auto].
    + intros [H|(c & d & Hin & Hc & Hk)].
      * left. destruct (wc_d a) as [d|]; [|exact H].
        destruct (key a d); [|exact H].
        apply elem_of_union. right. exact H.
      * apply elem_of_cons in Hin as [->|Hin].
        -- left. rewrite Hc, Hk. apply elem_of_union. left.
           apply elem_of_singleton. reflexivity.
        -- right. eauto.
Qed.

(** X23: [gitProposalTokens] never returns an error: the function it
    hands to the walk does not look at the error and returns nil, so
    the error branch behind the walk is never taken.  A walk that
    hands over a nil entry, as for a root that cannot be read, ends
    in a panic.  Otherwise the inventory holds exactly the tokens of
    the directories of the walk: a token is in it when the path of a
    directory holds it as its leftmost token, the paths of files add
    nothing, and everything in it is a token of 64 characters. *)
Theorem gitProposalTokens_inventory :
  forall calls : list walkCall,
    ((exists c, c ∈ calls /\ wc_d c = None) ->
     gitProposalTokens calls = None)
    /\ ((forall c, c ∈ calls -> wc_d c <> None) ->
        exists tokens : gset string,
          gitProposalTokens calls = Some (Ok tokens)
          /\ (forall t : string,
                t ∈ tokens <->
                exists c d, c ∈ calls /\ wc_d c = Some d
                  /\ de_IsDir d = true
                  /\ gitProposalToken (wc_path c) = (t, true))
          /\ (forall t : string, t ∈ tokens -> isGitToken (chars t)))
    /\ (forall e : error, gitProposalTokens calls <> Some (Err e)).
Proof.
  intros calls.
  set (fn := fun (tokens : gset string) (c : walkCall) =>
               match wc_d c with
               | None => None
               | Some d =>
                   if negb (de_IsDir d) then Some (tokens, None)
                   else
                     let '(token, ok) := gitProposalToken (wc_path c) in
                     if ok then Some ({[token]} ∪ tokens, None)
                     else Some (tokens, @None error)
               end).
  set (key := fun (c : walkCall) (d : DirEntry) =>
                if negb (de_IsDir d) then None
                else
                  let '(token, ok) := gitProposalToken (wc_path c) in
                  if ok then Some token else None).
  assert (Hrun : gitProposalTokens calls
                 = match filepath_WalkDir calls fn ∅ with
                   | None => None
                   | Some (_, Some err) => Some (Err err)
                   | Some (tokens, None) => Some (Ok tokens)
                   end) by reflexivity.
  assert (Hok : forall s c d, wc_d c = Some d ->
            fn s c = Some (match key c d with
                           | Some k => {[k]} ∪ s
                           | None => s
                           end, None)).
  { intros s c d Hd. unfold fn, key. rewrite Hd.
    destruct (de_IsDir d); cbn [negb]; [|reflexivity].
    destruct (gitProposalToken (wc_path c)) as [token [|]]; reflexivity. }
  assert (Hnil : forall s c, wc_d c = None -> fn s c = None).
  { intros s c Hd. unfold fn. rewrite Hd. reflexivity. }
  assert (Hkey : forall c d t,
            key c d = Some t <->
            de_IsDir d = true /\ gitProposalToken (wc_path c) = (t, true)).
  { intros c d t. unfold key. destruct (de_IsDir d); cbn [negb].
    - destruct (gitProposalToken (wc_path c)) as [token [|]]; split.
      + intros [= ->]. auto.
      + intros [_ [= ->]]. reflexivity.
      + discriminate.
      + intros [_ H]. discriminate.
    - split; [discriminate|]. intros [H _]. discriminate. }
  split; [|split].
  - intros Hsome. rewrite Hrun.
    rewrite (filepath_WalkDir_nil_entry calls fn Hnil); [reflexivity| |exact Hsome].
    intros s c d Hd. rewrite (Hok s c d Hd). eauto.
  - intros Hall. rewrite Hrun.
    rewrite (filepath_WalkDir_entries calls fn
               (fun s c d => match key c d with
                             | Some k => {[k]} ∪ s
                             | None => s
                             end) Hok Hall).
    eexists. split; [reflexivity|].
    assert (Hin : forall t : string,
              t ∈ fold_left (fun (s : gset string) c =>
                               match wc_d c with
                               | Some d => match key c d with
                                           | Some k => {[k]} ∪ s
                                           | None => s
                                           end
                               | None => s
                               end) calls ∅
              <-> exists c d, c ∈ calls /\ wc_d c = Some d
                    /\ de_IsDir d = true
                    /\ gitProposalToken (wc_path c) = (t, true)).
    { intros t. rewrite fold_collect. split.
      - intros [H|(c & d & Hc & Hd & Hk)].
        + apply elem_of_empty in H. contradiction.
        + apply Hkey in Hk. exists c, d. tauto.
      - intros (c & d & Hc & Hd & Hk). right. exists c, d.
        split; [exact Hc|]. split; [exact Hd|]. apply Hkey. exact Hk. }
    split; [exact Hin|].
    intros t Ht. apply Hin in Ht as (c & d & _ & _ & _ & Hpath).
    unfold gitProposalToken in Hpath. cbv zeta in Hpath.
    injection Hpath as Ht Hfound.
    destruct (regexGitProposalToken_FindString_spec (chars (wc_path c)))
      as [(pre & tok & post & _ & Htok & Hfind & _)|[Hfind _]];
      rewrite Hfind in Ht, Hfound.
    + subst t. unfold chars. rewrite list_ascii_of_string_of_list_ascii.
      exact Htok.
    + discriminate.
  - intros e He. rewrite Hrun in He.
    destruct (filepath_WalkDir calls fn ∅) as [[tokens [e'|]]|] eqn:Hwalk;
      try discriminate.
    apply (filepath_WalkDir_no_error calls fn) in Hwalk; [exact Hwalk|].
    intros s c s' e0 Hfn. unfold fn in Hfn.
    destruct (wc_d c) as [d|]; [|discriminate].
    destruct (de_IsDir d); cbn [negb] in Hfn; [|discriminate].
    destruct (gitProposalToken (wc_path c)) as [token [|]]; discriminate.
Qed.

Lemma isDigit_not_slash a : isDigit a = true -> isSlash a = false.
Proof.
  unfold isDigit, isSlash. intros H. apply andb_true_iff in H as [H1 H2].
  apply N.leb_le in H1. destruct (Ascii.eqb_spec a "/"); [|reflexivity].
  subst a. simpl in H1. lia.
Qed.

Lemma isLowerHex_not_slash a : isLowerHex a = true -> isSlash a = false.
Proof.
  unfold isLowerHex. intros H. apply orb_true_iff in H as [H|H].
  - apply isDigit_not_slash, H.
  - apply andb_true_iff in H as [H1 _]. apply N.leb_le in H1.
    unfold isSlash. destruct (Ascii.eqb_spec a "/"); [|reflexivity].
    subst a. simpl in H1. lia.
Qed.

Lemma digitsAtFront_spec l :
  exists post,
    l = digitsAtFront l ++ post
    /\ forallb isDigit (digitsAtFront l) = true
    /\ match post with d :: _ => isDigit d = false | [] => True end.
Proof.
  induction l as [|d l (post & Hl & Hall & Hpost)]; simpl.
  - exists []. auto.
  - destruct (isDigit d) eqn:Hd.
    + exists post. simpl. rewrite Hd, Hall. split; [congruence|auto].
    + exists (d :: l). auto.
Qed.

Lemma upToSlash_app_slash l rest :
  forallb (fun a => negb (isSlash a)) l = true ->
  upToSlash (l ++ "/"%char :: rest) = l.
Proof.
  induction l as [|a l IH]; simpl; [reflexivity|].
  intros H. apply andb_true_iff in H as [Ha Hl].
  apply negb_true_iff in Ha. rewrite Ha, (IH Hl). reflexivity.
Qed.

(** [filepath.Base] of a token, a slash and digits is the digits. *)
Lemma filepath_Base_version t ds :
  ds <> [] ->
  forallb isDigit ds = true ->
  filepath_Base (t ++ "/"%char :: ds) = ds.
Proof.
  intros Hne Hds. unfold filepath_Base.
  destruct (t ++ "/"%char :: ds) as [|x xs] eqn:Hpath.
  { apply app_eq_nil in Hpath as [_ Hpath]. discriminate. }
  rewrite <- Hpath. clear x xs Hpath.
  assert (Hrev : rev (t ++ "/"%char :: ds) = rev ds ++ "/"%char :: rev t).
  { rewrite rev_app_distr. simpl. rewrite <- app_assoc. reflexivity. }
  assert (Hnoslash : forallb (fun a => negb (isSlash a)) (rev ds) = true).
  { apply forallb_forall. intros a Ha. apply in_rev in Ha.
    rewrite forallb_forall in Hds. rewrite (isDigit_not_slash a (Hds a Ha)).
    reflexivity. }
  assert (Hstrip : dropSlashes (rev (t ++ "/"%char :: ds))
                   = rev (t ++ "/"%char :: ds)).
  { rewrite Hrev. destruct (rev ds) as [|d rds] eqn:Hrds.
    - exfalso. apply Hne. rewrite <- (rev_involutive ds), Hrds. reflexivity.
    - simpl in Hnoslash |- *. apply andb_true_iff in Hnoslash as [Hd _].
      apply negb_true_iff in Hd. rewrite Hd. reflexivity. }
  rewrite Hstrip, rev_involutive, Hrev.
  rewrite (upToSlash_app_slash _ _ Hnoslash), rev_involutive.
  destruct ds; [contradiction|reflexivity].
Qed.

Lemma regexProposalVersion_FindString_cons a l :
  regexProposalVersion_FindString (a :: l)
  = if versionAtFront (a :: l)
    then take 64 (a :: l) ++ "/"%char :: digitsAtFront (drop 65 (a :: l))
    else regexProposalVersion_FindString l.
Proof. reflexivity. Qed.

Lemma regexProposalVersion_FindString_spec l :
  (exists pre t ds post,
      l = pre ++ t ++ "/"%char :: ds ++ post
      /\ isGitToken t /\ ds <> [] /\ forallb isDigit ds = true
      /\ match post with d :: _ => isDigit d = false | [] => True end
      /\ regexProposalVersion_FindString l = t ++ "/"%char :: ds)
  \/ (regexProposalVersion_FindString l = []
      /\ forall pre t d post,
           l = pre ++ t ++ "/"%char :: d :: post ->
           isGitToken t -> isDigit d = false).
Proof.
  induction l as [|a l IH].
  - right. split; [reflexivity|].
    intros pre t d post Hl _. symmetry in Hl.
    apply app_eq_nil in Hl as [_ Hl]. apply app_eq_nil in Hl as [_ Hl].
    discriminate.
  - rewrite regexProposalVersion_FindString_cons.
    destruct (versionAtFront (a :: l)) eqn:Hfront.
    + left. unfold versionAtFront in Hfront.
      apply andb_true_iff in Hfront as [Htok Hrest].
      pose proof (tokenAtFront_take _ Htok) as Ht.
      pose proof (take_drop 64 (a :: l)) as Hsplit.
      destruct (drop 64 (a :: l)) as [|slash [|d rest]] eqn:Hdrop;
        try discriminate.
      apply andb_true_iff in Hrest as [Hslash Hd].
      apply Ascii.eqb_eq in Hslash. subst slash.
      assert (Hdrop65 : drop 65 (a :: l) = d :: rest).
      { change 65%nat with (64 + 1)%nat.
        rewrite <- drop_drop, Hdrop. reflexivity. }
      rewrite Hdrop65.
      destruct (digitsAtFront_spec (d :: rest)) as (post & Hds & Hall & Hpost).
      exists [], (take 64 (a :: l)), (digitsAtFront (d :: rest)), post.
      split.
      { rewrite app_nil_l.
        etransitivity; [symmetry; exact Hsplit|].
        f_equal. f_equal. exact Hds. }
      split; [exact Ht|]. split.
      { simpl. rewrite Hd. discriminate. }
      split; [exact Hall|]. split; [exact Hpost|reflexivity].
    + destruct IH as [(pre & t & ds & post & -> & Ht & Hne & Hall & Hpost & Hfind)
                     |[Hfind Hnone]].
      * left. exists (a :: pre), t, ds, post. auto 10.
      * right. split; [exact Hfind|].
        intros pre t d post Hl Ht. destruct pre as [|b pre].
        -- simpl in Hl. destruct (isDigit d) eqn:Hd; [|reflexivity].
           exfalso.
           assert (Htrue : versionAtFront (a :: l) = true).
           { unfold versionAtFront. rewrite Hl.
             rewrite (proj2 (tokenAtFront_true _)) by eauto.
             rewrite drop_app_length' by (symmetry; apply Ht).
             simpl. rewrite Hd. reflexivity. }
           congruence.
        -- simpl in Hl. injection Hl as _ Hl.
           apply (Hnone pre t d post Hl Ht).
Qed.

(** X24: [proposalVersion] returns a version only when the path holds
    a token, a slash and a number: the version is the value of all the
    digits that follow the slash, and it is below [2 ^ 32]; a number
    out of that range is an error and is not cut down.  A path
    without a token that a slash and a digit follow is an error. *)
Theorem proposalVersion_sound :
  forall (proposalDir : string),
    (forall v : N,
        proposalVersion proposalDir = Ok v ->
        exists pre t ds post : list ascii,
          chars proposalDir = pre ++ t ++ "/"%char :: ds ++ post
          /\ isGitToken t
          /\ ds <> [] /\ forallb isDigit ds = true
          /\ match post with d :: _ => isDigit d = false | [] => True end
          /\ v = decimalValue ds
          /\ (v < 2 ^ 32)%N)
    /\ ((forall pre t d post,
            chars proposalDir = pre ++ t ++ "/"%char :: d :: post ->
            isGitToken t -> isDigit d = false) ->
        exists e : error, proposalVersion proposalDir = Err e).
Proof.
  intros proposalDir. unfold proposalVersion. cbv zeta.
  destruct (regexProposalVersion_FindString_spec (chars proposalDir))
    as [(pre & t & ds & post & Hl & Ht & Hne & Hall & Hpost & Hfind)
       |[Hfind Hnone]]; rewrite Hfind.
  - rewrite (filepath_Base_version t ds Hne Hall).
    unfold strconv_ParseUint_10_32. rewrite Hall.
    destruct ds as [|d ds]; [contradiction|].
    destruct (N.ltb_spec (decimalValue (d :: ds)) (2 ^ 32)) as [Hlt|Hge];
      simpl bind.
    + split.
      * intros v [= <-]. exists pre, t, (d :: ds), post.
        rewrite N.mod_small by exact Hlt. auto 10.
      * intros Hno. exfalso.
        specialize (Hno pre t d (ds ++ post) Hl Ht).
        simpl in Hall. rewrite Hno in Hall. discriminate.
    + split; [discriminate|eauto].
  - simpl. split; [discriminate|eauto].
Qed.

(** The greatest of the numbers of a list, and zero for none. *)
Lemma latest_fold (versions : list N) (start : N) :
  fold_left (fun latest version =>
               if (latest <? version)%N then version else latest)
    versions start
    = fold_right N.max start versions.
Proof.
  revert start. induction versions as [|v versions IH]; intros start; simpl;
    [reflexivity|].
  rewrite IH. destruct (N.ltb_spec start v) as [Hlt|Hge].
  - clear IH. induction versions as [|w versions IHv]; simpl; lia.
  - clear IH. induction versions as [|w versions IHv]; simpl; lia.
Qed.

Lemma fold_max_bounds (versions : list N) :
  (forall v, In v versions -> (v <= fold_right N.max 0%N versions)%N)
  /\ (fold_right N.max 0%N versions = 0%N
      \/ In (fold_right N.max 0%N versions) versions).
Proof.
  induction versions as [|v versions [IHle IHin]]; simpl.
  - split; [tauto|auto].
  - split.
    + intros w [<-|Hw]; [lia|]. specialize (IHle w Hw). lia.
    + destruct (N.max_spec v (fold_right N.max 0%N versions))
        as [[_ ->]|[_ ->]]; [|auto].
      destruct IHin as [->|Hin]; auto.
Qed.

Lemma fold_max_Permutation (l l' : list N) :
  l ≡ₚ l' -> fold_right N.max 0%N l = fold_right N.max 0%N l'.
Proof.
  induction 1; simpl; try congruence; lia.
Qed.

Lemma latestAmong_max (order : list N) :
  latestAmong order = fold_right N.max 0%N order.
Proof. apply latest_fold. Qed.

(** X25: [latestVersion] returns the greatest number that the name of
    a directory of the walk spells in decimal digits, in whatever
    order the loops come by the keys of the maps; names that are no
    number below [2 ^ 32] count for nothing.  It does return it: a
    walk with a directory of a positive version gives a version.  A
    version of zero is as good as none: without a positive version
    the result is the error that no version was found, and that is
    the only error there is, for the function of the walk returns
    nil whatever it is handed.  A walk that hands over a nil entry,
    as for a directory of the token that cannot be read, ends in a
    panic. *)
Theorem latestVersion_greatest :
  forall (calls : list walkCall) (token : string),
    let notFound :=
      Errorf (Sprintf "latest version not found for %v" [ArgString token]) in
    ((exists c, c ∈ calls /\ wc_d c = None) ->
     latestVersion calls token = None)
    /\ ((forall c, c ∈ calls -> wc_d c <> None) ->
        (forall v : N,
            latestVersion calls token = Some (Ok v) <->
            (0 < v)%N /\ isVersionOf calls v
            /\ forall u, isVersionOf calls u -> (u <= v)%N)
        /\ ((exists v, isVersionOf calls v /\ (0 < v)%N) ->
            exists w, latestVersion calls token = Some (Ok w))
        /\ ((forall u, isVersionOf calls u -> u = 0%N) ->
            latestVersion calls token = Some (Err notFound)))
    /\ (forall e : error,
          latestVersion calls token = Some (Err e) -> e = notFound)
    /\ (forall order order' : list N,
          order ≡ₚ order' -> latestAmong order = latestAmong order').
Proof.
  intros calls token notFound.
  set (fn := fun (dirs : gset string) (c : walkCall) =>
               match wc_d c with
               | None => None
               | Some d =>
                   if negb (de_IsDir d) then Some (dirs, None)
                   else Some ({[de_Name d]} ∪ dirs, @None error)
               end).
  set (key := fun (c : walkCall) (d : DirEntry) =>
                if negb (de_IsDir d) then None else Some (de_Name d)).
  set (parse := fun dirname : string =>
                  match strconv_ParseUint_10_32 (chars dirname) with
                  | Ok u => Some u
                  | Err _ => None
                  end).
  set (finish := fun dirs : gset string =>
                   let versions := versionsOf dirs in
                   let latest := latestAmong (elements versions) in
                   if (latest =? 0)%N then Some (Err notFound)
                   else Some (Ok latest)).
  assert (Hrun : latestVersion calls token
                 = match filepath_WalkDir calls fn ∅ with
                   | None => None
                   | Some (_, Some err) => Some (Err err)
                   | Some (dirs, None) => finish dirs
                   end) by reflexivity.
  assert (Hok : forall s c d, wc_d c = Some d ->
            fn s c = Some (match key c d with
                           | Some k => {[k]} ∪ s
                           | None => s
                           end, None)).
  { intros s c d Hd. unfold fn, key. rewrite Hd.
    destruct (de_IsDir d); reflexivity. }
  assert (Hnil : forall s c, wc_d c = None -> fn s c = None).
  { intros s c Hd. unfold fn. rewrite Hd. reflexivity. }
  assert (Hnoerr : forall s s' e,
            filepath_WalkDir calls fn s <> Some (s', Some e)).
  { apply filepath_WalkDir_no_error. intros s c s' e Hfn. unfold fn in Hfn.
    destruct (wc_d c) as [d|]; [|discriminate].
    destruct (de_IsDir d); discriminate. }
  assert (Hfinish : forall dirs e, finish dirs = Some (Err e) -> e = notFound).
  { intros dirs e. unfold finish. cbv zeta.
    destruct (_ =? 0)%N; [congruence|discriminate]. }
  split; [|split; [|split]].
  - intros Hsome. rewrite Hrun.
    rewrite (filepath_WalkDir_nil_entry calls fn Hnil); [reflexivity| |exact Hsome].
    intros s c d Hd. rewrite (Hok s c d Hd). eauto.
  - intros Hall. rewrite Hrun.
    rewrite (filepath_WalkDir_entries calls fn
               (fun s c d => match key c d with
                             | Some k => {[k]} ∪ s
                             | None => s
                             end) Hok Hall).
    set (dirs := fold_left _ calls ∅).
    set (versions := versionsOf dirs).
    assert (Hversions : forall v, v ∈ elements versions <-> isVersionOf calls v).
    { intros v. rewrite elem_of_elements. unfold versions, versionsOf.
      fold parse.
      rewrite elem_of_list_to_set, list_elem_of_omap. split.
      - intros (name & Hname & Hparse).
        apply elem_of_elements in Hname. unfold dirs in Hname.
        apply fold_collect in Hname as [Hname|(c & d & Hc & Hd & Hk)].
        { apply elem_of_empty in Hname. contradiction. }
        unfold key in Hk. destruct (de_IsDir d) eqn:Hdir; [|discriminate].
        injection Hk as <-. exists c, d.
        split; [exact Hc|]. split; [exact Hd|]. split; [exact Hdir|].
        unfold parse in Hparse.
        destruct (strconv_ParseUint_10_32 (chars (de_Name d)));
          congruence.
      - intros (c & d & Hc & Hd & Hdir & Hparse). exists (de_Name d). split.
        + apply elem_of_elements. unfold dirs. apply fold_collect. right.
          exists c, d. split; [exact Hc|]. split; [exact Hd|].
          unfold key. rewrite Hdir. reflexivity.
        + unfold parse. rewrite Hparse. reflexivity. }
    destruct (fold_max_bounds (elements versions)) as [Hle Hmax].
    assert (Hfin : finish dirs
                   = if (fold_right N.max 0%N (elements versions) =? 0)%N
                     then Some (Err notFound)
                     else Some (Ok (fold_right N.max 0%N (elements versions)))).
    { unfold finish. cbv zeta. fold versions.
      rewrite latestAmong_max. reflexivity. }
    rewrite Hfin. clear Hfin.
    set (latest := fold_right N.max 0%N (elements versions)) in *.
    assert (Hbound : forall u, isVersionOf calls u -> (u <= latest)%N).
    { intros u Hu. apply Hle, list_elem_of_In, Hversions, Hu. }
    split; [|split].
    + intros v. destruct (N.eqb_spec latest 0) as [Hz|Hnz]; split.
      * discriminate.
      * intros (Hpos & Hv & _). specialize (Hbound v Hv). lia.
      * intros [= <-]. split; [lia|]. split; [|exact Hbound].
        destruct Hmax as [Hz|Hin]; [contradiction|].
        apply Hversions, list_elem_of_In, Hin.
      * intros (Hpos & Hv & Hgreatest). f_equal. f_equal.
        apply N.le_antisymm; [|apply Hbound, Hv].
        destruct Hmax as [Hz|Hin]; [contradiction|].
        apply Hgreatest, Hversions, list_elem_of_In, Hin.
    + intros (v & Hv & Hpos). specialize (Hbound v Hv).
      destruct (N.eqb_spec latest 0) as [Hz|Hnz]; [lia|eauto].
    + intros Hzero. destruct (N.eqb_spec latest 0) as [Hz|Hnz];
        [reflexivity|].
      destruct Hmax as [Hz|Hin]; [contradiction|].
      apply list_elem_of_In, Hversions, Hzero in Hin. contradiction.
  - intros e He. rewrite Hrun in He.
    destruct (filepath_WalkDir calls fn ∅) as [[dirs [e'|]]|] eqn:Hwalk.
    + exfalso. apply (Hnoerr _ _ _ Hwalk).
    + apply (Hfinish dirs e He).
    + discriminate.
  - intros order order' Hperm. rewrite !latestAmong_max.
    apply fold_max_Permutation, Hperm.
Qed.

End GitProperties.

(* ================================================================== *)
(** ** Further properties: the import of the legacy proposals *)
(* ================================================================== *)

Section ConvertProperties.
Import legacypoliteia.

(** X26: a proposal passes [sanityChecks] exactly when it has a file,
    a name and a user id and is either archived, with two status
    changes and no vote data at all, or public, with one status change
    and all of the vote data: the details of the authorisation, the
    details of the vote and at least one cast vote. *)
Theorem sanityChecks_passes_iff :
  forall (F S A V C : Type) (p : proposal F S A V C),
    sanityChecks p = None <->
    p_Files p <> []
    /\ p_ProposalMetadata_Name p <> ""
    /\ p_UserMetadata_UserID p <> ""
    /\ ((p_RecordMetadata_Status p = StatusArchived
         /\ length (p_StatusChanges p) = 2%nat
         /\ p_AuthDetails p = None
         /\ p_VoteDetails p = None
         /\ p_CastVotes p = [])
        \/ (p_RecordMetadata_Status p = StatusPublic
            /\ length (p_StatusChanges p) = 1%nat
            /\ p_AuthDetails p <> None
            /\ p_VoteDetails p <> None
            /\ p_CastVotes p <> [])).
Proof.
  intros F S A V C [status files name user changes auth vote votes].
  unfold sanityChecks. simpl.
  destruct files as [|f files]; simpl.
  { split; [discriminate|]. intros [H _]. contradiction. }
  destruct (String.eqb_spec name "") as [->|Hname].
  { split; [discriminate|]. intros (_ & H & _). contradiction. }
  destruct (String.eqb_spec user "") as [->|Huser].
  { split; [discriminate|]. intros (_ & _ & H & _). contradiction. }
  destruct status.
  - split; [discriminate|].
    intros (_ & _ & _ & [(H & _)|(H & _)]); discriminate.
  - destruct (Nat.eqb_spec (length changes) 1) as [Hlen|Hlen]; simpl.
    2:{ split; [discriminate|].
        intros (_ & _ & _ & [(H & _)|(_ & H & _)]);
          [discriminate|contradiction]. }
    destruct auth as [a|]; simpl.
    2:{ split; [discriminate|].
        intros (_ & _ & _ & [(H & _)|(_ & _ & H & _)]);
          [discriminate|contradiction]. }
    destruct vote as [v|]; simpl.
    2:{ split; [discriminate|].
        intros (_ & _ & _ & [(H & _)|(_ & _ & _ & H & _)]);
          [discriminate|contradiction]. }
    destruct votes as [|c votes]; simpl.
    { split; [discriminate|].
      intros (_ & _ & _ & [(H & _)|(_ & _ & _ & _ & H)]);
        [discriminate|contradiction]. }
    split; [|reflexivity]. intros _.
    repeat (split; [discriminate || assumption|]).
    right. repeat split; try discriminate; assumption.
  - split; [discriminate|].
    intros (_ & _ & _ & [(H & _)|(H & _)]); discriminate.
  - destruct (Nat.eqb_spec (length changes) 2) as [Hlen|Hlen]; simpl.
    2:{ split; [discriminate|].
        intros (_ & _ & _ & [(_ & H & _)|(H & _)]);
          [contradiction|discriminate]. }
    destruct auth as [a|]; simpl.
    { split; [discriminate|].
      intros (_ & _ & _ & [(_ & _ & H & _)|(H & _)]); discriminate. }
    destruct vote as [v|]; simpl.
    { split; [discriminate|].
      intros (_ & _ & _ & [(_ & _ & _ & H & _)|(H & _)]); discriminate. }
    destruct votes as [|c votes]; simpl.
    2:{ split; [discriminate|].
        intros (_ & _ & _ & [(_ & _ & _ & _ & H)|(H & _)]); discriminate. }
    split; [|reflexivity]. intros _.
    repeat (split; [discriminate || assumption|]).
    left. repeat split; assumption.
  - split; [discriminate|].
    intros (_ & _ & _ & [(H & _)|(H & _)]); discriminate.
Qed.

Lemma pageSize_pos : (0 < pageSize)%nat.
Proof. unfold pageSize. lia. Qed.

Lemma slice_drop {A : Type} (s : list A) (lo hi : nat) :
  (lo <= hi)%nat -> (hi <= length s)%nat ->
  slice s lo hi = Some (take (hi - lo) (drop lo s)).
Proof.
  intros H1 H2. unfold slice.
  rewrite (proj2 (Nat.leb_le _ _) H1), (proj2 (Nat.leb_le _ _) H2).
  reflexivity.
Qed.

Section Fetch.
Variable largestCommitmentAddrs :
  list string -> result (gmap string string).

(** The loop takes the pages of [paged], and neither runs out of steps
    nor slices out of range. *)
Lemma fetchLoop_paged (eligibleTickets : list string) :
  forall (steps startIdx : nat) (addrs : gmap string string)
         (calls : list (list string)),
    (startIdx <= length eligibleTickets)%nat ->
    (length eligibleTickets - startIdx < steps * pageSize)%nat ->
    exists calls' r,
      fetchLoop largestCommitmentAddrs steps eligibleTickets startIdx
        addrs calls = Done (calls ++ calls', r)
      /\ paged largestCommitmentAddrs (drop startIdx eligibleTickets)
           addrs calls' r.
Proof.
  pose proof pageSize_pos as Hpos.
  induction steps as [|steps IH]; intros startIdx addrs calls Hle Hsteps.
  { simpl in Hsteps. lia. }
  cbn [fetchLoop]. cbv zeta.
  assert (Hlen : length (drop startIdx eligibleTickets)
                 = (length eligibleTickets - startIdx)%nat)
    by apply length_drop.
  destruct (Nat.ltb_spec (length eligibleTickets) (startIdx + pageSize))
    as [Hlast|Hmore].
  - rewrite slice_drop by lia.
    rewrite take_ge by lia.
    destruct (largestCommitmentAddrs (drop startIdx eligibleTickets))
      as [data|e] eqn:Hcall.
    + exists [drop startIdx eligibleTickets], (Ok (data ∪ addrs)).
      split; [reflexivity|]. apply paged_last; [lia|exact Hcall].
    + exists [drop startIdx eligibleTickets], (Err e).
      split; [reflexivity|].
      rewrite <- (take_ge (drop startIdx eligibleTickets) pageSize) at 2
        by lia.
      apply paged_err. rewrite take_ge by lia. exact Hcall.
  - rewrite slice_drop by lia.
    replace (startIdx + pageSize - startIdx)%nat with pageSize by lia.
    destruct (largestCommitmentAddrs
                (take pageSize (drop startIdx eligibleTickets)))
      as [data|e] eqn:Hcall.
    + destruct (IH (startIdx + pageSize)%nat (data ∪ addrs)
                  (calls ++ [take pageSize (drop startIdx eligibleTickets)]))
        as (calls' & r & Hrun & Hpaged); [lia|rewrite Nat.mul_succ_l in Hsteps; lia|].
      exists (take pageSize (drop startIdx eligibleTickets) :: calls'), r.
      split.
      * rewrite Hrun, <- app_assoc. reflexivity.
      * apply (paged_more _ _ _ data); [lia|exact Hcall|].
        rewrite drop_drop. exact Hpaged.
    + exists [take pageSize (drop startIdx eligibleTickets)], (Err e).
      split; [reflexivity|]. apply paged_err, Hcall.
Qed.

(** What a paged run has requested and what it returns. *)
Lemma paged_pages rest addrs calls r :
  paged largestCommitmentAddrs rest addrs calls r ->
  calls <> []
  /\ (exists left, rest = concat calls ++ left)
  /\ (forall i page, calls !! i = Some page -> (S i < length calls)%nat ->
        length page = pageSize
        /\ exists data, largestCommitmentAddrs page = Ok data)
  /\ match r with
     | Ok fetched =>
         concat calls = rest
         /\ (exists page, last calls = Some page
               /\ (length page < pageSize)%nat
               /\ length rest
                  = ((length calls - 1) * pageSize + length page)%nat)
         /\ exists datas,
              Forall2 (fun page data =>
                         largestCommitmentAddrs page = Ok data) calls datas
              /\ fetched = fold_left (fun addrs data => data ∪ addrs)
                             datas addrs
     | Err e =>
         exists page, last calls = Some page
           /\ (length page <= pageSize)%nat
           /\ largestCommitmentAddrs page = Err e
     end.
Proof.
  induction 1 as [rest addrs data Hshort Hcall
                 |rest addrs e Hcall
                 |rest addrs data calls r Hfull Hcall Hpaged IH].
  - split; [discriminate|]. split.
    { exists []. simpl. rewrite !app_nil_r. reflexivity. }
    split.
    { intros i page _ Hi. simpl in Hi. lia. }
    split; [simpl; apply app_nil_r|]. split.
    { exists rest. simpl. split; [reflexivity|]. split; [exact Hshort|lia]. }
    exists [data]. split; [|reflexivity].
    constructor; [exact Hcall|constructor].
  - split; [discriminate|]. split.
    { exists (drop pageSize rest). simpl. rewrite app_nil_r.
      symmetry. apply take_drop. }
    split.
    { intros i page _ Hi. simpl in Hi. lia. }
    exists (take pageSize rest). split; [reflexivity|].
    split; [|exact Hcall]. rewrite length_take. lia.
  - destruct IH as (Hne & (left & Hleft) & Hfullpages & Hr).
    assert (Htake : length (take pageSize rest) = pageSize)
      by (rewrite length_take; lia).
    split; [discriminate|]. split.
    { exists left. simpl. rewrite <- app_assoc, <- Hleft.
      symmetry. apply take_drop. }
    split.
    { intros [|i] page Hpage Hi; simpl in Hpage, Hi.
      - injection Hpage as <-. split; [exact Htake|eauto].
      - apply (Hfullpages i page Hpage). lia. }
    assert (Hlast : forall page, last calls = Some page ->
                    last (take pageSize rest :: calls) = Some page).
    { intros page Hpage. destruct calls; [contradiction|exact Hpage]. }
    destruct r as [fetched|e].
    + destruct Hr as (Hconcat & (page & Hpage & Hshort & Hcount)
                      & datas & Hdatas & Hfetched).
      split.
      { simpl. rewrite Hconcat. apply take_drop. }
      split.
      { exists page. split; [apply Hlast, Hpage|]. split; [exact Hshort|].
        rewrite length_drop in Hcount. simpl length.
        destruct calls; [contradiction|]. simpl length in *. lia. }
      exists (data :: datas). split; [|exact Hfetched].
      constructor; [exact Hcall|exact Hdatas].
    + destruct Hr as (page & Hpage & Hshort & Herr).
      exists page. split; [apply Hlast, Hpage|]. split; assumption.
Qed.

End Fetch.

(** X27: [fetchLargestCommitmentAddrs] always comes to an end and
    never slices out of range.  It asks for the tickets in pages that
    follow one another from the first ticket; every page but the last
    has [pageSize] tickets and has succeeded.  When it returns
    addresses, the pages make up all of the tickets, the last page is
    short of [pageSize] tickets (it is empty when the number of
    tickets is a multiple of [pageSize], also for no tickets at all),
    and the addresses are those of the pages, a later page overriding
    an earlier one.  When it returns an error, the error is that of
    the last page it has asked for. *)
Theorem fetchLargestCommitmentAddrs_pages :
  forall (largestCommitmentAddrs :
            list string -> result (gmap string string))
         (eligibleTickets : list string),
  exists (calls : list (list string)) (r : result (gmap string string)),
    fetchLargestCommitmentAddrs largestCommitmentAddrs eligibleTickets
      = Done (calls, r)
    /\ calls <> []
    /\ (exists left, eligibleTickets = concat calls ++ left)
    /\ (forall i page, calls !! i = Some page -> (S i < length calls)%nat ->
          length page = pageSize
          /\ exists data, largestCommitmentAddrs page = Ok data)
    /\ match r with
       | Ok fetched =>
           concat calls = eligibleTickets
           /\ (exists page, last calls = Some page
                 /\ (length page < pageSize)%nat
                 /\ length eligibleTickets
                    = ((length calls - 1) * pageSize + length page)%nat)
           /\ exists datas,
                Forall2 (fun page data =>
                           largestCommitmentAddrs page = Ok data) calls datas
                /\ fetched = fold_left (fun addrs data => data ∪ addrs)
                               datas ∅
       | Err e =>
           exists page, last calls = Some page
             /\ (length page <= pageSize)%nat
             /\ largestCommitmentAddrs page = Err e
       end.
Proof.
  intros lca eligibleTickets. unfold fetchLargestCommitmentAddrs.
  pose proof pageSize_pos as Hpos.
  destruct (fetchLoop_paged lca eligibleTickets
              (S (length eligibleTickets)) 0 ∅ [])
    as (calls & r & Hrun & Hpaged); [lia|nia|].
  exists calls, r. split; [exact Hrun|].
  rewrite drop_0 in Hpaged. apply (paged_pages lca _ _ _ _ Hpaged).
Qed.

End ConvertProperties.

(* ================================================================== *)
(** ** The further properties on the examples *)
(* ================================================================== *)

(** X1 on the example: two blobs that the store returns with the later
    change first. *)
Lemma billingStatusChanges_sorted_permutation_witness :
  exists bscs : list BillingStatusChange,
    piPlugin_billingStatusChanges (lib := Demo2.library)
      Demo2.pluginUnsorted (Some Demo.token) = Ok bscs
    /\ bscs ≡ₚ [Demo2.closedLate; Demo2.activeChange]
    /\ length bscs = length [Demo2.closedLateBlob; Demo2.activeBlob]
    /\ StronglySorted notLater bscs.
Proof.
  apply (billingStatusChanges_sorted_permutation (lib := Demo2.library)
           Demo2.pluginUnsorted (Some Demo.token)
           [Demo2.closedLateBlob; Demo2.activeBlob]
           [Demo2.closedLate; Demo2.activeChange]).
  - vm_compute; reflexivity.
  - repeat (constructor; [vm_compute; reflexivity|]). constructor.
Defined.

(** X2 on the example: the same two blobs. *)
Lemma billingStatusChanges_stable_witness :
  exists bscs : list BillingStatusChange,
    piPlugin_billingStatusChanges (lib := Demo2.library)
      Demo2.pluginUnsorted (Some Demo.token) = Ok bscs
    /\ (forall t : Z,
          filter (fun c => Timestamp c = t) bscs
            = filter (fun c => Timestamp c = t)
                [Demo2.closedLate; Demo2.activeChange])
    /\ (StronglySorted notLater [Demo2.closedLate; Demo2.activeChange] ->
        bscs = [Demo2.closedLate; Demo2.activeChange]).
Proof.
  apply (billingStatusChanges_stable (lib := Demo2.library)
           Demo2.pluginUnsorted (Some Demo.token)
           [Demo2.closedLateBlob; Demo2.activeBlob]
           [Demo2.closedLate; Demo2.activeChange]).
  - vm_compute; reflexivity.
  - repeat (constructor; [vm_compute; reflexivity|]). constructor.
Defined.

(** X6 on the example: the reply to the first close of the record. *)
Lemma cmdSetBillingStatus_reply_inversion_witness :
  exists sbs vsr r vm bscs be,
    setBillingStatusChecked (Some Demo.token) "close-done" Demo.plugin
      sbs vsr r vm bscs
    /\ billingStatusEncode (billingStatusChangeOf 1630000000 sbs) = Ok be
    /\ BlobSave (tstore Demo.plugin) (Some Demo.token) be
       = (tstore Demo.pluginClosed, None)
    /\ Demo.pluginClosed = withTstore Demo.plugin (tstore Demo.pluginClosed)
    /\ sbs_Status sbs <> proposalBillingStatus VoteStatusApproved bscs
    /\ (uint32 (Z.of_nat (length bscs) + 1)
        <= billingStatusChangesMax Demo.plugin)%Z
    /\ ((Z.of_nat (length bscs) + 1 < 2 ^ 32)%Z ->
        (Z.of_nat (length bscs) < billingStatusChangesMax Demo.plugin)%Z)
    /\ json_Marshal_SetBillingStatusReply
         {| sbsr_Timestamp := 1630000000;
            sbsr_Receipt := Receipt (billingStatusChangeOf 1630000000 sbs) |}
       = Ok (list_byte_of_string "736967").
Proof.
  apply (cmdSetBillingStatus_reply_inversion 1630000000%Z (Some Demo.token)
           "close-done" Demo.plugin Demo.pluginClosed "736967").
  vm_compute; reflexivity.
Defined.

(** X7 on the example: a close without a reason is refused, and the
    store is as it was. *)
Lemma cmdSetBillingStatus_error_no_write_witness :
  Demo.plugin = Demo.plugin
  \/ (exists sbs vsr r vm bscs be,
        setBillingStatusChecked (Some Demo.token) "close-no-reason"
          Demo.plugin sbs vsr r vm bscs
        /\ billingStatusEncode (billingStatusChangeOf 1630000000 sbs) = Ok be
        /\ Demo.plugin
           = withTstore Demo.plugin
               (fst (BlobSave (tstore Demo.plugin) (Some Demo.token) be))
        /\ (snd (BlobSave (tstore Demo.plugin) (Some Demo.token) be)
            = Some (PluginError ErrorCodeBillingStatusChangeNotAllowed
                      (Text "must provide a reason when setting billing status to closed"))
            \/ (snd (BlobSave (tstore Demo.plugin) (Some Demo.token) be) = None
                /\ json_Marshal_SetBillingStatusReply
                     {| sbsr_Timestamp := 1630000000;
                        sbsr_Receipt :=
                          Receipt (billingStatusChangeOf 1630000000 sbs) |}
                   = Err (PluginError ErrorCodeBillingStatusChangeNotAllowed
                            (Text "must provide a reason when setting billing status to closed"))))).
Proof.
  apply (cmdSetBillingStatus_error_no_write 1630000000%Z (Some Demo.token)
           "close-no-reason" Demo.plugin Demo.plugin
           (PluginError ErrorCodeBillingStatusChangeNotAllowed
              (Text "must provide a reason when setting billing status to closed"))).
  vm_compute; reflexivity.
Defined.

(** The checks of [cmdSetBillingStatus] pass for a change to active of
    the record of [Demo], be its one change the close of [Demo] or the
    later close. *)
Lemma setActive_checked (p : piPlugin) (c : BillingStatusChange) :
  voteSummary (tstore p) (Some Demo.token)
    = Ok {| ticketvote.Status := VoteStatusApproved |} ->
  record (lib := Demo2.library) p
    (voteMetadataRequest (lib := Demo2.library) (Some Demo.token))
    = Ok Demo.theRecord ->
  piPlugin_billingStatusChanges (lib := Demo2.library) p (Some Demo.token)
    = Ok [c] ->
  billingStatusChangesMax p = 2%Z ->
  Status c = BillingStatusClosed ->
  setBillingStatusChecked (lib := Demo2.library) (Some Demo.token)
    "set-active" p Demo.setActive
    {| ticketvote.Status := VoteStatusApproved |} Demo.theRecord None [c].
Proof.
  intros Hvote Hrecord Hchanges Hmax Hclosed.
  unfold setBillingStatusChecked.
  split; [vm_compute; reflexivity|].
  split; [vm_compute; reflexivity|].
  split; [simpl; tauto|].
  split; [vm_compute; reflexivity|].
  split; [left; vm_compute; discriminate|].
  split; [exact Hvote|].
  split; [reflexivity|].
  split; [exact Hrecord|].
  split; [reflexivity|].
  split; [reflexivity|].
  split; [exact Hchanges|].
  split; [rewrite Hmax; vm_compute; discriminate|].
  unfold proposalBillingStatus. simpl. rewrite Hclosed. reflexivity.
Qed.

(** X8 on the example: the record that was closed is set to active at
    a later time. *)
Lemma cmdSetBillingStatus_then_read_witness :
  exists (p' : piPlugin) (reply : result string),
    cmdSetBillingStatus (lib := Demo2.library) 1640000000
      (Some Demo.token) "set-active" Demo.pluginClosed = Some (p', reply)
    /\ tstore p'
       = fst (BlobSave (tstore Demo.pluginClosed) (Some Demo.token)
                Demo2.activeBlob)
    /\ piPlugin_billingStatusChanges (lib := Demo2.library) p'
         (Some Demo.token)
       = Ok [Demo.closedChange; Demo2.activeChange]
    /\ proposalBillingStatus VoteStatusApproved
         [Demo.closedChange; Demo2.activeChange]
       = BillingStatusActive.
Proof.
  destruct (cmdSetBillingStatus_then_read (lib := Demo2.library)
              1640000000%Z (Some Demo.token) "set-active" Demo.pluginClosed
              Demo.setActive {| ticketvote.Status := VoteStatusApproved |}
              Demo.theRecord None [Demo.closedChange] [Demo.closedBlob]
              Demo2.activeBlob
              (setActive_checked Demo.pluginClosed Demo.closedChange
                 ltac:(vm_compute; reflexivity) ltac:(vm_compute; reflexivity)
                 ltac:(vm_compute; reflexivity) ltac:(vm_compute; reflexivity)
                 ltac:(vm_compute; reflexivity))
              ltac:(vm_compute; reflexivity) ltac:(vm_compute; reflexivity)
              ltac:(vm_compute; reflexivity) ltac:(vm_compute; reflexivity)
              ltac:(vm_compute; reflexivity)
              ltac:(repeat constructor; vm_compute; discriminate))
    as (p' & reply & Hrun & Hstore & Hread & Hstatus & _).
  exists p', reply. auto.
Defined.

(** X9 on the example: the record was closed at a time that is later
    than the clock of the change to active. *)
Lemma cmdSetBillingStatus_clock_behind_witness :
  exists (p' : piPlugin) (reply : result string)
         (bscs' : list BillingStatusChange),
    cmdSetBillingStatus (lib := Demo2.library) 1640000000
      (Some Demo.token) "set-active" Demo2.pluginClosedLate
      = Some (p', reply)
    /\ piPlugin_billingStatusChanges (lib := Demo2.library) p'
         (Some Demo.token) = Ok bscs'
    /\ In (billingStatusChangeOf 1640000000 Demo.setActive) bscs'
    /\ proposalBillingStatus VoteStatusApproved bscs'
       = Status Demo2.closedLate
    /\ Status Demo2.closedLate <> sbs_Status Demo.setActive.
Proof.
  apply (cmdSetBillingStatus_clock_behind (lib := Demo2.library)
           1640000000%Z (Some Demo.token) "set-active" Demo2.pluginClosedLate
           Demo.setActive {| ticketvote.Status := VoteStatusApproved |}
           Demo.theRecord None [] Demo2.closedLate [Demo2.closedLateBlob]
           Demo2.activeBlob
           (setActive_checked Demo2.pluginClosedLate Demo2.closedLate
              ltac:(vm_compute; reflexivity) ltac:(vm_compute; reflexivity)
              ltac:(vm_compute; reflexivity) ltac:(vm_compute; reflexivity)
              ltac:(vm_compute; reflexivity))
           ltac:(vm_compute; reflexivity) ltac:(vm_compute; reflexivity)
           ltac:(vm_compute; reflexivity) ltac:(vm_compute; reflexivity)
           ltac:(vm_compute; reflexivity) ltac:(vm_compute; reflexivity)).
Defined.

(** X10 on the example: a vote status is set for a new token in a cache
    that is full; the oldest token gives way. *)
Lemma cache_set_then_get_witness :
  exists c' : Cache,
    cacheVoteStatusSet Demo2.cacheFull "cc" VoteStatusApproved = Some c'
    /\ cacheDataGet c' "cc"
       = Some {| proposalStatus_ :=
                   cacheDataGet Demo2.cacheFull "cc" ≫= proposalStatus_;
                 voteStatus_ := Some VoteStatusApproved |}
    /\ (forall t, t <> "cc" ->
          cacheDataGet c' t = cacheDataGet Demo2.cacheFull t
          \/ (cacheDataGet c' t = None
              /\ cacheDataGet Demo2.cacheFull "cc" = None
              /\ head (entries Demo2.cacheFull) = Some t
              /\ Z.of_nat (length (entries Demo2.cacheFull)) = piCacheLimit)).
Proof.
  assert (HK : piCacheLimit <> 0%Z) by (vm_compute; discriminate).
  exact (proj1 (cache_set_then_get HK Demo2.cacheFull "cc")
           VoteStatusApproved).
Defined.

Lemma cacheFull_inv : cacheInv Demo2.cacheFull.
Proof.
  split; [|split].
  - simpl. apply NoDup_cons. split; [|apply NoDup_singleton].
    rewrite list_elem_of_singleton. discriminate.
  - intros t. unfold Demo2.cacheFull. simpl.
    rewrite !lookup_insert_is_Some, lookup_empty, is_Some_alt.
    rewrite !elem_of_cons, elem_of_nil. intuition congruence.
  - vm_compute; discriminate.
Qed.

(** X11 on the example: a set for a new token in the full cache. *)
Lemma cache_invariant_kept_witness :
  exists c' : Cache,
    cacheStep Demo2.cacheFull
      (OpProposalStatusSet "cc" PropStatusRejected) = Some c'
    /\ cacheInv c'
    /\ size (data c') = length (entries c').
Proof.
  assert (HK : (0 < piCacheLimit)%Z) by (vm_compute; reflexivity).
  exact (cache_invariant_kept HK Demo2.cacheFull
           (OpProposalStatusSet "cc" PropStatusRejected) cacheFull_inv).
Defined.

(** X12 on the example: the first summary of the record of [Demo]
    caches its vote status. *)
Lemma cmdSummary_keeps_cache_content_witness :
  tstore Demo2.pluginSummarised = tstore Demo.plugin
  /\ billingStatusChangesMax Demo2.pluginSummarised
     = billingStatusChangesMax Demo.plugin
  /\ (cacheContentOk (cache Demo.plugin) ->
      cacheContentOk (cache Demo2.pluginSummarised)).
Proof.
  apply (cmdSummary_keeps_cache_content (Some Demo.token) Demo.plugin
           Demo2.pluginSummarised (Ok "active")).
  vm_compute; reflexivity.
Defined.

(** X13 on the example: the cached status Rejected, over a store that
    holds a billing status change. *)
Lemma cmdSummary_cached_status_witness :
  cmdSummary (Some Demo.token)
    (withTstore (withCache Demo.plugin Demo2.cacheRejected)
       (tstore Demo.pluginClosed))
  = Some (withTstore (withCache Demo.plugin Demo2.cacheRejected)
            (tstore Demo.pluginClosed),
          summaryJSON PropStatusRejected).
Proof.
  apply (cmdSummary_cached_status (Some Demo.token)
           (withCache Demo.plugin Demo2.cacheRejected)
           {| proposalStatus_ := Some PropStatusRejected;
              voteStatus_ := None |}
           PropStatusRejected (tstore Demo.pluginClosed)).
  - vm_compute; reflexivity.
  - reflexivity.
Defined.

(** X14 on the example: the vote of the record was rejected. *)
Lemma cmdSummary_terminal_while_cached_witness :
  exists p' : @piPlugin Demo2.backendRejected,
    cmdSummary (bk := Demo2.backendRejected) (Some Demo.token)
      Demo2.pluginRejected
      = Some (p', summaryJSON PropStatusRejected)
    /\ tstore p' = tstore Demo2.pluginRejected
    /\ cacheDataGet (cache p') (hex_EncodeToString Demo.token)
         ≫= proposalStatus_ = Some PropStatusRejected
    /\ forall p'' : @piPlugin Demo2.backendRejected,
         cacheDataGet (cache p'') (hex_EncodeToString Demo.token)
           = cacheDataGet (cache p') (hex_EncodeToString Demo.token) ->
         cmdSummary (bk := Demo2.backendRejected) (Some Demo.token) p''
           = Some (p'', summaryJSON PropStatusRejected).
Proof.
  apply (cmdSummary_terminal_while_cached (bk := Demo2.backendRejected)
           (Some Demo.token) Demo2.pluginRejected Demo.theRecord None
           VoteStatusRejected [] PropStatusRejected).
  - vm_compute; discriminate.
  - left. vm_compute; reflexivity.
  - vm_compute; reflexivity.
  - reflexivity.
  - vm_compute; reflexivity.
  - vm_compute; reflexivity.
  - simpl. tauto.
Defined.

(** X15 on the example: the first summary of the record of [Demo]
    with a cache of no capacity. *)
Lemma cmdSummary_zero_capacity_panics_witness :
  cmdSummary (lib := Demo2.libraryNoCache) (Some Demo.token) Demo.plugin
  = None.
Proof.
  apply (cmdSummary_zero_capacity_panics (lib := Demo2.libraryNoCache)
           (Some Demo.token) Demo.plugin Demo.theRecord None
           VoteStatusApproved [] PropStatusActive).
  - reflexivity.
  - reflexivity.
  - vm_compute; reflexivity.
  - reflexivity.
  - vm_compute; reflexivity.
  - vm_compute; reflexivity.
  - right. simpl. tauto.
Defined.

(** X18 on the example: the blob of the close of [Demo]. *)
Lemma billingStatusDecode_inversion_witness :
  exists (hint data : bytes) (dd : store.DataDescriptor),
    base64_DecodeString (store.DataHint Demo.closedBlob) = Ok hint
    /\ json_Unmarshal_DataDescriptor hint = Ok dd
    /\ store.Descriptor dd = dataDescriptorBillingStatus
    /\ base64_DecodeString (store.Data Demo.closedBlob) = Ok data
    /\ hex_DecodeString (store.Digest Demo.closedBlob)
       = Ok (util_Digest data)
    /\ json_Unmarshal_BillingStatusChange data = Ok Demo.closedChange.
Proof.
  apply (billingStatusDecode_inversion Demo.closedBlob Demo.closedChange).
  vm_compute; reflexivity.
Defined.

(** X19 on the example: a closed proposal. *)
Lemma proposalStatus_kinds_witness :
  PropStatusClosed <> PropStatusInvalid
  /\ ((In PropStatusClosed terminalStatuses
       /\ ~ In PropStatusClosed quasiTerminalStatuses
       /\ ~ In PropStatusClosed transientStatuses)
      \/ (In PropStatusClosed quasiTerminalStatuses
          /\ ~ In PropStatusClosed terminalStatuses
          /\ ~ In PropStatusClosed transientStatuses
          /\ StateVetted = StateVetted /\ StatusPublic = StatusPublic
          /\ VoteStatusApproved = VoteStatusApproved
          /\ isRFP None = false)
      \/ (In PropStatusClosed transientStatuses
          /\ ~ In PropStatusClosed terminalStatuses
          /\ ~ In PropStatusClosed quasiTerminalStatuses)).
Proof.
  apply (proposalStatus_kinds StateVetted StatusPublic VoteStatusApproved
           None [Demo.closedChange] PropStatusClosed).
  reflexivity.
Defined.

(** X22 on the example of the source: a path of a version of a
    proposal. *)
Lemma gitProposalToken_leftmost_witness :
  legacypoliteia.gitProposalToken
    "mainnet/fdd68c87961549750adf29e178128210cb310294080211cf6a35792aa1bb7f63/1"
  = ("fdd68c87961549750adf29e178128210cb310294080211cf6a35792aa1bb7f63", true)
  /\ exists pre t post : list ascii,
       legacypoliteia.chars
         "mainnet/fdd68c87961549750adf29e178128210cb310294080211cf6a35792aa1bb7f63/1"
       = pre ++ t ++ post
       /\ legacypoliteia.isGitToken t
       /\ fst (legacypoliteia.gitProposalToken
                 "mainnet/fdd68c87961549750adf29e178128210cb310294080211cf6a35792aa1bb7f63/1")
          = string_of_list_ascii t
       /\ forall pre' t' post' : list ascii,
            legacypoliteia.chars
              "mainnet/fdd68c87961549750adf29e178128210cb310294080211cf6a35792aa1bb7f63/1"
            = pre' ++ t' ++ post' ->
            legacypoliteia.isGitToken t' ->
            (length pre <= length pre')%nat.
Proof.
  split; [vm_compute; reflexivity|].
  apply (proj1 (gitProposalToken_leftmost
    "mainnet/fdd68c87961549750adf29e178128210cb310294080211cf6a35792aa1bb7f63/1")).
  vm_compute; reflexivity.
Defined.

(** X24 on an example: version 12 of a proposal. *)
Lemma proposalVersion_sound_witness :
  exists pre t ds post : list ascii,
    legacypoliteia.chars
      "mainnet/fdd68c87961549750adf29e178128210cb310294080211cf6a35792aa1bb7f63/12/payload"
    = pre ++ t ++ "/"%char :: ds ++ post
    /\ legacypoliteia.isGitToken t
    /\ ds <> [] /\ forallb legacypoliteia.isDigit ds = true
    /\ match post with
       | d :: _ => legacypoliteia.isDigit d = false
       | [] => True
       end
    /\ 12%N = legacypoliteia.decimalValue ds
    /\ (12 < 2 ^ 32)%N.
Proof.
  apply (proj1 (proposalVersion_sound
    "mainnet/fdd68c87961549750adf29e178128210cb310294080211cf6a35792aa1bb7f63/12/payload")).
  vm_compute; reflexivity.
Defined.

(** X25 on an example: the walk of a proposal with three versions, a
    directory of payload and a file. *)
Lemma latestVersion_greatest_witness :
  let dir := fun name : string =>
    {| legacypoliteia.wc_path := name;
       legacypoliteia.wc_d :=
         Some {| legacypoliteia.de_Name := name;
                 legacypoliteia.de_IsDir := true |};
       legacypoliteia.wc_err := None |} in
  let calls :=
    [dir "fdd68"; dir "1"; dir "payload"; dir "3"; dir "2"; dir "03";
     {| legacypoliteia.wc_path := "9";
        legacypoliteia.wc_d :=
          Some {| legacypoliteia.de_Name := "9";
                  legacypoliteia.de_IsDir := false |};
        legacypoliteia.wc_err := None |}] in
  legacypoliteia.latestVersion calls "fdd68" = Some (Ok 3%N)
  /\ (0 < 3)%N
  /\ legacypoliteia.isVersionOf calls 3
  /\ forall u, legacypoliteia.isVersionOf calls u -> (u <= 3)%N.
Proof.
  intros dir calls.
  assert (Hrun : legacypoliteia.latestVersion calls "fdd68" = Some (Ok 3%N))
    by (vm_compute; reflexivity).
  split; [exact Hrun|].
  destruct (latestVersion_greatest calls "fdd68") as (_ & Hwalk & _).
  apply (Hwalk ltac:(intros c Hc; subst calls dir;
                     repeat (apply elem_of_cons in Hc as [->|Hc];
                             [discriminate|]);
                     apply elem_of_nil in Hc; contradiction)).
  exact Hrun.
Defined.

(** X23 on an example: the walk of a repository with one proposal, of
    one version, and a file. *)
Lemma gitProposalTokens_inventory_witness :
  let entry := fun (path name : string) (isDir : bool) =>
    {| legacypoliteia.wc_path := path;
       legacypoliteia.wc_d :=
         Some {| legacypoliteia.de_Name := name;
                 legacypoliteia.de_IsDir := isDir |};
       legacypoliteia.wc_err := None |} in
  let calls :=
    [entry "mainnet" "mainnet" true;
     entry
       "mainnet/fdd68c87961549750adf29e178128210cb310294080211cf6a35792aa1bb7f63"
       "fdd68c87961549750adf29e178128210cb310294080211cf6a35792aa1bb7f63" true;
     entry
       "mainnet/fdd68c87961549750adf29e178128210cb310294080211cf6a35792aa1bb7f63/1"
       "1" true;
     entry "mainnet/anchor_audit_trail.txt" "anchor_audit_trail.txt" false] in
  legacypoliteia.gitProposalTokens calls
  = Some (Ok {["fdd68c87961549750adf29e178128210cb310294080211cf6a35792aa1bb7f63"]})
  /\ exists tokens : gset string,
       legacypoliteia.gitProposalTokens calls = Some (Ok tokens)
       /\ (forall t : string,
             t ∈ tokens <->
             exists c d, c ∈ calls /\ legacypoliteia.wc_d c = Some d
               /\ legacypoliteia.de_IsDir d = true
               /\ legacypoliteia.gitProposalToken (legacypoliteia.wc_path c)
                  = (t, true))
       /\ (forall t : string,
             t ∈ tokens ->
             legacypoliteia.isGitToken (legacypoliteia.chars t)).
Proof.
  intros entry calls.
  split; [vm_compute; reflexivity|].
  destruct (gitProposalTokens_inventory calls) as (_ & Hwalk & _).
  apply Hwalk.
  intros c Hc. subst calls entry.
  repeat (apply elem_of_cons in Hc as [->|Hc]; [discriminate|]).
  apply elem_of_nil in Hc. contradiction.
Defined.
